(** * Investment tracker: FIFO lot ledger, currency conversion,
      monthly performance series and sell-transaction analysis.

    A shallow embedding of the accounting code of
    [src/generate_investment_portfolio.py] and
    [src/generate_sell_transaction_analysis.py].

    Numbers.  The Python code computes on JSON numbers (ints and floats).
    Here every amount is an exact rational ([Q]); equalities between
    computed amounts are stated with [==] ([Qeq]).  Every division of the
    source is guarded by a test on its divisor, and the guards are kept.

    Dictionaries.  A Python [dict] used as a finite map is a [gmap]; the
    one dictionary whose iteration order decides the output
    ([symbol_transactions] of the analyzer) is an insertion-ordered
    association list.

    The iteration order of a [gmap] is not the insertion order of the
    Python dict; the loops over [holdings.items()] only add up amounts, and
    the order of a sum does not change an exact rational.

    Exceptions.  A subscript [d['k']] on a missing key raises [KeyError]
    in Python; functions that can raise return a [result].

    Dates.  A date is the value [datetime.strptime(s, "%d-%m-%Y")] parses;
    strings that do not parse are outside the model. *)

From Stdlib Require Import QArith Lqa Lia List Bool Ascii String.
From stdpp Require Import base option list gmap strings fin_maps sorting.
Import ListNotations.

Local Open Scope string_scope.
Local Open Scope Q_scope.
Local Open Scope list_scope.

(** ** Exceptions and the error monad *)

Inductive exn : Type :=
| KeyError (key : string)
| TypeError
| AttributeError.

Inductive result (A : Type) : Type :=
| Ok (a : A)
| Err (e : exn).
Arguments Ok {A} a.
Arguments Err {A} e.

Definition rbind {A B : Type} (k : A -> result B) (r : result A) : result B :=
  match r with
  | Ok a => k a
  | Err e => Err e
  end.

Definition rmap {A B : Type} (f : A -> B) (r : result A) : result B :=
  match r with
  | Ok a => Ok (f a)
  | Err e => Err e
  end.

#[global] Instance result_ret : MRet result := @Ok.
#[global] Instance result_bind : MBind result := @rbind.
#[global] Instance result_fmap : FMap result := @rmap.

(** [d[key]] for an optional field of a JSON object. *)
Definition subscript {A : Type} (key : string) (field : option A) : result A :=
  match field with
  | Some a => Ok a
  | None => Err (KeyError key)
  end.

(** Left-to-right loop whose body may raise. *)
Fixpoint foldM {S A : Type} (body : S -> A -> result S) (xs : list A) (s : S)
  : result S :=
  match xs with
  | [] => Ok s
  | x :: rest => s' ← body s x; foldM body rest s'
  end.

(** ** Comparisons on rationals, as booleans *)

Definition Qlt_bool (x y : Q) : bool := negb (Qle_bool y x).

(** Python truthiness of a number: [0] and [0.0] are falsy. *)
Definition truthy (x : Q) : bool := negb (Qeq_bool x 0).

(** Truthiness of a value that may be [None]. *)
Definition truthy_opt (x : option Q) : bool :=
  match x with
  | Some v => truthy v
  | None => false
  end.

(** ** Strings: [str.lower] on the letters that matter

    The source compares [transaction['type'].lower()] with ['buy'] and
    ['sell'].  Only the ASCII capitals lower-case to a letter of these two
    words, so lowering the ASCII capitals decides the comparison. *)

Definition lower_ascii (c : ascii) : ascii :=
  let n := nat_of_ascii c in
  if (Nat.leb 65 n && Nat.leb n 90)%bool then ascii_of_nat (n + 32) else c.

Fixpoint lower (s : string) : string :=
  match s with
  | EmptyString => EmptyString
  | String c rest => String (lower_ascii c) (lower rest)
  end.

(** ** Data model *)

(** A date of the ledger, once parsed. *)
Record date : Type := mkDate { day : nat; month : nat; year : nat }.

(** The order of [datetime] values: year, then month, then day. *)
Definition date_leb (a b : date) : bool :=
  if Nat.ltb (year a) (year b) then true
  else if Nat.ltb (year b) (year a) then false
  else if Nat.ltb (month a) (month b) then true
  else if Nat.ltb (month b) (month a) then false
  else Nat.leb (day a) (day b).

(** A transaction object of the JSON file.  [symbol], [shares], [price],
    [type] and [date] are read by subscript on every transaction; [name] is
    read by subscript on a buy only; [currency] and [fee] are also read with
    [.get] and a default, so they may be absent.  The record is a
    transaction that has the five keys read on every transaction: an object
    without one of them, for which the source raises a [KeyError] on that
    key, is not a value of this type, and no statement below is about
    it. *)
Record transaction : Type := mkTransaction {
  symbol : string;
  type : string;
  shares : Q;
  price : Q;
  tdate : date;
  name : option string;
  currency : option string;
  fee : option Q
}.

(** A purchase lot [(shares, price, date)]. *)
Record lot : Type := mkLot { lot_shares : Q; lot_price : Q; lot_date : date }.

(** The per-symbol state of a holdings dictionary. *)
Record holding : Type := mkHolding {
  h_name : string;
  lots : list lot;
  total_shares : Q;
  weighted_avg_cost : Q;
  total_cost : Q;
  h_sector : string;
  h_currency : string
}.

(** The value the [defaultdict] factory builds for a new symbol. *)
Definition default_holding : holding :=
  mkHolding "" [] 0 0 0 "Unknown" "$".

(** [holdings_dict[symbol]] on a [defaultdict]: the entry, created on a miss. *)
Definition get_holding (holdings_dict : gmap string holding) (sym : string)
  : holding :=
  default default_holding (holdings_dict !! sym).

(** ** FIFO lot ledger ([load_portfolio_data]) *)

(** [calculate_totals]: the totals are recomputed from the remaining lots. *)
Definition calculate_totals (symbol_data : holding) : holding :=
  let total_shares :=
    fold_left (fun acc l => acc + lot_shares l) (lots symbol_data) 0 in
  let total_cost :=
    fold_left (fun acc l => acc + lot_shares l * lot_price l)
              (lots symbol_data) 0 in
  mkHolding (h_name symbol_data) (lots symbol_data)
            total_shares
            (if Qlt_bool 0 total_shares then total_cost / total_shares else 0)
            total_cost
            (h_sector symbol_data) (h_currency symbol_data).

(** The [while remaining_to_sell > 0 and lots] loop of a sell.  An iteration
    either pops the head lot, or splits it and sets [remaining_to_sell] to 0,
    which ends the loop. *)
Fixpoint sell_fifo (remaining_to_sell : Q) (q : list lot) : list lot :=
  match q with
  | [] => []
  | l :: rest =>
      if Qlt_bool 0 remaining_to_sell then
        if Qle_bool (lot_shares l) remaining_to_sell then
          sell_fifo (remaining_to_sell - lot_shares l) rest
        else
          mkLot (lot_shares l - remaining_to_sell) (lot_price l) (lot_date l)
            :: rest
      else q
  end.

Definition set_lots (h : holding) (q : list lot) : holding :=
  mkHolding (h_name h) q (total_shares h) (weighted_avg_cost h)
            (total_cost h) (h_sector h) (h_currency h).

(** The body of the [for transaction in transactions_list] loop. *)
Definition process_transaction (holdings_dict : gmap string holding)
  (t : transaction) : result (gmap string holding) :=
  let sym := symbol t in
  let trans_type := lower (type t) in
  let cur := default "$" (currency t) in
  let h := get_holding holdings_dict sym in
  if String.eqb trans_type "buy" then
    nm ← subscript "name" (name t);
    let h1 := mkHolding nm (lots h ++ [mkLot (shares t) (price t) (tdate t)])
                        (total_shares h) (weighted_avg_cost h) (total_cost h)
                        (h_sector h) cur in
    Ok (<[sym := calculate_totals h1]> holdings_dict)
  else if String.eqb trans_type "sell" then
    Ok (<[sym := calculate_totals (set_lots h (sell_fifo (shares t) (lots h)))]>
          holdings_dict)
  else
    Ok (<[sym := calculate_totals h]> holdings_dict).

(** The state of [holdings_dict] when the loop ends. *)
Definition replay (holdings_dict : gmap string holding)
  (transactions_list : list transaction) : result (gmap string holding) :=
  foldM process_transaction transactions_list holdings_dict.

(** The dict comprehension of the [return]: holdings with no shares left are
    dropped. *)
Definition prune (holdings_dict : gmap string holding) : gmap string holding :=
  filter (fun kv => Qlt_bool 0 (total_shares (snd kv)) = true) holdings_dict.

Definition process_transactions (holdings_dict : gmap string holding)
  (transactions_list : list transaction) : result (gmap string holding) :=
  rmap prune (replay holdings_dict transactions_list).

(** ** Sell transaction analyzer ([generate_sell_transaction_analysis.py]) *)

(** An account object of [portfolio_data['accounts']]. *)
Record account : Type := mkAccount {
  account_name : string;
  acc_currency : string;
  transactions : list transaction
}.

(** [transaction_with_account]: the copy of a transaction with the two
    account keys added. *)
Record transaction_with_account : Type := mkTWA {
  tx : transaction;
  tx_account : string;
  tx_account_currency : string
}.

(** The first loop: every transaction of every account, in file order. *)
Definition collect_transactions (accounts : list account)
  : list transaction_with_account :=
  flat_map (fun a => map (fun t => mkTWA t (account_name a) (acc_currency a))
                         (transactions a))
           accounts.

(** [list.sort(key=...)] is a stable sort: of two elements with equal keys
    the one that came first stays first.  The result of a stable sort is
    determined by the input, so the insertion sort below computes the list
    that Python's sort returns. *)
Section StableSort.
Context {A : Type} (key : A -> date).

Fixpoint insert_sorted (x : A) (l : list A) : list A :=
  match l with
  | [] => [x]
  | y :: rest =>
      if date_leb (key x) (key y) then x :: y :: rest
      else y :: insert_sorted x rest
  end.

Fixpoint sort_by_date (l : list A) : list A :=
  match l with
  | [] => []
  | x :: rest => insert_sorted x (sort_by_date rest)
  end.
End StableSort.

(** [symbol_transactions]: a dict from symbol to the list of its
    transactions.  Iteration follows insertion order, so the dict is an
    association list; a new symbol goes to the end. *)
Fixpoint dict_append {V : Type} (sym : string) (v : V)
  (d : list (string * list V)) : list (string * list V) :=
  match d with
  | [] => [(sym, [v])]
  | (k, vs) :: rest =>
      if String.eqb k sym then (k, vs ++ [v]) :: rest
      else (k, vs) :: dict_append sym v rest
  end.

Definition group_by_symbol (all_transactions : list transaction_with_account)
  : list (string * list transaction_with_account) :=
  fold_left (fun d t => dict_append (symbol (tx t)) t d) all_transactions [].

(** A lot of the analyzer's queue: [(shares, price, date, account)]. *)
Record buy_lot : Type := mkBuyLot {
  bl_shares : Q;
  bl_price : Q;
  bl_date : date;
  bl_account : string
}.

(** The [while remaining_to_sell > 0 and temp_queue] loop.  It walks a copy
    of the queue ([temp_queue]) and updates the real one ([buy_queue]) under
    an [if buy_queue] guard.  Returns the queue, [total_cost_basis] and
    [shares_processed]. *)
Fixpoint match_lots (temp_queue : list buy_lot) (remaining_to_sell : Q)
  (buy_queue : list buy_lot) (total_cost_basis shares_processed : Q)
  : list buy_lot * Q * Q :=
  match temp_queue with
  | [] => (buy_queue, total_cost_basis, shares_processed)
  | l :: temp_rest =>
      if Qlt_bool 0 remaining_to_sell then
        if Qle_bool (bl_shares l) remaining_to_sell then
          let shares_used := bl_shares l in
          let buy_queue' :=
            match buy_queue with
            | [] => []
            | _ :: q => q
            end in
          match_lots temp_rest (remaining_to_sell - bl_shares l) buy_queue'
                     (total_cost_basis + shares_used * bl_price l)
                     (shares_processed + shares_used)
        else
          let shares_used := remaining_to_sell in
          let buy_queue' :=
            match buy_queue with
            | [] => []
            | _ :: q =>
                mkBuyLot (bl_shares l - shares_used) (bl_price l) (bl_date l)
                         (bl_account l) :: q
            end in
          match_lots temp_rest 0 buy_queue'
                     (total_cost_basis + shares_used * bl_price l)
                     (shares_processed + shares_used)
      else (buy_queue, total_cost_basis, shares_processed)
  end.

(** The dict appended to [sell_analysis_results] for a sell. *)
Record sell_result : Type := mkSellResult {
  r_symbol : string;
  sell_date : date;
  r_account : string;
  shares_sold : Q;
  sell_price : Q;
  gross_proceeds : Q;
  fees : Q;
  net_proceeds : Q;
  r_weighted_avg_cost : Q;
  total_cost_basis : Q;
  realized_pnl : Q;
  realized_pnl_pct : Q;
  r_currency : string
}.

(** The body of [for transaction in transactions] for one symbol; the state
    is the symbol's queue and the results so far. *)
Definition analyze_transaction (sym : string)
  (st : list buy_lot * list sell_result) (t : transaction_with_account)
  : result (list buy_lot * list sell_result) :=
  let '(buy_queue, results) := st in
  let trans_type := lower (type (tx t)) in
  let shares := shares (tx t) in
  let price := price (tx t) in
  let date := tdate (tx t) in
  let account := tx_account t in
  let fee := default 0 (fee (tx t)) in
  if String.eqb trans_type "buy" then
    Ok (buy_queue ++ [mkBuyLot shares price date account], results)
  else if String.eqb trans_type "sell" then
    let '(buy_queue', total_cost_basis, shares_processed) :=
      match_lots buy_queue shares buy_queue 0 0 in
    let weighted_avg_cost :=
      if Qlt_bool 0 shares_processed then total_cost_basis / shares_processed
      else 0 in
    let gross_proceeds := shares * price in
    let net_proceeds := gross_proceeds - fee in
    let realized_pnl := net_proceeds - total_cost_basis in
    let realized_pnl_pct :=
      if Qlt_bool 0 total_cost_basis
      then realized_pnl / total_cost_basis * 100 else 0 in
    cur ← subscript "currency" (currency (tx t));
    Ok (buy_queue',
        results ++ [mkSellResult sym date account shares price gross_proceeds
                                 fee net_proceeds weighted_avg_cost
                                 total_cost_basis realized_pnl
                                 realized_pnl_pct cur])
  else Ok (buy_queue, results).

(** One pass of [for symbol, transactions in symbol_transactions.items()]:
    a fresh queue, the shared result list. *)
Definition analyze_symbol (results : list sell_result)
  (group : string * list transaction_with_account)
  : result (list sell_result) :=
  snd <$> foldM (analyze_transaction (fst group)) (snd group) ([], results).

Definition analyze_sell_transactions (accounts : list account)
  : result (list sell_result) :=
  let all_transactions :=
    sort_by_date (fun t => tdate (tx t)) (collect_transactions accounts) in
  foldM analyze_symbol (group_by_symbol all_transactions) [].

(** A result dict after [calculate_unrealized_pnl]: the six keys it sets
    hold a number or [None]. *)
Record sell_analysis : Type := mkSellAnalysis {
  base : sell_result;
  current_price : option Q;
  current_market_value : option Q;
  current_net_proceeds : option Q;
  unrealized_pnl : option Q;
  unrealized_pnl_pct : option Q;
  opportunity_difference : option Q
}.

(** The body of [for result in sell_results].  [current_prices] maps a
    symbol to a price or to [None]; [.get] on a missing symbol is [None]. *)
Definition unrealized_pnl_of (current_prices : gmap string (option Q))
  (result : sell_result) : sell_analysis :=
  match mjoin (current_prices !! r_symbol result) with
  | Some current_price =>
      let shares_sold := shares_sold result in
      let cost_basis := total_cost_basis result in
      let fees := fees result in
      let current_market_value := shares_sold * current_price in
      let current_net_proceeds := current_market_value - fees in
      let unrealized_pnl := current_net_proceeds - cost_basis in
      let unrealized_pnl_pct :=
        if Qlt_bool 0 cost_basis then unrealized_pnl / cost_basis * 100
        else 0 in
      let opportunity_difference := unrealized_pnl - realized_pnl result in
      mkSellAnalysis result (Some current_price) (Some current_market_value)
                     (Some current_net_proceeds) (Some unrealized_pnl)
                     (Some unrealized_pnl_pct) (Some opportunity_difference)
  | None => mkSellAnalysis result None None None None None None
  end.

Definition calculate_unrealized_pnl (sell_results : list sell_result)
  (current_prices : gmap string (option Q)) : list sell_analysis :=
  map (unrealized_pnl_of current_prices) sell_results.

(** ** Currency converter *)

(** A value of the [exchange_rates] dict: a rate to USD, or, under the key
    ['EUR_RATES'], the nested dict of rates to EUR. *)
Inductive rate_entry : Type :=
| Rate (r : Q)
| RateTable (t : gmap string Q).

(** The fallback constants of [get_exchange_rates]. *)
Definition static_exchange_rates : gmap string rate_entry :=
  <["USD" := Rate 1.0]>
  (<["EUR" := Rate 1.10]>
  (<["RON" := Rate 0.22]>
  (<["£" := Rate 1.25]>
  (<["¥" := Rate 0.007]>
  (<["EUR_RATES" :=
       RateTable (<["USD" := 0.91]>
                 (<["EUR" := 1.0]>
                 (<["RON" := 0.20]>
                 (<["GBP" := 1.14]>
                 (<["JPY" := 0.0064]> ∅)))))]> ∅))))).

(** [currency_map.get(from_currency, from_currency)]. *)
Definition currency_map (from_currency : string) : string :=
  if String.eqb from_currency "$" then "USD"
  else if String.eqb from_currency "€" then "EUR"
  else if String.eqb from_currency "RON" then "RON"
  else if String.eqb from_currency "£" then "GBP"
  else if String.eqb from_currency "¥" then "JPY"
  else from_currency.

Definition convert_to_usd (value : Q) (from_currency : string)
  (exchange_rates : gmap string rate_entry) : result Q :=
  if (negb (truthy value) || Qeq_bool value 0)%bool then Ok 0
  else
    let currency_code := currency_map from_currency in
    if String.eqb currency_code "USD" then Ok value
    else
      match exchange_rates !! currency_code with
      | None => Ok (value * 1.0)
      | Some (Rate exchange_rate) => Ok (value * exchange_rate)
      | Some (RateTable _) => Err TypeError
      end.

Definition convert_to_eur (value : Q) (from_currency : string)
  (exchange_rates : gmap string rate_entry) : result Q :=
  if (negb (truthy value) || Qeq_bool value 0)%bool then Ok 0
  else
    let currency_code := currency_map from_currency in
    if String.eqb currency_code "EUR" then Ok value
    else
      match exchange_rates !! "EUR_RATES" with
      | None => Ok (value * 1.0)
      | Some (RateTable eur_rates) =>
          Ok (value * default 1.0 (eur_rates !! currency_code))
      | Some (Rate _) => Err AttributeError
      end.

(** ** Performance time series *)

Definition is_leap (y : nat) : bool :=
  (Nat.eqb (y mod 4) 0
   && (negb (Nat.eqb (y mod 100) 0) || Nat.eqb (y mod 400) 0))%bool.

(** [monthrange(year, month)[1]], for a month in 1..12. *)
Definition monthrange_days (y m : nat) : nat :=
  match m with
  | 2 => if is_leap y then 29 else 28
  | 4 | 6 | 9 | 11 => 30
  | _ => 31
  end%nat.

(** The dict [compute_portfolio_performance] returns. *)
Record performance : Type := mkPerformance {
  perf_date : date;
  perf_portfolio_value : Q;
  holdings_count : nat;
  avg_pct_gain_loss : Q
}.

(** A row of the performance sheet, columns 1 to 8. *)
Record performance_row : Type := mkRow {
  row_month : nat * nat;
  row_portfolio_value : Q;
  monthly_return : Q;
  sp500_monthly_return : Q;
  outperformance : Q;
  cumulative_return : Q;
  benchmark_cumulative : Q;
  alpha : Q
}.

(** The variables the month loop of [create_performance_analysis] carries. *)
Record loop_state : Type := mkLoop {
  previous_avg_pct_gain_loss : option Q;
  previous_sp500_price : option Q;
  cumulative_factor : Q;
  benchmark_factor : Q;
  sp500_cache : gmap (nat * nat) (option Q);
  rows : list performance_row
}.

Definition initial_loop_state : loop_state :=
  mkLoop None None 1.0 1.0 ∅ [].

(** [sum(l)]: a left fold from 0. *)
Definition py_sum (l : list Q) : Q := fold_left Qplus l 0.

Definition Qlen {A : Type} (l : list A) : Q := inject_Z (Z.of_nat (length l)).

Section Performance.
(** The clock and the two price sources are outside the program:
    [datetime.now()] (its date), the [current_price] of
    [portfolio_data['real_time_data']] per symbol, and
    [get_historical_price]. *)
Variable now : date.
Variable real_time_data : gmap string (option Q).
Variable get_historical_price : string -> date -> option Q.

Definition get_sp500_price (target_date : date) : option Q :=
  get_historical_price "^GSPC" target_date.

Definition is_current_month (y m : nat) : bool :=
  (Nat.eqb y (year now) && Nat.eqb m (month now))%bool.

(** End of the month, or the current date in the current month. *)
Definition target_date_of (y m : nat) : date :=
  if is_current_month y m then now else mkDate (monthrange_days y m) m y.

(** The price lookup of the valuation loop, with its [price_cache]. *)
Definition lookup_price (use_current_prices : bool) (target_date : date)
  (price_cache : gmap string Q) (sym : string) (h : holding)
  : Q * gmap string Q :=
  let current_price :=
    if use_current_prices then mjoin (real_time_data !! sym) else None in
  let price_cache :=
    match current_price with
    | Some p => if truthy p then <[sym := p]> price_cache else price_cache
    | None => price_cache
    end in
  match current_price with
  | Some p => (p, price_cache)
  | None =>
      match price_cache !! sym with
      | Some cached => (cached, price_cache)
      | None =>
          let v := match get_historical_price sym target_date with
                   | Some hist_price => hist_price
                   | None => weighted_avg_cost h
                   end in
          (v, <[sym := v]> price_cache)
      end
  end.

(** The body of [for symbol, holding in holdings.items()]; the state is
    [(price_cache, portfolio_value, holdings_gain_loss_list)]. *)
Definition value_holding (use_current_prices : bool) (target_date : date)
  (exchange_rates : gmap string rate_entry)
  (st : gmap string Q * Q * list Q) (item : string * holding)
  : result (gmap string Q * Q * list Q) :=
  let '(price_cache, portfolio_value, holdings_gain_loss_list) := st in
  let '(sym, h) := item in
  let shares := total_shares h in
  let avg_cost := weighted_avg_cost h in
  let '(current_price, price_cache) :=
    lookup_price use_current_prices target_date price_cache sym h in
  price_usd ← convert_to_usd current_price (h_currency h) exchange_rates;
  let market_value := shares * price_usd in
  Ok (price_cache, portfolio_value + market_value,
      if Qlt_bool 0 avg_cost
      then holdings_gain_loss_list ++ [(current_price - avg_cost) / avg_cost]
      else holdings_gain_loss_list).

(** Lines 1462 to 1501 of the source repeat the loop of
    [process_transactions] and its pruning on a fresh dict; the embedding
    calls it. *)
Definition holdings_at (accounts : list account) (target_date : date)
  : result (gmap string holding) :=
  let all_transactions :=
    flat_map (fun a => filter (fun t => date_leb (tdate t) target_date = true)
                              (transactions a))
             accounts in
  process_transactions ∅ (sort_by_date tdate all_transactions).

Definition compute_portfolio_performance (accounts : list account)
  (target_month target_year : nat)
  (exchange_rates : gmap string rate_entry) : result performance :=
  let use_current_prices := is_current_month target_year target_month in
  let target_date := target_date_of target_year target_month in
  holdings ← holdings_at accounts target_date;
  '(_, portfolio_value, holdings_gain_loss_list) ←
    foldM (value_holding use_current_prices target_date exchange_rates)
          (map_to_list holdings) (∅, 0, []);
  let avg_pct_gain_loss :=
    match holdings_gain_loss_list with
    | [] => 0
    | _ => py_sum holdings_gain_loss_list / Qlen holdings_gain_loss_list
    end in
  Ok (mkPerformance target_date portfolio_value (size holdings)
                    avg_pct_gain_loss).

(** The body of [for idx, (year, month) in enumerate(months)]. *)
Definition performance_month (accounts : list account)
  (exchange_rates : gmap string rate_entry)
  (st : loop_state) (ym : nat * nat) : result loop_state :=
  let '(y, m) := ym in
  perf ← compute_portfolio_performance accounts m y exchange_rates;
  let portfolio_value := perf_portfolio_value perf in
  let avg := avg_pct_gain_loss perf in
  let target_date := target_date_of y m in
  let '(sp500_price, cache) :=
    match sp500_cache st !! (y, m) with
    | None =>
        let p := get_sp500_price target_date in
        (p, <[(y, m) := p]> (sp500_cache st))
    | Some p => (p, sp500_cache st)
    end in
  let monthly_return :=
    match previous_avg_pct_gain_loss st with
    | Some previous => avg - previous
    | None => avg
    end in
  let sp500_monthly_return :=
    match previous_sp500_price st, sp500_price with
    | Some previous, Some p =>
        if (truthy previous && Qlt_bool 0 previous && truthy p)%bool
        then (p - previous) / previous else 0
    | _, _ => 0
    end in
  let outperformance := monthly_return - sp500_monthly_return in
  let cumulative_factor := cumulative_factor st * (1 + monthly_return) in
  let benchmark_factor := benchmark_factor st * (1 + sp500_monthly_return) in
  let cumulative_return := cumulative_factor - 1 in
  let benchmark_cumulative := benchmark_factor - 1 in
  let alpha := cumulative_return - benchmark_cumulative in
  Ok (mkLoop (Some avg)
             (if truthy_opt sp500_price then sp500_price
              else previous_sp500_price st)
             cumulative_factor benchmark_factor cache
             (rows st ++ [mkRow ym portfolio_value monthly_return
                                sp500_monthly_return outperformance
                                cumulative_return benchmark_cumulative
                                alpha])).

(** The rows written for the months [months], the result of
    [get_month_range_from_transactions]. *)
Definition create_performance_analysis (accounts : list account)
  (exchange_rates : gmap string rate_entry) (months : list (nat * nat))
  : result (list performance_row) :=
  rows <$> foldM (performance_month accounts exchange_rates) months
                 initial_loop_state.
End Performance.

(** * Vocabulary of the specification

    The functions below are not translated from the source: they say, on the
    input alone, what the specification talks about, or name a notion of
    the proofs. *)

(** ** The ledger *)

Definition is_buy (t : transaction) : bool := String.eqb (lower (type t)) "buy".
Definition is_sell (t : transaction) : bool := String.eqb (lower (type t)) "sell".

(** Sum of the shares and of the cost of a queue of lots. *)
Fixpoint sum_shares (q : list lot) : Q :=
  match q with
  | [] => 0
  | l :: rest => lot_shares l + sum_shares rest
  end.

Fixpoint sum_cost (q : list lot) : Q :=
  match q with
  | [] => 0
  | l :: rest => lot_shares l * lot_price l + sum_cost rest
  end.

Definition lots_nonneg (q : list lot) : Prop :=
  Forall (fun l => 0 <= lot_shares l) q.

Definition lots_priced (q : list lot) : Prop :=
  Forall (fun l => 0 < lot_price l) q.

(** The totals of a holding are the ones [calculate_totals] gives. *)
Definition recomputed (h : holding) : Prop := calculate_totals h = h.

(** The queue of a symbol after a transaction on it. *)
Definition next_lots (t : transaction) (q : list lot) : list lot :=
  if is_buy t then q ++ [mkLot (shares t) (price t) (tdate t)]
  else if is_sell t then sell_fifo (shares t) q
  else q.

(** A holding left by a sell that took everything. *)
Definition drained (h : holding) : holding :=
  mkHolding (h_name h) [] 0 0 0 (h_sector h) (h_currency h).

(** The change of the shares of [sym] a transaction stands for. *)
Definition net_change (sym : string) (t : transaction) : Q :=
  if String.eqb (symbol t) sym then
    if is_buy t then shares t
    else if is_sell t then - shares t
    else 0
  else 0.

(** Shares of [sym] bought minus shares of [sym] sold in a ledger. *)
Fixpoint net_shares (sym : string) (txs : list transaction) : Q :=
  match txs with
  | [] => 0
  | t :: rest => net_change sym t + net_shares sym rest
  end.

(** No sell asks for more than the ledger before it holds of its symbol. *)
Fixpoint no_oversell_from (before txs : list transaction) : bool :=
  match txs with
  | [] => true
  | t :: rest =>
      ((if is_sell t
        then Qle_bool (shares t) (net_shares (symbol t) before)
        else true)
       && no_oversell_from (before ++ [t]) rest)%bool
  end.

Definition no_oversell (txs : list transaction) : bool :=
  no_oversell_from [] txs.

(** Every buy has the [name] key. *)
Definition names_present (txs : list transaction) : bool :=
  forallb (fun t => if is_buy t then bool_decide (is_Some (name t)) else true)
          txs.

(** Share counts are not negative. *)
Definition shares_nonneg (txs : list transaction) : bool :=
  forallb (fun t => Qle_bool 0 (shares t)) txs.

(** Every buy has a share count that is not negative. *)
Definition buys_nonneg (txs : list transaction) : bool :=
  forallb (fun t => if is_buy t then Qle_bool 0 (shares t) else true) txs.

(** A buy with a share count that is not negative and a positive price. *)
Definition well_priced (t : transaction) : bool :=
  if is_buy t then (Qle_bool 0 (shares t) && Qlt_bool 0 (price t))%bool
  else true.

Definition ledger_priced (accounts : list account) : bool :=
  forallb well_priced (flat_map transactions accounts).

(** The shares of [sym] in a returned mapping; a symbol that is not in the
    mapping is not held. *)
Definition shares_of (holdings : gmap string holding) (sym : string) : Q :=
  match holdings !! sym with
  | Some h => total_shares h
  | None => 0
  end.

(** ** The analyzer *)

(** A lot of the analyzer's queue without its account. *)
Definition to_lot (b : buy_lot) : lot :=
  mkLot (bl_shares b) (bl_price b) (bl_date b).

Definition date_le (a b : date) : Prop := date_leb a b = true.

(** A list of dates in chronological order. *)
Definition chronological (ds : list date) : Prop := StronglySorted date_le ds.

(** The symbols of a list in the order of their first occurrence: the key
    order of a dict filled in that order. *)
Definition order_add (s : string) (acc : list string) : list string :=
  if bool_decide (s ∈ acc) then acc else acc ++ [s].

Definition symbol_order (syms : list string) : list string :=
  fold_left (fun acc s => order_add s acc) syms [].

Definition tx_symbol (t : transaction_with_account) : string := symbol (tx t).
Definition tx_date (t : transaction_with_account) : date := tdate (tx t).
Definition tx_is_sell (t : transaction_with_account) : Prop :=
  is_sell (tx t) = true.

(** The date-sorted stream the analyzer works on. *)
Definition sorted_transactions (accounts : list account)
  : list transaction_with_account :=
  sort_by_date tx_date (collect_transactions accounts).

(** The dict a grouping by symbol must give: each symbol, in order of first
    occurrence, with its transactions in stream order. *)
Definition groups_of (l : list transaction_with_account)
  : list (string * list transaction_with_account) :=
  map (fun s => (s, filter (fun t => tx_symbol t = s) l))
      (symbol_order (map tx_symbol l)).

(** The sells of one symbol in a stream, in stream order. *)
Definition sells_of (s : string) (l : list transaction_with_account)
  : list transaction_with_account :=
  filter tx_is_sell (filter (fun t => tx_symbol t = s) l).

(** Symbol and date of a result of the analyzer. *)
Definition record_stamp (r : sell_result) : string * date :=
  (r_symbol r, sell_date r).

(** Every sell has the [currency] key. *)
Definition sells_have_currency (accounts : list account) : bool :=
  forallb (fun t => if is_sell (tx t)
                    then bool_decide (is_Some (currency (tx t))) else true)
          (collect_transactions accounts).

(** ** The performance series *)

Fixpoint Qsum (l : list Q) : Q :=
  match l with
  | [] => 0
  | x :: rest => x + Qsum rest
  end.

(** Unweighted arithmetic mean. *)
Definition mean (l : list Q) : Q := Qsum l / Qlen l.

(** [(1 + r1) * ... * (1 + rn)]. *)
Fixpoint compound (returns : list Q) : Q :=
  match returns with
  | [] => 1
  | r :: rest => (1 + r) * compound rest
  end.

(** The last close that was fetched (a close of 0 counts as not fetched,
    as in the source's truth tests). *)
Definition last_close (closes : list (option Q)) : option Q :=
  mjoin (last (filter (fun c => truthy_opt c = true) closes)).

(** Price-ratio return from a baseline to a close; 0 without a baseline or
    without a close. *)
Definition benchmark_return (baseline close : option Q) : Q :=
  match baseline, close with
  | Some b, Some p =>
      if (truthy b && Qlt_bool 0 b && truthy p)%bool then (p - b) / b else 0
  | _, _ => 0
  end.

Definition positive_cost (item : string * holding) : Prop :=
  Qlt_bool 0 (weighted_avg_cost item.2) = true.

Section PerformanceSpec.
Variable now : date.
Variable real_time_data : gmap string (option Q).
Variable get_historical_price : string -> date -> option Q.

(** The price the valuation uses for a held symbol: the real-time price in
    the current month if there is one, else the historical price at the
    cutoff, else the holding's average cost. *)
Definition held_price (use_current_prices : bool) (target_date : date)
  (item : string * holding) : Q :=
  match (if use_current_prices then mjoin (real_time_data !! item.1)
         else None) with
  | Some p => p
  | None =>
      match get_historical_price item.1 target_date with
      | Some hist_price => hist_price
      | None => weighted_avg_cost item.2
      end
  end.

(** [(current_price - weighted_avg_cost) / weighted_avg_cost]. *)
Definition gain_ratio (use_current_prices : bool) (target_date : date)
  (item : string * holding) : Q :=
  (held_price use_current_prices target_date item
   - weighted_avg_cost item.2) / weighted_avg_cost item.2.

(** The gain ratios of the symbols held at the cutoff of a month. *)
Definition month_ratios (ym : nat * nat) (holdings : gmap string holding)
  : list Q :=
  map (gain_ratio (is_current_month now ym.1 ym.2)
                  (target_date_of now ym.1 ym.2))
      (map_to_list holdings).

(** The benchmark close of a month. *)
Definition close_of (ym : nat * nat) : option Q :=
  get_sp500_price get_historical_price (target_date_of now ym.1 ym.2).

(** The [avg_pct_gain_loss] of a month. *)
Definition avg_of (accounts : list account)
  (exchange_rates : gmap string rate_entry) (ym : nat * nat) : option Q :=
  match compute_portfolio_performance now real_time_data
          get_historical_price accounts ym.2 ym.1 exchange_rates with
  | Ok perf => Some (avg_pct_gain_loss perf)
  | Err _ => None
  end.

(** Every cached benchmark close is the close of its month. *)
Definition cache_sound (st : loop_state) : Prop :=
  forall ym c, sp500_cache st !! ym = Some c -> c = close_of ym.

(** What the month loop maintains, after the months [done]. *)
Definition loop_inv (accounts : list account)
  (exchange_rates : gmap string rate_entry) (done : list (nat * nat))
  (st : loop_state) : Prop :=
  length (rows st) = length done
  /\ previous_avg_pct_gain_loss st
     = last done ≫= avg_of accounts exchange_rates
  /\ previous_sp500_price st = last_close (map close_of done)
  /\ cumulative_factor st == compound (map monthly_return (rows st))
  /\ benchmark_factor st == compound (map sp500_monthly_return (rows st))
  /\ cache_sound st
  /\ match last (rows st) with
     | Some r => cumulative_return r = cumulative_factor st - 1
                 /\ benchmark_cumulative r = benchmark_factor st - 1
     | None => cumulative_factor st = 1.0 /\ benchmark_factor st = 1.0
     end.

(** The row a month of the loop writes, from the month's performance. *)
Definition next_row (st : loop_state) (ym : nat * nat) (perf : performance)
  : performance_row :=
  let avg := avg_pct_gain_loss perf in
  let mr := match previous_avg_pct_gain_loss st with
            | Some previous => avg - previous
            | None => avg
            end in
  let br := benchmark_return (previous_sp500_price st) (close_of ym) in
  let cf := cumulative_factor st * (1 + mr) in
  let bf := benchmark_factor st * (1 + br) in
  mkRow ym (perf_portfolio_value perf) mr br (mr - br)
        (cf - 1) (bf - 1) (cf - 1 - (bf - 1)).

(** The state a month of the loop leaves. *)
Definition next_state (st : loop_state) (ym : nat * nat) (perf : performance)
  : loop_state :=
  let row := next_row st ym perf in
  mkLoop (Some (avg_pct_gain_loss perf))
         (if truthy_opt (close_of ym) then close_of ym
          else previous_sp500_price st)
         (cumulative_factor st * (1 + monthly_return row))
         (benchmark_factor st * (1 + sp500_monthly_return row))
         (match sp500_cache st !! ym with
          | None => <[ym := close_of ym]> (sp500_cache st)
          | Some _ => sp500_cache st
          end)
         (rows st ++ [row]).
End PerformanceSpec.

(** * Worked inputs *)

Definition buy (sym : string) (n p : Q) (d : date) : transaction :=
  mkTransaction sym "Buy" n p d (Some sym) (Some "$") None.

Definition sell (sym : string) (n p : Q) (d : date) (f : Q) : transaction :=
  mkTransaction sym "Sell" n p d (Some sym) (Some "$") (Some f).

(** The scenario of the specification: Buy 10 at 100 on 2024-01-05, Buy 5 at
    120 on 2024-02-10, Sell 12 at 150 with fee 5 on 2024-03-01. *)
Definition scenario : list transaction :=
  [ buy "ACME" 10 100 (mkDate 5 1 2024);
    buy "ACME" 5 120 (mkDate 10 2 2024);
    sell "ACME" 12 150 (mkDate 1 3 2024) 5 ].

(** The scenario as a portfolio of one account. *)
Definition scenario_portfolio : list account :=
  [mkAccount "Broker" "$" scenario].

(** The result the analyzer gives for the sell of the scenario. *)
Definition scenario_result : sell_result :=
  mkSellResult "ACME" (mkDate 1 3 2024) "Broker" 12 150 1800 5 1795
               (1240 / 12) 1240 555 (555 / 1240 * 100) "$".

(** A sell of 20 shares when 13 are held. *)
Definition oversell_scenario : list transaction :=
  [ buy "ACME" 13 100 (mkDate 5 1 2024);
    sell "ACME" 20 150 (mkDate 1 3 2024) 5 ].

(** Two symbols whose sells interleave in time. *)
Definition interleaved_portfolio : list account :=
  [mkAccount "Broker" "$"
     [ buy "AAA" 1 10 (mkDate 1 1 2024);
       buy "BBB" 1 10 (mkDate 2 1 2024);
       sell "BBB" 1 12 (mkDate 3 1 2024) 0;
       sell "AAA" 1 12 (mkDate 4 1 2024) 0 ]].

(** The scenario as a series: the scenario over January to March 2024, seen on
    2024-03-15, with no benchmark close for February. *)

Definition demo_now : date := mkDate 15 3 2024.

Definition demo_real_time : gmap string (option Q) :=
  <["ACME" := Some 150]> ∅.

Definition demo_history (sym : string) (d : date) : option Q :=
  if String.eqb sym "^GSPC" then
    match month d with
    | 1%nat => Some 4800
    | 2%nat => None
    | _ => Some 5000
    end
  else if String.eqb sym "ACME" then Some 110
  else None.

Definition demo_months : list (nat * nat) :=
  [(2024, 1); (2024, 2); (2024, 3)]%nat.

Definition demo_series : result (list performance_row) :=
  create_performance_analysis demo_now demo_real_time demo_history
    scenario_portfolio static_exchange_rates demo_months.

(** A buy of a negative number of shares, then a buy of one share. *)
Definition negative_buy_scenario : list transaction :=
  [ buy "ACME" (-4) 100 (mkDate 5 1 2024);
    buy "ACME" 1 50 (mkDate 6 1 2024) ].

(** A portfolio that holds a symbol bought at the price 0. *)
Definition zero_cost_portfolio : list account :=
  [mkAccount "Broker" "$"
     [ buy "ACME" 10 100 (mkDate 5 1 2024);
       buy "FREE" 10 0 (mkDate 6 1 2024) ]].

(** * Further vocabulary *)

(** ** The analyzer's records *)

(** The record the analyzer appends for a sell, from the cost basis and the
    shares processed that the sell loop returns. *)
Definition sell_record (sym : string) (t : transaction_with_account)
  (cur : string) (basis processed : Q) : sell_result :=
  let gross := shares (tx t) * price (tx t) in
  let fee := default 0 (fee (tx t)) in
  mkSellResult sym (tdate (tx t)) (tx_account t) (shares (tx t))
               (price (tx t)) gross fee (gross - fee)
               (if Qlt_bool 0 processed then basis / processed else 0)
               basis (gross - fee - basis)
               (if Qlt_bool 0 basis
                then (gross - fee - basis) / basis * 100 else 0)
               cur.

(** The amounts of a record agree with each other. *)
Definition sell_consistent (r : sell_result) : Prop :=
  gross_proceeds r = shares_sold r * sell_price r
  /\ net_proceeds r = gross_proceeds r - fees r
  /\ realized_pnl r = net_proceeds r - total_cost_basis r.

(** What the buys of a stream paid. *)
Fixpoint bought_cost (ts : list transaction_with_account) : Q :=
  match ts with
  | [] => 0
  | t :: rest =>
      (if is_buy (tx t) then shares (tx t) * price (tx t) else 0)
      + bought_cost rest
  end.

(** The queue of the analyzer and the lots of the ledger hold the same
    lots. *)
Definition in_step (q : list buy_lot) (h : holding) : Prop :=
  lots h = map to_lot q.

(** ** The ledger *)

(** The transactions of one symbol. *)
Definition of_symbol (s : string) (txs : list transaction)
  : list transaction :=
  filter (fun t => symbol t = s) txs.

(** A lot that stems from a buy of the ledger: same price and date, and no
    more shares than the buy had. *)
Definition lot_from (s : string) (txs : list transaction) (l : lot) : Prop :=
  exists t, In t txs /\ is_buy t = true /\ symbol t = s
            /\ lot_price l = price t /\ lot_date l = tdate t
            /\ lot_shares l <= shares t.

(** What a transaction makes of the holding of its symbol. *)
Definition next_holding (h : holding) (t : transaction) : result holding :=
  if is_buy t then
    nm ← subscript "name" (name t);
    Ok (calculate_totals
          (mkHolding nm (lots h ++ [mkLot (shares t) (price t) (tdate t)])
                     (total_shares h) (weighted_avg_cost h) (total_cost h)
                     (h_sector h) (default "$" (currency t))))
  else if is_sell t then
    Ok (calculate_totals (set_lots h (sell_fifo (shares t) (lots h))))
  else Ok (calculate_totals h).

(** A list that buys one symbol, is paid a dividend on a second and sells a
    third it never bought. *)
Definition unbought_scenario : list transaction :=
  [ buy "ACME" 10 100 (mkDate 5 1 2024);
    mkTransaction "DIVI" "Dividend" 0 3 (mkDate 6 1 2024) (Some "DIVI")
                  (Some "$") None;
    sell "GONE" 4 50 (mkDate 7 1 2024) 1 ].

(** A price source that has no history for any symbol. *)
Definition no_history (sym : string) (d : date) : option Q := None.

(** ** Exchange rates ([get_exchange_rates]) *)

(** The body of a response of the rate service: [response.json()], of which
    only the key ['rates'] is read. *)
Record api_data : Type := mkData {
  data_rates : option (gmap string Q)
}.

(** A response of [requests.get]: its [status_code], and what [json()]
    returns, [None] when it raises. *)
Record api_response : Type := mkResponse {
  status_code : nat;
  json : option api_data
}.

(** A statement of the [try] block: it updates the dict and says whether
    control goes on ([false]: an exception was raised; the [except] clause
    keeps the updates made so far). *)
Definition try_step : Type :=
  gmap string rate_entry -> gmap string rate_entry * bool.

Definition try_seq (a b : try_step) : try_step :=
  fun exchange_rates =>
    let '(exchange_rates', ok) := a exchange_rates in
    if ok then b exchange_rates' else (exchange_rates', false).

Definition try_raise : try_step := fun exchange_rates => (exchange_rates, false).
Definition try_pass : try_step := fun exchange_rates => (exchange_rates, true).

(** [if src in rates: exchange_rates[dst] = 1.0 / rates[src]]; the division
    raises [ZeroDivisionError] on a rate of 0. *)
Definition set_inverse (src dst : string) (rates : gmap string Q) : try_step :=
  fun exchange_rates =>
    match rates !! src with
    | None => (exchange_rates, true)
    | Some r =>
        if Qeq_bool r 0 then (exchange_rates, false)
        else (<[dst := Rate (1.0 / r)]> exchange_rates, true)
    end.

(** [if key in rates_eur: eur_rates[key] = 1.0 / rates_eur[key]], on the
    local dict [eur_rates]; [None] when the division raises. *)
Definition put_inverse (key : string) (rates eur_rates : gmap string Q)
  : option (gmap string Q) :=
  match rates !! key with
  | None => Some eur_rates
  | Some r =>
      if Qeq_bool r 0 then None else Some (<[key := 1.0 / r]> eur_rates)
  end.

(** Lines 188 to 201: the USD-based rates.  [None] for the response stands
    for a [requests.get] that raises. *)
Definition fetch_usd_rates (response_usd : option api_response) : try_step :=
  match response_usd with
  | None => try_raise
  | Some response =>
      if Nat.eqb (status_code response) 200 then
        match json response with
        | None => try_raise
        | Some data_usd =>
            let rates_usd := default ∅ (data_rates data_usd) in
            try_seq (set_inverse "EUR" "EUR" rates_usd)
              (try_seq (set_inverse "RON" "RON" rates_usd)
                 (try_seq (set_inverse "GBP" "£" rates_usd)
                    (set_inverse "JPY" "¥" rates_usd)))
        end
      else try_pass
  end.

(** Lines 204 to 221: the EUR-based rates, built in a local dict that is
    stored under ['EUR_RATES'] at the end. *)
Definition fetch_eur_rates (response_eur : option api_response) : try_step :=
  match response_eur with
  | None => try_raise
  | Some response =>
      if Nat.eqb (status_code response) 200 then
        match json response with
        | None => try_raise
        | Some data_eur =>
            let rates_eur := default ∅ (data_rates data_eur) in
            fun exchange_rates =>
              match
                eur_rates ← put_inverse "USD" rates_eur ∅;
                eur_rates ← put_inverse "RON" rates_eur eur_rates;
                eur_rates ← put_inverse "GBP" rates_eur eur_rates;
                put_inverse "JPY" rates_eur eur_rates
              with
              | None => (exchange_rates, false)
              | Some eur_rates =>
                  (<["EUR_RATES" := RateTable (<["EUR" := 1.0]> eur_rates)]>
                     exchange_rates, true)
              end
        end
      else try_pass
  end.

(** [get_exchange_rates].  What is outside the program is an argument: the
    flag [CURRENCY_API_AVAILABLE] and the responses of the two requests.
    The [print]s after line 221 may raise (a [KeyError] on a rate the
    response did not have), but they leave the dict as it is, as does the
    [except] clause. *)
Definition get_exchange_rates (currency_api_available : bool)
  (response_usd response_eur : option api_response)
  : gmap string rate_entry :=
  if negb currency_api_available then static_exchange_rates
  else
    (try_seq (fetch_usd_rates response_usd) (fetch_eur_rates response_eur)
       static_exchange_rates).1.

(** The keys of the [exchange_rates] dict. *)
Definition rate_keys : list string :=
  ["USD"; "EUR"; "RON"; "£"; "¥"; "EUR_RATES"].

(** An [exchange_rates] dict of the shape the converters read: a nested dict
    under ['EUR_RATES'] and nowhere else. *)
Definition rates_shaped (exchange_rates : gmap string rate_entry) : Prop :=
  (forall k, is_Some (exchange_rates !! k) <-> In k rate_keys)
  /\ exchange_rates !! "USD" = Some (Rate 1.0)
  /\ (forall k, k <> "EUR_RATES" -> In k rate_keys ->
        exists r, exchange_rates !! k = Some (Rate r))
  /\ exists eur_rates,
       exchange_rates !! "EUR_RATES" = Some (RateTable eur_rates)
       /\ eur_rates !! "EUR" = Some 1.0.

(** A response with status 200 and the given rates. *)
Definition live (rates : gmap string Q) : option api_response :=
  Some (mkResponse 200 (Some (mkData (Some rates)))).

(** Responses to try the rates on: a USD response that has the euro and a
    leu rate of 0, and a EUR response without the leu. *)
Definition demo_usd_response : option api_response :=
  live (<["EUR" := 0.8]> (<["RON" := 0]> (<["GBP" := 0.5]> ∅))).

Definition demo_eur_response : option api_response :=
  live (<["USD" := 1.25]> (<["GBP" := 0.8]> ∅)).

(** ** The months of the series ([get_month_range_from_transactions]) *)

(** [a < b] on [datetime] values. *)
Definition date_ltb (a b : date) : bool := negb (date_leb b a).

(** The body of the loops that look for the oldest transaction date. *)
Definition oldest_step (oldest_date : option date) (t : transaction)
  : option date :=
  match oldest_date with
  | None => Some (tdate t)
  | Some d => if date_ltb (tdate t) d then Some (tdate t) else oldest_date
  end.

(** Lines 1563 to 1572: the oldest date of the transactions of all the
    accounts, [None] when there is none. *)
Definition find_oldest_date (accounts : list account) : option date :=
  fold_left oldest_step (flat_map transactions accounts) None.

(** The [while] loop that lists the months, with the iterations left to it;
    [None] when they run out. *)
Fixpoint month_loop (fuel : nat) (current_date : date) (y m : nat)
  (months : list (nat * nat)) : option (list (nat * nat)) :=
  match fuel with
  | O => None
  | S fuel =>
      if (Nat.ltb y (year current_date)
          || (Nat.eqb y (year current_date)
              && Nat.leb m (month current_date)))%bool
      then
        let months := months ++ [(y, m)] in
        let m := (m + 1)%nat in
        if Nat.ltb 12 m then month_loop fuel current_date (y + 1) 1 months
        else month_loop fuel current_date y m months
      else Some months
  end.

(** Iterations that are enough for the loop started at [(y, m)]. *)
Definition month_loop_fuel (current_date : date) (y m : nat) : nat :=
  (12 * (year current_date + 1 - y) + (12 - m) + 1)%nat.

Definition get_month_range_from_transactions (now : date)
  (accounts : list account) : option (list (nat * nat)) :=
  match find_oldest_date accounts with
  | None => Some []
  | Some oldest_date =>
      month_loop (month_loop_fuel now (year oldest_date) (month oldest_date))
                 now (year oldest_date) (month oldest_date) []
  end.

(** Months counted from year 0: the number of a month and the month of a
    number. *)
Definition month_number (d : date) : nat := (12 * year d + (month d - 1))%nat.

Definition nth_month (k : nat) : nat * nat := (k / 12, k mod 12 + 1)%nat.

(** The months from the month of [d], up to the month of [current_date]. *)
Definition months_from (d current_date : date) : list (nat * nat) :=
  map nth_month
      (seq (month_number d)
           (12 * year current_date + month current_date - month_number d)).

(** A month of the calendar. *)
Definition month_valid (d : date) : Prop := (1 <= month d <= 12)%nat.

(** Two accounts, the second with the older transaction. *)
Definition two_accounts : list account :=
  [ mkAccount "Broker" "$" [buy "ACME" 10 100 (mkDate 5 1 2024)];
    mkAccount "Bank" "€" [buy "BETA" 2 40 (mkDate 20 11 2023);
                          sell "BETA" 1 50 (mkDate 3 2 2024) 0] ].

From Stdlib Require Import Qabs.

(** ** Market data and asset classes *)

(** What [get_stock_info_yfinance] returns for a symbol: the keys that the
    functions below read.  A quote type, a country or a dividend yield that
    is [None] or not of the expected type (['N/A']) is [None]. *)
Record stock_info : Type := mkStockInfo {
  si_company_name : string;
  si_country : option string;
  si_current_price : Q;
  si_dividend_yield : option Q;
  si_sector : string;
  si_quote_type : option string
}.

Definition get_asset_class (quote_type country : option string) : string :=
  match quote_type with
  | None => "Unknown"
  | Some qt =>
      if (String.eqb qt "" || String.eqb qt "N/A")%bool then "Unknown"
      else if String.eqb qt "EQUITY" then
        if bool_decide (country = Some "United States") then "US Stocks"
        else if bool_decide (country = Some "Romania") then "Romanian Stocks"
        else "International Stocks"
      else if String.eqb qt "ETF" then "ETF"
      else if String.eqb qt "CRYPTOCURRENCY" then "Crypto"
      else "Unknown"
  end.

(** The enrichment of [load_portfolio_data] adds its keys to a holding all
    together or not at all; of them the sheets below read [current_price],
    [company_name] and [asset_class] ([data_source] is always
    ['yfinance']). *)
Record market_fields : Type := mkMarketFields {
  mf_current_price : Q;
  mf_company_name : string;
  mf_asset_class : string
}.

(** A holding of [portfolio_data]: the holding of the ledger, the keys of
    the enrichment when it has them, and [original_currency] once
    converted. *)
Record portfolio_holding : Type := mkPortfolioHolding {
  ph_holding : holding;
  ph_market : option market_fields;
  ph_original_currency : option string
}.

(** ** Loading the portfolio ([load_portfolio_data]) *)

(** An account object of the JSON file, with the defaults of its [.get]s
    filled in. *)
Record json_account : Type := mkJsonAccount {
  ja_account_name : string;
  ja_transactions : list transaction;
  ja_cash : Q;
  ja_currency : string
}.

(** The JSON file: its accounts, the symbols of its watchlist and its
    target allocation, in percent per asset class. *)
Record portfolio_json : Type := mkPortfolioJson {
  pj_accounts : list json_account;
  pj_watchlist : list string;
  pj_target_asset_class_distribution : gmap string Q
}.

(** A value of [portfolio_data['accounts']]. *)
Record account_data : Type := mkAccountData {
  ad_transactions : list transaction;
  ad_cash : Q;
  ad_currency : string;
  ad_holdings : gmap string portfolio_holding
}.

(** The dict [load_portfolio_data] returns, but for [updated_at]. *)
Record portfolio_data : Type := mkPortfolioData {
  pd_transactions : list transaction;
  pd_holdings : gmap string portfolio_holding;
  pd_accounts : list (string * account_data);
  pd_watchlist : list string;
  pd_real_time_data : gmap string stock_info;
  pd_exchange_rates : gmap string rate_entry;
  pd_target_asset_class_distribution : gmap string Q
}.

(** What is outside the program: whether [yfinance] and [requests] could be
    imported, what [get_stock_info_yfinance] returns for a symbol, and the
    responses of the rate service. *)
Record services : Type := mkServices {
  sv_yfinance_available : bool;
  sv_stock_info : string -> option stock_info;
  sv_currency_api_available : bool;
  sv_response_usd : option api_response;
  sv_response_eur : option api_response
}.

(** [d[k] = v] on a dict kept in insertion order: a key that is there keeps
    its place. *)
Definition dict_set {V : Type} (k : string) (v : V) (d : list (string * V))
  : list (string * V) :=
  if bool_decide (k ∈ d.*1)
  then map (fun kv => if bool_decide (kv.1 = k) then (k, v) else kv) d
  else d ++ [(k, v)].

(** A loop that builds a list and whose body may raise. *)
Fixpoint mapM {A B : Type} (f : A -> result B) (l : list A) : result (list B) :=
  match l with
  | [] => Ok []
  | x :: rest => y ← f x; ys ← mapM f rest; Ok (y :: ys)
  end.

(** [get_multiple_stocks_info]: the symbols for which there is data. *)
Definition get_multiple_stocks_info (sv : services) (symbols : gset string)
  : gmap string stock_info :=
  if sv_yfinance_available sv
  then map_imap (fun s _ => sv_stock_info sv s) (gset_to_gmap tt symbols)
  else ∅.

(** Lines 477 to 488: the enrichment of one holding. *)
Definition enrich (real_time_data : gmap string stock_info) (sym : string)
  (h : holding) : portfolio_holding :=
  match real_time_data !! sym with
  | Some rt_data =>
      mkPortfolioHolding
        (mkHolding (h_name h) (lots h) (total_shares h) (weighted_avg_cost h)
                   (total_cost h) (si_sector rt_data) (h_currency h))
        (Some (mkMarketFields (si_current_price rt_data)
                              (si_company_name rt_data)
                              (get_asset_class (si_quote_type rt_data)
                                               (si_country rt_data))))
        None
  | None => mkPortfolioHolding h None None
  end.

(** Lines 476 to 504: the enrichment of the holdings of a dict. *)
Definition enrich_all (real_time_data : gmap string stock_info)
  (holdings : gmap string holding) : gmap string portfolio_holding :=
  map_imap (fun s h => Some (enrich real_time_data s h)) holdings.

(** [load_portfolio_data], from the parsed JSON file on. *)
Definition load_portfolio_data (sv : services) (data : portfolio_json)
  : result portfolio_data :=
  let accounts_data :=
    fold_left (fun d a => dict_set (ja_account_name a) a d)
              (pj_accounts data) [] in
  let all_transactions := flat_map ja_transactions (pj_accounts data) in
  accounts_data ←
    mapM (fun kv : string * json_account =>
            holdings ← process_transactions ∅ (ja_transactions kv.2);
            Ok (kv.1, (kv.2, holdings)))
         accounts_data;
  let all_transactions := sort_by_date tdate all_transactions in
  global_holdings_data ← process_transactions ∅ all_transactions;
  let all_symbols : gset string :=
    dom global_holdings_data
    ∪ ⋃ (map (fun kv : string * (json_account * gmap string holding) =>
               dom kv.2.2) accounts_data)
    ∪ list_to_set (pj_watchlist data) in
  let real_time_data := get_multiple_stocks_info sv all_symbols in
  Ok (mkPortfolioData
        all_transactions
        (enrich_all real_time_data global_holdings_data)
        (map (fun kv : string * (json_account * gmap string holding) =>
                (kv.1, mkAccountData (ja_transactions kv.2.1)
                                     (ja_cash kv.2.1) (ja_currency kv.2.1)
                                     (enrich_all real_time_data kv.2.2)))
             accounts_data)
        (pj_watchlist data)
        real_time_data
        (get_exchange_rates (sv_currency_api_available sv)
                            (sv_response_usd sv) (sv_response_eur sv))
        (pj_target_asset_class_distribution data)).

(** ** Converted holdings *)

(** The body of the loop of [create_global_holdings_with_usd_conversion] and
    of its EUR twin: [convert] is [convert_to_usd] or [convert_to_eur],
    [target] is ['$'] or ['€']. *)
Definition convert_holding
  (convert : Q -> string -> gmap string rate_entry -> result Q)
  (target : string) (exchange_rates : gmap string rate_entry)
  (data : portfolio_holding) : result portfolio_holding :=
  let h := ph_holding data in
  let original_currency := h_currency h in
  wac ← convert (weighted_avg_cost h) original_currency exchange_rates;
  market ←
    match ph_market data with
    | Some m =>
        p ← convert (mf_current_price m) original_currency exchange_rates;
        Ok (Some (mkMarketFields p (mf_company_name m) (mf_asset_class m)))
    | None => Ok None
    end;
  Ok (mkPortfolioHolding
        (mkHolding (h_name h) (lots h) (total_shares h) wac
                   (total_shares h * wac) (h_sector h) target)
        market (Some original_currency)).

(** An iteration of the loop: [converted[symbol] = data]. *)
Definition convert_step
  (convert : Q -> string -> gmap string rate_entry -> result Q)
  (target : string) (exchange_rates : gmap string rate_entry)
  (converted : gmap string portfolio_holding)
  (item : string * portfolio_holding)
  : result (gmap string portfolio_holding) :=
  data ← convert_holding convert target exchange_rates item.2;
  Ok (<[item.1 := data]> converted).

Definition convert_holdings
  (convert : Q -> string -> gmap string rate_entry -> result Q)
  (target : string) (global_holdings_data : gmap string portfolio_holding)
  (exchange_rates : gmap string rate_entry)
  : result (gmap string portfolio_holding) :=
  foldM (convert_step convert target exchange_rates)
        (map_to_list global_holdings_data) ∅.

Definition create_global_holdings_with_usd_conversion :=
  convert_holdings convert_to_usd "$".

Definition create_global_holdings_with_eur_conversion :=
  convert_holdings convert_to_eur "€".

(** ** The overview sheet ([create_portfolio_overview]) *)

(** [sorted(...)] on strings, and [list.sort(key=...)] with a string key: a
    stable insertion sort by the order of code points. *)
Section SortByString.
Context {A : Type} (key : A -> string).

Fixpoint insert_by_string (x : A) (l : list A) : list A :=
  match l with
  | [] => [x]
  | y :: rest =>
      if String.leb (key x) (key y) then x :: y :: rest
      else y :: insert_by_string x rest
  end.

Fixpoint sort_by_string (l : list A) : list A :=
  match l with
  | [] => []
  | x :: rest => insert_by_string x (sort_by_string rest)
  end.
End SortByString.

(** The text of the column Action Required. *)
Inductive action : Type :=
| SellAmount (amount : Q)
| BuyAmount (amount : Q)
| NoActionNeeded.

(** A row of the overview sheet, columns 1 to 7. *)
Record overview_row : Type := mkOverviewRow {
  ov_asset_class : string;
  ov_current_pct : Q;
  ov_target_pct : Q;
  ov_current_value : Q;
  ov_target_value : Q;
  ov_difference : Q;
  ov_action : action
}.

(** [holding.get('asset_class', default)]. *)
Definition asset_class_or (default_class : string) (data : portfolio_holding)
  : string :=
  match ph_market data with
  | Some m => mf_asset_class m
  | None => default_class
  end.

(** The body of the loop over [global_usd_holdings]; the state is
    [(asset_class_values, total_portfolio_value)]. *)
Definition add_market_value (st : gmap string Q * Q)
  (item : string * portfolio_holding) : gmap string Q * Q :=
  let '(asset_class_values, total_portfolio_value) := st in
  let holding := item.2 in
  let asset_class := asset_class_or "US Stocks" holding in
  let current_price :=
    match ph_market holding with
    | Some m => mf_current_price m
    | None => weighted_avg_cost (ph_holding holding)
    end in
  let market_value := total_shares (ph_holding holding) * current_price in
  (<[asset_class := default 0 (asset_class_values !! asset_class)
                    + market_value]> asset_class_values,
   total_portfolio_value + market_value).

(** The body of the loop over the accounts that adds up the cash. *)
Definition add_cash (exchange_rates : gmap string rate_entry)
  (total_cash_usd : Q) (item : string * account_data) : result Q :=
  if Qlt_bool 0 (ad_cash item.2) then
    cash_usd ← convert_to_usd (ad_cash item.2) (ad_currency item.2)
                              exchange_rates;
    Ok (total_cash_usd + cash_usd)
  else Ok total_cash_usd.

(** The body of the loop that writes the rows. *)
Definition overview_row_of (asset_class_values : gmap string Q)
  (total_portfolio_value : Q) (target_allocations : gmap string Q)
  (asset_class : string) : overview_row :=
  let current_value := default 0 (asset_class_values !! asset_class) in
  let current_pct :=
    if Qlt_bool 0 total_portfolio_value
    then current_value / total_portfolio_value else 0 in
  let target_pct := default 0 (target_allocations !! asset_class) / 100 in
  let target_value := target_pct * total_portfolio_value in
  let difference := current_value - target_value in
  let action :=
    if Qlt_bool 1000 (Qabs difference) then
      if Qlt_bool 0 difference then SellAmount (Qabs difference)
      else BuyAmount (Qabs difference)
    else NoActionNeeded in
  mkOverviewRow asset_class current_pct target_pct current_value target_value
                difference action.

(** The table of the overview: the conversion of the holdings to USD, the
    value of each asset class, the cash, and the rows the loop writes
    (lines 1796 to 1914), one [overview_row] for each asset class in sorted
    order.  The value is the rows of columns 1 to 7; an error is the
    exception a conversion raises.  What the function does after the rows
    (lines 1916 to 1994: the helper columns, the two charts, the
    conditional formatting of [F2:F{data_end_row}] and the column widths)
    is calls of the workbook library on the sheet and is not part of this
    definition, so an [Ok] here says that the rows are written, not that
    those calls succeed. *)
Definition create_portfolio_overview (portfolio : portfolio_data)
  : result (list overview_row) :=
  let asset_classes_in_portfolio : gset string :=
    list_to_set (map (fun item : string * portfolio_holding =>
                        asset_class_or "US Stocks" item.2)
                     (map_to_list (pd_holdings portfolio))) in
  let exchange_rates := pd_exchange_rates portfolio in
  global_usd_holdings ←
    create_global_holdings_with_usd_conversion (pd_holdings portfolio)
                                               exchange_rates;
  let '(asset_class_values, total_portfolio_value) :=
    fold_left add_market_value (map_to_list global_usd_holdings) (∅, 0) in
  total_cash_usd ← foldM (add_cash exchange_rates) (pd_accounts portfolio) 0;
  let '(asset_class_values, total_portfolio_value,
        asset_classes_in_portfolio) :=
    if Qlt_bool 0 total_cash_usd
    then (<["Cash" := total_cash_usd]> asset_class_values,
          total_portfolio_value + total_cash_usd,
          asset_classes_in_portfolio ∪ {["Cash"]})
    else (asset_class_values, total_portfolio_value,
          asset_classes_in_portfolio) in
  Ok (map (overview_row_of asset_class_values total_portfolio_value
             (pd_target_asset_class_distribution portfolio))
          (sort_by_string id (elements asset_classes_in_portfolio))).

(** [data_end_row = current_row + len(sorted_asset_classes) - 1], with
    [current_row = 2]: the last row of the table, which the charts and the
    conditional formatting take as the end of their ranges. *)
Definition data_end_row (rows : list overview_row) : Z :=
  (2 + Z.of_nat (List.length rows) - 1)%Z.

(** ** The dividend sheet ([create_dividend_tracker]) *)

Record dividend_row : Type := mkDividendRow {
  dv_symbol : string;
  dv_company_name : string;
  dv_shares : Q;
  dv_current_price : Q;
  dv_annual_dividend : Q;
  dv_dividend_yield : Q;
  dv_currency : string
}.

Definition stock_asset_classes : list string :=
  ["US Stocks"; "Romanian Stocks"; "International Stocks"].

(** Lines 1207 to 1245: the row of a holding, when it is a stock. *)
Definition dividend_row_of (real_time_data : gmap string stock_info)
  (item : string * portfolio_holding) : option dividend_row :=
  let '(sym, holding) := item in
  let asset_class := asset_class_or "Unknown" holding in
  if bool_decide (asset_class ∈ stock_asset_classes) then
    let company_name :=
      match ph_market holding with
      | Some m => mf_company_name m
      | None => h_name (ph_holding holding)
      end in
    let shares := total_shares (ph_holding holding) in
    let currency := h_currency (ph_holding holding) in
    match real_time_data !! sym with
    | Some rt_data =>
        let current_price := si_current_price rt_data in
        let dividend_yield :=
          match si_dividend_yield rt_data with
          | Some y => if truthy y then y else 0
          | None => 0
          end in
        let annual_dividend :=
          if truthy dividend_yield then current_price * dividend_yield
          else 0 in
        Some (mkDividendRow sym company_name shares current_price
                            annual_dividend dividend_yield currency)
    | None =>
        Some (mkDividendRow sym company_name shares
                            (weighted_avg_cost (ph_holding holding)) 0 0
                            currency)
    end
  else None.

(** The rows of the dividend sheet, sorted by symbol. *)
Definition create_dividend_tracker (portfolio : portfolio_data)
  : list dividend_row :=
  sort_by_string dv_symbol
    (omap (dividend_row_of (pd_real_time_data portfolio))
          (map_to_list (pd_holdings portfolio))).

(** ** The transactions sheet ([create_transactions_history]) *)

(** [list.sort(key=..., reverse=True)]: newest first, and stable: of two
    elements with equal keys the one that came first stays first. *)
Section StableSortReverse.
Context {A : Type} (key : A -> date).

Fixpoint insert_sorted_reverse (x : A) (l : list A) : list A :=
  match l with
  | [] => [x]
  | y :: rest =>
      if date_leb (key y) (key x) then x :: y :: rest
      else y :: insert_sorted_reverse x rest
  end.

Fixpoint sort_by_date_reverse (l : list A) : list A :=
  match l with
  | [] => []
  | x :: rest => insert_sorted_reverse x (sort_by_date_reverse rest)
  end.
End StableSortReverse.

(** Dates can be compared for equality. *)
#[global] Instance date_eq_dec : EqDecision date.
Proof. solve_decision. Defined.

(** [str.upper] on the letters of a string. *)
Definition upper_ascii (c : ascii) : ascii :=
  let n := nat_of_ascii c in
  if (Nat.leb 97 n && Nat.leb n 122)%bool then ascii_of_nat (n - 32) else c.

Fixpoint upper (s : string) : string :=
  match s with
  | EmptyString => EmptyString
  | String c rest => String (upper_ascii c) (upper rest)
  end.

(** The values written in a row of the transactions sheet (the columns
    Total Amount and Net Amount hold formulas). *)
Record history_row : Type := mkHistoryRow {
  hr_date : date;
  hr_type : string;
  hr_symbol : string;
  hr_name : string;
  hr_shares : Q;
  hr_price : Q;
  hr_fees : Q
}.

(** The body of the loop over the transactions: [transaction['fee']] and
    [transaction['name']] are read by subscript. *)
Definition history_row_of (t : transaction) : result history_row :=
  fees ← subscript "fee" (fee t);
  nm ← subscript "name" (name t);
  Ok (mkHistoryRow (tdate t) (upper (type t)) (symbol t) nm (shares t)
                   (price t) fees).

Definition create_transactions_history (transactions_list : list transaction)
  : result (list history_row) :=
  mapM history_row_of (sort_by_date_reverse tdate transactions_list).

(** ** Vocabulary for the portfolio *)

(** The shares of [sym] in the holdings of a portfolio; a symbol that is
    not there is not held. *)
Definition held_shares (holdings : gmap string portfolio_holding)
  (sym : string) : Q :=
  match holdings !! sym with
  | Some data => total_shares (ph_holding data)
  | None => 0
  end.

(** A JSON file of two accounts and a watchlist. *)
Definition demo_json : portfolio_json :=
  mkPortfolioJson
    [ mkJsonAccount "Broker" [ buy "ACME" 10 100 (mkDate 5 1 2024);
                               buy "FUND" 3 50 (mkDate 6 1 2024);
                               sell "ACME" 4 120 (mkDate 1 3 2024) 1 ]
                    500 "$";
      mkJsonAccount "Bank" [ buy "ACME" 2 90 (mkDate 20 11 2023);
                             buy "COIN" 1 2000 (mkDate 2 2 2024);
                             buy "LOST" 5 10 (mkDate 3 2 2024) ]
                    0 "€" ]
    ["WISH"]
    (<["US Stocks" := 60]> (<["ETF" := 30]> (<["Cash" := 10]> ∅))).

(** Market data for the symbols of [demo_json], but for one of them. *)
Definition demo_stock_info (sym : string) : option stock_info :=
  if String.eqb sym "ACME" then
    Some (mkStockInfo "Acme Corp" (Some "United States") 150 (Some 0.02)
                      "Industrials" (Some "EQUITY"))
  else if String.eqb sym "FUND" then
    Some (mkStockInfo "Fund" None 60 None "N/A" (Some "ETF"))
  else if String.eqb sym "COIN" then
    Some (mkStockInfo "Coin" None 3000 None "N/A" (Some "CRYPTOCURRENCY"))
  else None.

Definition demo_services : services :=
  mkServices true demo_stock_info true demo_usd_response demo_eur_response.

(** The sum of the values of a dict of amounts. *)
Definition values_sum (m : gmap string Q) : Q :=
  Qsum (map snd (map_to_list m)).

(** The asset classes [get_asset_class] can return. *)
Definition asset_classes : list string :=
  ["Unknown"; "US Stocks"; "Romanian Stocks"; "International Stocks"; "ETF";
   "Crypto"].

(** The rate [convert_to_usd] applies to a currency, and the rate
    [convert_to_eur] applies. *)
Definition usd_rate (exchange_rates : gmap string rate_entry) (c : string)
  : Q :=
  if String.eqb (currency_map c) "USD" then 1
  else match exchange_rates !! currency_map c with
       | Some (Rate r) => r
       | _ => 1
       end.

Definition eur_rate (exchange_rates : gmap string rate_entry) (c : string)
  : Q :=
  if String.eqb (currency_map c) "EUR" then 1
  else match exchange_rates !! "EUR_RATES" with
       | Some (RateTable eur_rates) => default 1 (eur_rates !! currency_map c)
       | _ => 1
       end.

(** A converted holding [u] is the holding [d] at the rate [rate], in the
    currency [target]. *)
Definition converted_at (rate : Q) (target : string)
  (d u : portfolio_holding) : Prop :=
  h_currency (ph_holding u) = target
  /\ ph_original_currency u = Some (h_currency (ph_holding d))
  /\ total_shares (ph_holding u) = total_shares (ph_holding d)
  /\ lots (ph_holding u) = lots (ph_holding d)
  /\ weighted_avg_cost (ph_holding u)
     == weighted_avg_cost (ph_holding d) * rate
  /\ total_cost (ph_holding u) == total_cost (ph_holding d) * rate
  /\ match ph_market d, ph_market u with
     | Some m, Some m' =>
         mf_current_price m' == mf_current_price m * rate
         /\ mf_asset_class m' = mf_asset_class m
     | None, None => True
     | _, _ => False
     end.

(** The account of the file that the dict of accounts keeps under a name:
    the last one with that name. *)
Definition last_named (accounts : list json_account) (n : string)
  : option json_account :=
  last (filter (fun a => ja_account_name a = n) accounts).

(** A JSON file with two accounts of the same name. *)
Definition twin_json : portfolio_json :=
  mkPortfolioJson
    [ mkJsonAccount "Broker" [buy "ACME" 10 100 (mkDate 5 1 2024)] 500 "$";
      mkJsonAccount "Broker" [buy "BETA" 2 40 (mkDate 6 1 2024)] 0 "€" ]
    [] ∅.

(** * Proofs *)

(** ** Booleans and rationals *)

Lemma Qlt_bool_true (x y : Q) : Qlt_bool x y = true <-> x < y.
Proof.
  unfold Qlt_bool. rewrite negb_true_iff. split.
  - intros H. apply Qnot_le_lt. intros Hle.
    apply Qle_bool_iff in Hle. congruence.
  - intros H. destruct (Qle_bool y x) eqn:E; [|reflexivity].
    apply Qle_bool_iff in E. lra.
Qed.

Lemma Qlt_bool_false (x y : Q) : Qlt_bool x y = false <-> y <= x.
Proof.
  unfold Qlt_bool. rewrite negb_false_iff. apply Qle_bool_iff.
Qed.

Lemma Qle_bool_false (x y : Q) : Qle_bool x y = false <-> y < x.
Proof.
  split.
  - intros H. apply Qnot_le_lt. intros Hle.
    apply Qle_bool_iff in Hle. congruence.
  - intros H. destruct (Qle_bool x y) eqn:E; [|reflexivity].
    apply Qle_bool_iff in E. lra.
Qed.

Lemma truthy_false (x : Q) : truthy x = false <-> x == 0.
Proof.
  unfold truthy. rewrite negb_false_iff. apply Qeq_bool_iff.
Qed.

Ltac qbool :=
  repeat match goal with
  | H : Qlt_bool _ _ = true |- _ => apply Qlt_bool_true in H
  | H : Qlt_bool _ _ = false |- _ => apply Qlt_bool_false in H
  | H : Qle_bool _ _ = true |- _ => apply Qle_bool_iff in H
  | H : Qle_bool _ _ = false |- _ => apply Qle_bool_false in H
  | H : Qeq_bool _ _ = true |- _ => apply Qeq_bool_iff in H
  | H : Qeq_bool _ _ = false |- _ => apply Qeq_bool_neq in H
  end.

(** ** The error monad *)

Lemma foldM_cons {S A : Type} (body : S -> A -> result S) (x : A)
  (xs : list A) (s : S) :
  foldM body (x :: xs) s = body s x ≫= foldM body xs.
Proof. reflexivity. Qed.

Lemma bind_Ok {A B : Type} (a : A) (k : A -> result B) : Ok a ≫= k = k a.
Proof. reflexivity. Qed.

Lemma foldM_app {S A : Type} (body : S -> A -> result S) (xs ys : list A)
  (s : S) :
  foldM body (xs ++ ys) s = foldM body xs s ≫= foldM body ys.
Proof.
  revert s. induction xs as [|x xs IH]; intros s; simpl; [reflexivity|].
  destruct (body s x) as [s'|e]; simpl; [apply IH|reflexivity].
Qed.

Lemma foldM_snoc_Ok {S A : Type} (body : S -> A -> result S) (xs : list A)
  (x : A) (s s' : S) :
  foldM body (xs ++ [x]) s = Ok s' ->
  exists s1, foldM body xs s = Ok s1 /\ body s1 x = Ok s'.
Proof.
  rewrite foldM_app. destruct (foldM body xs s) as [s1|e]; simpl; [|discriminate].
  intros H. exists s1. split; [reflexivity|].
  destruct (body s1 x) as [s2|e]; simpl in H; [assumption|discriminate].
Qed.

Lemma foldM_total {S A : Type} (body : S -> A -> result S) (ok : A -> Prop)
  (xs : list A) :
  (forall s x, ok x -> exists s', body s x = Ok s') ->
  Forall ok xs -> forall s, exists s', foldM body xs s = Ok s'.
Proof.
  intros Hbody Hxs. induction Hxs as [|x xs Hx _ IH]; intros s; simpl.
  - exists s. reflexivity.
  - destruct (Hbody s x Hx) as [s1 E]. rewrite E. simpl. apply IH.
Qed.

(** ** Sums over a queue of lots *)

Lemma fold_left_shares (q : list lot) (a : Q) :
  fold_left (fun acc l => acc + lot_shares l) q a == a + sum_shares q.
Proof.
  revert a. induction q as [|l q IH]; intros a; simpl.
  - ring.
  - rewrite IH. ring.
Qed.

Lemma fold_left_cost (q : list lot) (a : Q) :
  fold_left (fun acc l => acc + lot_shares l * lot_price l) q a
  == a + sum_cost q.
Proof.
  revert a. induction q as [|l q IH]; intros a; simpl.
  - ring.
  - rewrite IH. ring.
Qed.

Lemma sum_shares_app (q1 q2 : list lot) :
  sum_shares (q1 ++ q2) == sum_shares q1 + sum_shares q2.
Proof.
  induction q1 as [|l q1 IH]; simpl; [ring|]. rewrite IH. ring.
Qed.

Lemma sum_shares_nonneg (q : list lot) : lots_nonneg q -> 0 <= sum_shares q.
Proof.
  induction 1 as [|l q Hl _ IH]; simpl; lra.
Qed.

Lemma sum_cost_zero (q : list lot) :
  lots_nonneg q -> sum_shares q == 0 -> sum_cost q == 0.
Proof.
  induction 1 as [|l q Hl Hq IH]; simpl; intros Hsum; [reflexivity|].
  pose proof (sum_shares_nonneg q Hq) as Hnn.
  assert (Hl0 : lot_shares l == 0) by lra.
  assert (Hq0 : sum_shares q == 0) by lra.
  rewrite (IH Hq0), Hl0. ring.
Qed.

(** ** The sell loop *)

Lemma sell_fifo_pop (r : Q) (l : lot) (rest : list lot) :
  0 < r -> lot_shares l <= r ->
  sell_fifo r (l :: rest) = sell_fifo (r - lot_shares l) rest.
Proof.
  intros Hr Hl. simpl.
  apply Qlt_bool_true in Hr. apply Qle_bool_iff in Hl.
  rewrite Hr, Hl. reflexivity.
Qed.

Lemma sell_fifo_split (r : Q) (l : lot) (rest : list lot) :
  0 < r -> r < lot_shares l ->
  sell_fifo r (l :: rest)
  = mkLot (lot_shares l - r) (lot_price l) (lot_date l) :: rest.
Proof.
  intros Hr Hl. simpl.
  apply Qlt_bool_true in Hr. apply Qle_bool_false in Hl.
  rewrite Hr, Hl. reflexivity.
Qed.

Lemma sell_fifo_done (r : Q) (q : list lot) : r <= 0 -> sell_fifo r q = q.
Proof.
  intros Hr. destruct q as [|l rest]; simpl; [reflexivity|].
  apply Qlt_bool_false in Hr. rewrite Hr. reflexivity.
Qed.

Lemma sell_fifo_nonneg (r : Q) (q : list lot) :
  lots_nonneg q -> lots_nonneg (sell_fifo r q).
Proof.
  intros Hq. revert r. induction Hq as [|l q Hl Hq IH]; intros r; simpl.
  - constructor.
  - destruct (Qlt_bool 0 r) eqn:E1; [|constructor; assumption].
    destruct (Qle_bool (lot_shares l) r) eqn:E2; [apply IH|].
    qbool. constructor; [simpl; lra|assumption].
Qed.

(** A sell within the shares held takes exactly its shares. *)
Lemma sell_fifo_sum (r : Q) (q : list lot) :
  lots_nonneg q -> 0 <= r -> r <= sum_shares q ->
  sum_shares (sell_fifo r q) == sum_shares q - r.
Proof.
  intros Hq. revert r. induction Hq as [|l q Hl Hq IH]; intros r Hr Hle; simpl in *.
  - lra.
  - destruct (Qlt_bool 0 r) eqn:E1.
    + destruct (Qle_bool (lot_shares l) r) eqn:E2; qbool.
      * rewrite IH; lra.
      * simpl. lra.
    + qbool. simpl. lra.
Qed.

(** A sell beyond the shares held empties the queue. *)
Lemma sell_fifo_oversell (r : Q) (q : list lot) :
  lots_nonneg q -> sum_shares q < r -> sell_fifo r q = [].
Proof.
  intros Hq. revert r. induction Hq as [|l q Hl Hq IH]; intros r Hr; simpl in *.
  - reflexivity.
  - pose proof (sum_shares_nonneg q Hq) as Hnn.
    assert (E1 : Qlt_bool 0 r = true) by (apply Qlt_bool_true; lra).
    assert (E2 : Qle_bool (lot_shares l) r = true) by (apply Qle_bool_iff; lra).
    rewrite E1, E2. apply IH. lra.
Qed.

(** ** One transaction *)

Lemma process_transaction_inv (hd hd' : gmap string holding) (t : transaction) :
  process_transaction hd t = Ok hd' ->
  exists h', hd' = <[symbol t := calculate_totals h']> hd
             /\ lots h' = next_lots t (lots (get_holding hd (symbol t))).
Proof.
  unfold process_transaction, next_lots, is_buy, is_sell.
  destruct (String.eqb (lower (type t)) "buy").
  - destruct (name t) as [nm|]; simpl; [|discriminate].
    intros [= <-]. eexists. split; reflexivity.
  - destruct (String.eqb (lower (type t)) "sell"); intros [= <-];
      eexists; split; reflexivity.
Qed.

Lemma process_transaction_total (hd : gmap string holding) (t : transaction) :
  (is_buy t = true -> is_Some (name t)) ->
  exists hd', process_transaction hd t = Ok hd'.
Proof.
  unfold process_transaction, is_buy. intros Hname.
  destruct (String.eqb (lower (type t)) "buy").
  - destruct (Hname eq_refl) as [nm ->]. simpl. eexists. reflexivity.
  - destruct (String.eqb (lower (type t)) "sell"); eexists; reflexivity.
Qed.

Lemma process_transaction_sell (hd : gmap string holding) (t : transaction) :
  is_sell t = true ->
  process_transaction hd t
  = Ok (<[symbol t :=
           calculate_totals
             (set_lots (get_holding hd (symbol t))
                (sell_fifo (shares t) (lots (get_holding hd (symbol t)))))]> hd).
Proof.
  unfold process_transaction, is_sell. intros Hs.
  destruct (String.eqb (lower (type t)) "buy") eqn:Hb.
  - apply String.eqb_eq in Hb. apply String.eqb_eq in Hs. congruence.
  - rewrite Hs. reflexivity.
Qed.

Lemma get_holding_insert (hd : gmap string holding) (s : string) (h : holding) :
  get_holding (<[s := h]> hd) s = h.
Proof. unfold get_holding. rewrite lookup_insert_eq. reflexivity. Qed.

Lemma get_holding_insert_ne (hd : gmap string holding) (s s' : string)
  (h : holding) :
  s <> s' -> get_holding (<[s := h]> hd) s' = get_holding hd s'.
Proof.
  intros Hne. unfold get_holding. rewrite lookup_insert_ne by assumption.
  reflexivity.
Qed.

Lemma calculate_totals_recomputed (h : holding) : recomputed (calculate_totals h).
Proof. reflexivity. Qed.

Lemma recomputed_default : recomputed default_holding.
Proof. reflexivity. Qed.

(** What [recomputed] says, field by field. *)
Lemma recomputed_totals (h : holding) :
  recomputed h ->
  total_shares h == sum_shares (lots h)
  /\ total_cost h == sum_cost (lots h)
  /\ weighted_avg_cost h
     = (if Qlt_bool 0 (total_shares h) then total_cost h / total_shares h
        else 0).
Proof.
  intros Hr. unfold recomputed in Hr.
  assert (Hs : total_shares h
               = fold_left (fun acc l => acc + lot_shares l) (lots h) 0)
    by (rewrite <- Hr at 1; reflexivity).
  assert (Hc : total_cost h
               = fold_left (fun acc l => acc + lot_shares l * lot_price l)
                           (lots h) 0)
    by (rewrite <- Hr at 1; reflexivity).
  assert (Hw : weighted_avg_cost h
               = (if Qlt_bool 0 (fold_left (fun acc l => acc + lot_shares l)
                                           (lots h) 0)
                  then fold_left (fun acc l => acc + lot_shares l * lot_price l)
                                 (lots h) 0
                       / fold_left (fun acc l => acc + lot_shares l) (lots h) 0
                  else 0))
    by (rewrite <- Hr at 1; reflexivity).
  split; [|split].
  - rewrite Hs, fold_left_shares. ring.
  - rewrite Hc, fold_left_cost. ring.
  - rewrite Hw, <- Hs, <- Hc. reflexivity.
Qed.

(** ** The replay loop *)

Lemma replay_snoc (txs : list transaction) (t : transaction)
  (hd0 hd' : gmap string holding) :
  replay hd0 (txs ++ [t]) = Ok hd' ->
  exists hd, replay hd0 txs = Ok hd /\ process_transaction hd t = Ok hd'.
Proof. apply foldM_snoc_Ok. Qed.

Lemma replay_snoc_Ok (txs : list transaction) (t : transaction)
  (hd0 hd hd' : gmap string holding) :
  replay hd0 txs = Ok hd -> process_transaction hd t = Ok hd' ->
  replay hd0 (txs ++ [t]) = Ok hd'.
Proof.
  unfold replay. intros H1 H2. rewrite foldM_app, H1. simpl. rewrite H2.
  reflexivity.
Qed.

(** Induction along the replay of a ledger from the empty dict. *)
Lemma replay_ind (P : list transaction -> gmap string holding -> Prop) :
  P [] ∅ ->
  (forall txs t hd hd',
      replay ∅ txs = Ok hd -> P txs hd ->
      process_transaction hd t = Ok hd' -> P (txs ++ [t]) hd') ->
  forall txs hd, replay ∅ txs = Ok hd -> P txs hd.
Proof.
  intros Hnil Hstep txs.
  induction txs as [|t txs IH] using rev_ind; intros hd Hrun.
  - injection Hrun as <-. exact Hnil.
  - apply replay_snoc in Hrun as (hd1 & Hrun & Ht). eauto.
Qed.

Lemma names_present_Forall (txs : list transaction) :
  names_present txs = true ->
  Forall (fun t => is_buy t = true -> is_Some (name t)) txs.
Proof.
  unfold names_present. intros H.
  apply List.Forall_forall. intros t Hin Hb.
  rewrite forallb_forall in H. specialize (H t Hin). rewrite Hb in H.
  apply bool_decide_eq_true in H. exact H.
Qed.

(** The replay raises only for a buy without a name. *)
Lemma replay_total (hd : gmap string holding) (txs : list transaction) :
  names_present txs = true -> exists hd', replay hd txs = Ok hd'.
Proof.
  intros H. apply names_present_Forall in H.
  eapply foldM_total; [|exact H].
  intros s x Hx. apply process_transaction_total. exact Hx.
Qed.

Lemma process_transactions_total (hd : gmap string holding)
  (txs : list transaction) :
  names_present txs = true -> exists out, process_transactions hd txs = Ok out.
Proof.
  intros H. destruct (replay_total hd txs H) as [hd' E].
  exists (prune hd'). unfold process_transactions. rewrite E. reflexivity.
Qed.

Lemma process_transactions_Ok (hd out : gmap string holding)
  (txs : list transaction) :
  process_transactions hd txs = Ok out ->
  exists hd', replay hd txs = Ok hd' /\ out = prune hd'.
Proof.
  unfold process_transactions. destruct (replay hd txs) as [hd'|e]; simpl.
  - intros [= <-]. exists hd'. split; reflexivity.
  - discriminate.
Qed.

(** Every holding of a replay from the empty dict carries recomputed
    totals. *)
Lemma replay_recomputed (txs : list transaction) (hd : gmap string holding) :
  replay ∅ txs = Ok hd -> forall s h, hd !! s = Some h -> recomputed h.
Proof.
  revert txs hd.
  apply (replay_ind (fun _ hd => forall s h, hd !! s = Some h -> recomputed h)).
  - intros s h H. rewrite lookup_empty in H. discriminate.
  - intros txs t hd hd' _ IH Ht s h Hs.
    apply process_transaction_inv in Ht as (h' & -> & _).
    destruct (decide (symbol t = s)) as [<-|Hne].
    + rewrite lookup_insert_eq in Hs. injection Hs as <-.
      apply calculate_totals_recomputed.
    + rewrite lookup_insert_ne in Hs by assumption. eauto.
Qed.

Lemma get_holding_recomputed (hd : gmap string holding) (s : string) :
  (forall s h, hd !! s = Some h -> recomputed h) ->
  recomputed (get_holding hd s).
Proof.
  intros H. unfold get_holding. destruct (hd !! s) as [h|] eqn:E; simpl.
  - eauto.
  - apply recomputed_default.
Qed.

Lemma buys_nonneg_app (a b : list transaction) :
  buys_nonneg (a ++ b) = (buys_nonneg a && buys_nonneg b)%bool.
Proof. apply forallb_app. Qed.

Lemma next_lots_nonneg (t : transaction) (q : list lot) :
  (is_buy t = true -> 0 <= shares t) ->
  lots_nonneg q -> lots_nonneg (next_lots t q).
Proof.
  intros Ht Hq. unfold next_lots.
  destruct (is_buy t).
  - apply Forall_app. split; [assumption|].
    constructor; [simpl; auto|constructor].
  - destruct (is_sell t); [apply sell_fifo_nonneg|]; assumption.
Qed.

(** With buys of non-negative share counts, no lot has negative shares. *)
Lemma replay_lots_nonneg (txs : list transaction) (hd : gmap string holding) :
  replay ∅ txs = Ok hd -> buys_nonneg txs = true ->
  forall s, lots_nonneg (lots (get_holding hd s)).
Proof.
  revert txs hd.
  apply (replay_ind (fun txs hd => buys_nonneg txs = true ->
                       forall s, lots_nonneg (lots (get_holding hd s)))).
  - intros _ s. constructor.
  - intros txs t hd hd' _ IH Ht Hnn s.
    rewrite buys_nonneg_app in Hnn. apply andb_true_iff in Hnn as [Hnn Hlast].
    simpl in Hlast. rewrite andb_true_r in Hlast.
    apply process_transaction_inv in Ht as (h' & -> & Hlots).
    destruct (decide (symbol t = s)) as [<-|Hne].
    + rewrite get_holding_insert. simpl. rewrite Hlots.
      apply next_lots_nonneg; [|apply IH; assumption].
      intros Hb. rewrite Hb in Hlast. apply Qle_bool_iff. exact Hlast.
    + rewrite get_holding_insert_ne by assumption. apply IH. assumption.
Qed.

(** ** Shares bought and sold *)

Lemma net_shares_snoc (s : string) (txs : list transaction) (t : transaction) :
  net_shares s (txs ++ [t]) == net_shares s txs + net_change s t.
Proof.
  induction txs as [|t0 txs IH]; simpl.
  - unfold net_change. ring.
  - rewrite IH. ring.
Qed.

Lemma no_oversell_from_app (before a b : list transaction) :
  no_oversell_from before (a ++ b)
  = (no_oversell_from before a && no_oversell_from (before ++ a) b)%bool.
Proof.
  revert before. induction a as [|t a IH]; intros before; simpl.
  - rewrite app_nil_r. reflexivity.
  - rewrite IH, <- app_assoc. simpl. rewrite andb_assoc. reflexivity.
Qed.

Lemma no_oversell_snoc (txs : list transaction) (t : transaction) :
  no_oversell (txs ++ [t]) = true ->
  no_oversell txs = true
  /\ (is_sell t = true -> shares t <= net_shares (symbol t) txs).
Proof.
  unfold no_oversell. rewrite no_oversell_from_app. simpl.
  intros H. apply andb_true_iff in H as [H1 H2]. split; [assumption|].
  intros Hs. rewrite Hs, andb_true_r in H2. apply Qle_bool_iff. exact H2.
Qed.

Lemma shares_nonneg_snoc (txs : list transaction) (t : transaction) :
  shares_nonneg (txs ++ [t]) = true ->
  shares_nonneg txs = true /\ 0 <= shares t.
Proof.
  unfold shares_nonneg. rewrite forallb_app. simpl.
  intros H. apply andb_true_iff in H as [H1 H2]. split; [assumption|].
  rewrite andb_true_r in H2. apply Qle_bool_iff. exact H2.
Qed.

Lemma shares_nonneg_buys (txs : list transaction) :
  shares_nonneg txs = true -> buys_nonneg txs = true.
Proof.
  unfold shares_nonneg, buys_nonneg. rewrite !forallb_forall.
  intros H t Hin. destruct (is_buy t); [apply H; assumption|reflexivity].
Qed.

(** Without oversell the queue of a symbol holds what the ledger bought of
    it minus what it sold. *)
Lemma replay_net_shares (txs : list transaction) (hd : gmap string holding) :
  replay ∅ txs = Ok hd ->
  shares_nonneg txs = true -> no_oversell txs = true ->
  forall s, sum_shares (lots (get_holding hd s)) == net_shares s txs.
Proof.
  revert txs hd.
  apply (replay_ind (fun txs hd =>
    shares_nonneg txs = true -> no_oversell txs = true ->
    forall s, sum_shares (lots (get_holding hd s)) == net_shares s txs)).
  - intros _ _ s. reflexivity.
  - intros txs t hd hd' Hrun IH Ht Hnn Hno s.
    apply shares_nonneg_snoc in Hnn as [Hnn Ht0].
    apply no_oversell_snoc in Hno as [Hno Hsell].
    specialize (IH Hnn Hno).
    pose proof (replay_lots_nonneg txs hd Hrun (shares_nonneg_buys _ Hnn)) as Hq.
    apply process_transaction_inv in Ht as (h' & -> & Hlots).
    rewrite net_shares_snoc. unfold net_change.
    destruct (decide (symbol t = s)) as [<-|Hne].
    + rewrite get_holding_insert, String.eqb_refl. simpl. rewrite Hlots.
      unfold next_lots. destruct (is_buy t).
      * rewrite sum_shares_app, IH. simpl. ring.
      * destruct (is_sell t).
        -- specialize (Hsell eq_refl).
           rewrite sell_fifo_sum; [rewrite IH; ring|apply Hq|assumption|].
           rewrite IH. exact Hsell.
        -- rewrite IH. ring.
    + rewrite get_holding_insert_ne by assumption.
      destruct (String.eqb (symbol t) s) eqn:E.
      * apply String.eqb_eq in E. contradiction.
      * rewrite IH. ring.
Qed.

Lemma prune_lookup_Some (hd : gmap string holding) (s : string) (h : holding) :
  prune hd !! s = Some h <-> hd !! s = Some h /\ 0 < total_shares h.
Proof.
  unfold prune. rewrite map_lookup_filter_Some. simpl.
  rewrite Qlt_bool_true. reflexivity.
Qed.

Lemma prune_lookup_None (hd : gmap string holding) (s : string) :
  prune hd !! s = None <->
  hd !! s = None \/ exists h, hd !! s = Some h /\ total_shares h <= 0.
Proof.
  destruct (prune hd !! s) as [h|] eqn:E.
  - apply prune_lookup_Some in E as [E1 E2]. split; [discriminate|].
    intros [H|(h' & H & Hle)]; [congruence|].
    rewrite E1 in H. injection H as <-. lra.
  - split; [|reflexivity]. intros _.
    destruct (hd !! s) as [h|] eqn:E1; [|left; reflexivity].
    right. exists h. split; [reflexivity|].
    destruct (Qlt_le_dec 0 (total_shares h)) as [Hlt|Hle]; [|assumption].
    assert (prune hd !! s = Some h) by (apply prune_lookup_Some; auto).
    congruence.
Qed.

Lemma prune_drained (hd : gmap string holding) (s : string) (h : holding) :
  prune (<[s := drained h]> hd) = delete s (prune hd).
Proof.
  unfold prune. rewrite map_filter_insert_False.
  - apply map_filter_delete.
  - simpl. discriminate.
Qed.

(** ** C1: a sell for more shares than held *)

(** C1, as the specification states it, fails: the replay of a buy of 13
    shares followed by a sell of 20 raises nothing; it returns the empty
    mapping. *)
Lemma oversell_not_rejected :
  no_oversell oversell_scenario = false
  /\ process_transactions ∅ oversell_scenario = Ok ∅
  /\ ~ (exists e, process_transactions ∅ oversell_scenario = Err e).
Proof.
  assert (H : process_transactions ∅ oversell_scenario = Ok ∅)
    by (vm_compute; reflexivity).
  split; [vm_compute; reflexivity|]. split; [exact H|].
  intros [e He]. rewrite H in He. discriminate.
Qed.

(** C1 (amended): a sell that asks for more shares of a symbol than the
    holding has is not rejected: the replay raises nothing for it and
    returns a mapping.  When no buy before it has a negative share count,
    the sell is clamped to the shares held: it empties the symbol's queue,
    sets the three totals to 0, and the symbol is absent from the returned
    mapping, the other symbols being as they were before the sell. *)
Theorem oversell_is_clamped (txs : list transaction) (t : transaction)
  (hd : gmap string holding) :
  replay ∅ txs = Ok hd ->
  is_sell t = true ->
  total_shares (get_holding hd (symbol t)) < shares t ->
  (exists hd',
      replay ∅ (txs ++ [t]) = Ok hd'
      /\ process_transactions ∅ (txs ++ [t]) = Ok (prune hd'))
  /\ (buys_nonneg txs = true ->
      replay ∅ (txs ++ [t])
      = Ok (<[symbol t := drained (get_holding hd (symbol t))]> hd)
      /\ process_transactions ∅ (txs ++ [t])
         = Ok (delete (symbol t) (prune hd))).
Proof.
  intros Hrun Hsell Hheld.
  pose proof (process_transaction_sell hd t Hsell) as Hstep.
  split.
  - eexists. split.
    + eapply replay_snoc_Ok; eassumption.
    + unfold process_transactions.
      rewrite (replay_snoc_Ok _ _ _ _ _ Hrun Hstep). reflexivity.
  - intros Hnn.
    pose proof (replay_lots_nonneg txs hd Hrun Hnn (symbol t)) as Hq.
    pose proof (get_holding_recomputed hd (symbol t)
                  (replay_recomputed txs hd Hrun)) as Hrec.
    apply recomputed_totals in Hrec as (Hts & _ & _).
    assert (Hempty : sell_fifo (shares t) (lots (get_holding hd (symbol t)))
                     = []).
    { apply sell_fifo_oversell; [assumption|]. rewrite <- Hts. exact Hheld. }
    rewrite Hempty in Hstep.
    assert (Hrun' : replay ∅ (txs ++ [t])
                    = Ok (<[symbol t := drained (get_holding hd (symbol t))]>
                            hd)).
    { eapply replay_snoc_Ok; [exact Hrun|]. rewrite Hstep. reflexivity. }
    split; [exact Hrun'|].
    unfold process_transactions. rewrite Hrun'. simpl.
    unfold fmap, result_fmap. simpl. rewrite prune_drained. reflexivity.
Qed.

Lemma oversell_is_clamped_witness :
  exists hd,
    replay ∅ [buy "ACME" 13 100 (mkDate 5 1 2024)] = Ok hd
    /\ process_transactions ∅ oversell_scenario = Ok (delete "ACME" (prune hd)).
Proof.
  assert (Hrun : exists hd,
             replay ∅ [buy "ACME" 13 100 (mkDate 5 1 2024)] = Ok hd
             /\ total_shares (get_holding hd "ACME") < 20).
  { eexists. split; vm_compute; reflexivity. }
  destruct Hrun as (hd & Hrun & Hheld).
  exists hd. split; [exact Hrun|].
  destruct (oversell_is_clamped [buy "ACME" 13 100 (mkDate 5 1 2024)]
              (sell "ACME" 20 150 (mkDate 1 3 2024) 5) hd Hrun eq_refl Hheld)
    as [_ Hclamp].
  destruct (Hclamp eq_refl) as [_ Hout]. exact Hout.
Defined.

(** ** C3: shares held against shares bought and sold *)

(** C3, as the specification states it, fails on a ledger with an oversell:
    after a buy of 13 and a sell of 20 the symbol is not held (0 shares),
    and bought minus sold is -7. *)
Lemma share_balance_fails_on_oversell :
  exists out,
    process_transactions ∅ oversell_scenario = Ok out
    /\ shares_of out "ACME" == 0
    /\ net_shares "ACME" oversell_scenario == -7
    /\ ~ shares_of out "ACME" == net_shares "ACME" oversell_scenario.
Proof.
  exists ∅. split; [vm_compute; reflexivity|].
  split; [reflexivity|]. split; [reflexivity|].
  vm_compute. discriminate.
Qed.

(** C3 (amended): every holding of the returned mapping has a positive
    [total_shares]; and for a ledger whose share counts are not negative and
    in which no sell asks for more than the shares held at that point, the
    shares of every symbol after the replay equal the shares bought minus
    the shares sold, and are not negative. *)
Theorem replay_share_balance (txs : list transaction) :
  (forall out s h,
      process_transactions ∅ txs = Ok out -> out !! s = Some h ->
      0 < total_shares h)
  /\ (names_present txs = true ->
      shares_nonneg txs = true ->
      no_oversell txs = true ->
      exists out,
        process_transactions ∅ txs = Ok out
        /\ forall s, shares_of out s == net_shares s txs
                     /\ 0 <= shares_of out s).
Proof.
  split.
  - intros out s h Hrun Hs.
    apply process_transactions_Ok in Hrun as (hd & _ & ->).
    apply prune_lookup_Some in Hs. tauto.
  - intros Hnames Hnn Hno.
    destruct (replay_total ∅ txs Hnames) as [hd Hrun].
    exists (prune hd). split.
    { unfold process_transactions. rewrite Hrun. reflexivity. }
    intros s.
    pose proof (replay_net_shares txs hd Hrun Hnn Hno s) as Hnet.
    pose proof (replay_lots_nonneg txs hd Hrun (shares_nonneg_buys _ Hnn) s) as Hq.
    apply sum_shares_nonneg in Hq.
    pose proof (get_holding_recomputed hd s (replay_recomputed txs hd Hrun)) as Hrec.
    apply recomputed_totals in Hrec as (Hts & _ & _).
    unfold shares_of.
    destruct (prune hd !! s) as [h|] eqn:E.
    + apply prune_lookup_Some in E as [E Hpos].
      unfold get_holding in *. rewrite E in *. simpl in *.
      split; lra.
    + apply prune_lookup_None in E as [E|(h & E & Hle)];
        unfold get_holding in *; rewrite E in *; simpl in *; split; lra.
Qed.

Lemma replay_share_balance_witness :
  exists out,
    process_transactions ∅ scenario = Ok out
    /\ forall s, shares_of out s == net_shares s scenario
                 /\ 0 <= shares_of out s.
Proof.
  apply (proj2 (replay_share_balance scenario)); reflexivity.
Defined.

(** ** C4: the totals of a holding *)

Lemma buys_nonneg_take (n : nat) (txs : list transaction) :
  buys_nonneg txs = true -> buys_nonneg (take n txs) = true.
Proof.
  intros H. rewrite <- (take_drop n txs), buys_nonneg_app in H.
  apply andb_true_iff in H. tauto.
Qed.

(** C4, as the specification states it, fails on a ledger with a buy of a
    negative number of shares, which the replay accepts: after a buy of -4
    shares at 100 and a buy of 1 share at 50 the holding has [total_shares]
    -3 and [total_cost] -350, and [weighted_avg_cost] is 0: it is not
    [total_cost / total_shares] although [total_shares] is not 0, and
    [weighted_avg_cost * total_shares] is not [total_cost]. *)
Lemma negative_shares_average_is_zero :
  exists hd h,
    replay ∅ negative_buy_scenario = Ok hd
    /\ hd !! "ACME" = Some h
    /\ total_shares h == -3
    /\ total_cost h == -350
    /\ weighted_avg_cost h == 0
    /\ ~ total_shares h == 0
    /\ ~ weighted_avg_cost h == total_cost h / total_shares h
    /\ ~ weighted_avg_cost h * total_shares h == total_cost h.
Proof.
  eexists. eexists.
  split; [vm_compute; reflexivity|].
  split; [vm_compute; reflexivity|].
  split; [reflexivity|]. split; [reflexivity|]. split; [reflexivity|].
  split; [|split]; vm_compute; discriminate.
Qed.

(** C4 (amended): at every point of a replay (after the first [n]
    transactions, for every [n]) every holding of the dict has
    [total_shares] equal to the sum of the shares of its lots and
    [total_cost] equal to the sum of shares times price, both recomputed
    from the lots that remain; [weighted_avg_cost] is
    [total_cost / total_shares] when [total_shares] is positive and 0
    otherwise (also when [total_shares] is negative), and
    [weighted_avg_cost * total_shares] equals [total_cost] when
    [total_shares] is positive (exactly: amounts are rationals).  When no
    buy of the ledger has a negative share count, [total_shares] is never
    negative, so [weighted_avg_cost] is [total_cost / total_shares], or 0
    when [total_shares] is 0, and the product equals [total_cost] for every
    holding. *)
Theorem holding_totals_invariant (txs : list transaction) (n : nat)
  (hd : gmap string holding) (s : string) (h : holding) :
  replay ∅ (take n txs) = Ok hd ->
  hd !! s = Some h ->
  total_shares h == sum_shares (lots h)
  /\ total_cost h == sum_cost (lots h)
  /\ weighted_avg_cost h
     = (if Qlt_bool 0 (total_shares h) then total_cost h / total_shares h
        else 0)
  /\ (0 < total_shares h ->
      weighted_avg_cost h * total_shares h == total_cost h)
  /\ (buys_nonneg txs = true ->
      0 <= total_shares h
      /\ (total_shares h == 0 -> weighted_avg_cost h == 0)
      /\ (~ total_shares h == 0 ->
          weighted_avg_cost h == total_cost h / total_shares h)
      /\ weighted_avg_cost h * total_shares h == total_cost h).
Proof.
  intros Hrun Hs.
  pose proof (replay_recomputed _ hd Hrun s h Hs) as Hrec.
  apply recomputed_totals in Hrec as (Hts & Htc & Hw).
  split; [exact Hts|]. split; [exact Htc|]. split; [exact Hw|]. split.
  - intros Hpos. rewrite Hw.
    apply Qlt_bool_true in Hpos as Hb. rewrite Hb. field. lra.
  - intros Hnn.
    pose proof (replay_lots_nonneg _ hd Hrun (buys_nonneg_take n txs Hnn) s)
      as Hq.
    unfold get_holding in Hq. rewrite Hs in Hq. simpl in Hq.
    pose proof (sum_shares_nonneg _ Hq) as Hpos.
    split; [lra|].
    destruct (Qlt_bool 0 (total_shares h)) eqn:E; qbool; rewrite Hw.
    + split; [intros H0; lra|]. split; [intros _; reflexivity|].
      field. lra.
    + assert (H0 : total_shares h == 0) by lra.
      split; [intros _; reflexivity|]. split; [intros H; contradiction|].
      rewrite Htc, sum_cost_zero; [ring|assumption|lra].
Qed.

Lemma holding_totals_invariant_witness :
  exists hd h,
    replay ∅ (take 3 scenario) = Ok hd
    /\ hd !! "ACME" = Some h
    /\ total_shares h == 3
    /\ total_cost h == 360
    /\ weighted_avg_cost h == 120
    /\ weighted_avg_cost h * total_shares h == total_cost h.
Proof.
  assert (Hrun : exists hd h,
             replay ∅ (take 3 scenario) = Ok hd /\ hd !! "ACME" = Some h
             /\ total_shares h == 3 /\ total_cost h == 360).
  { eexists. eexists. split; [vm_compute; reflexivity|].
    split; [vm_compute; reflexivity|]. split; reflexivity. }
  destruct Hrun as (hd & h & Hrun & Hh & Hts & Htc).
  destruct (holding_totals_invariant scenario 3 hd "ACME" h Hrun Hh)
    as (_ & _ & _ & _ & Hnonneg).
  destruct (Hnonneg eq_refl) as (_ & _ & Hwac & Hround).
  exists hd, h. split; [exact Hrun|]. split; [exact Hh|].
  split; [exact Hts|]. split; [exact Htc|]. split; [|exact Hround].
  rewrite Hwac, Hts, Htc; [reflexivity|].
  rewrite Hts. discriminate.
Defined.

(** ** The analyzer's sell loop *)

Lemma match_lots_done (temp_queue buy_queue : list buy_lot) (r c p : Q) :
  r <= 0 -> match_lots temp_queue r buy_queue c p = (buy_queue, c, p).
Proof.
  intros Hr. destruct temp_queue as [|l rest]; simpl; [reflexivity|].
  apply Qlt_bool_false in Hr. rewrite Hr. reflexivity.
Qed.

(** The copy and the real queue move together: the queue the analyzer keeps
    after a sell is the one [sell_fifo] leaves. *)
Lemma match_lots_queue (q : list buy_lot) (r c p : Q) :
  map to_lot (match_lots q r q c p).1.1 = sell_fifo r (map to_lot q).
Proof.
  revert r c p. induction q as [|l q IH]; intros r c p; simpl; [reflexivity|].
  destruct (Qlt_bool 0 r); [|reflexivity].
  destruct (Qle_bool (bl_shares l) r).
  - apply IH.
  - rewrite match_lots_done by lra. reflexivity.
Qed.

(** The cost basis and the shares processed are those of the lots, and the
    part of a lot, that the sell took from the queue. *)
Lemma match_lots_basis (q : list buy_lot) (r c p : Q) :
  (match_lots q r q c p).1.2
  == c + sum_cost (map to_lot q) - sum_cost (sell_fifo r (map to_lot q))
  /\ (match_lots q r q c p).2
     == p + sum_shares (map to_lot q) - sum_shares (sell_fifo r (map to_lot q)).
Proof.
  revert r c p. induction q as [|l q IH]; intros r c p; simpl.
  - split; ring.
  - destruct (Qlt_bool 0 r); [|simpl; split; ring].
    destruct (Qle_bool (bl_shares l) r).
    + destruct (IH (r - bl_shares l) (c + bl_shares l * bl_price l)
                   (p + bl_shares l)) as [H1 H2].
      rewrite H1, H2. split; ring.
    + rewrite match_lots_done by lra. simpl. split; ring.
Qed.

(** ** C2: the FIFO replay *)

(** C2: a buy appends the lot (shares, price, date) at the tail of the
    symbol's queue; a sell drains from the head: a head lot with shares not
    above the remaining shares is popped, otherwise it is split in place and
    keeps its price and date; the analyzer's queue follows the same loop.
    On Buy 10 at 100 (2024-01-05), Buy 5 at 120 (2024-02-10), Sell 12 at 150
    with fee 5 (2024-03-01): cost basis 1240 = 10*100 + 2*120, gross
    proceeds 1800, net proceeds 1795, realized P&L 555, and one remaining
    lot of 3 shares at 120 dated 2024-02-10. *)
Theorem fifo_replay (hd : gmap string holding) (t : transaction) :
  (is_buy t = true -> is_Some (name t) ->
   exists hd',
     process_transaction hd t = Ok hd'
     /\ lots (get_holding hd' (symbol t))
        = lots (get_holding hd (symbol t))
          ++ [mkLot (shares t) (price t) (tdate t)])
  /\ (is_sell t = true ->
      exists hd',
        process_transaction hd t = Ok hd'
        /\ lots (get_holding hd' (symbol t))
           = sell_fifo (shares t) (lots (get_holding hd (symbol t))))
  /\ (forall r l rest,
        0 < r -> lot_shares l <= r ->
        sell_fifo r (l :: rest) = sell_fifo (r - lot_shares l) rest)
  /\ (forall r l rest,
        0 < r -> r < lot_shares l ->
        sell_fifo r (l :: rest)
        = mkLot (lot_shares l - r) (lot_price l) (lot_date l) :: rest)
  /\ (forall r q, r <= 0 -> sell_fifo r q = q)
  /\ (forall q r c p,
        map to_lot (match_lots q r q c p).1.1 = sell_fifo r (map to_lot q))
  /\ (exists out h,
        process_transactions ∅ scenario = Ok out
        /\ out !! "ACME" = Some h
        /\ lots h = [mkLot 3 120 (mkDate 10 2 2024)]
        /\ total_shares h == 3)
  /\ (exists r,
        analyze_sell_transactions scenario_portfolio = Ok [r]
        /\ shares_sold r == 12
        /\ total_cost_basis r == 10 * 100 + 2 * 120
        /\ total_cost_basis r == 1240
        /\ gross_proceeds r == 1800
        /\ net_proceeds r == 1795
        /\ realized_pnl r == 555).
Proof.
  split; [|split; [|split; [|split; [|split; [|split; [|split]]]]]].
  - intros Hb [nm Hn].
    destruct (process_transaction_total hd t (fun _ => ex_intro _ nm Hn))
      as [hd' Ht].
    exists hd'. split; [exact Ht|].
    apply process_transaction_inv in Ht as (h' & -> & Hlots).
    rewrite get_holding_insert. simpl. rewrite Hlots.
    unfold next_lots. rewrite Hb. reflexivity.
  - intros Hs. eexists. split; [apply process_transaction_sell; exact Hs|].
    rewrite get_holding_insert. reflexivity.
  - apply sell_fifo_pop.
  - apply sell_fifo_split.
  - apply sell_fifo_done.
  - apply match_lots_queue.
  - eexists. eexists. split; [vm_compute; reflexivity|].
    split; [vm_compute; reflexivity|]. split; reflexivity.
  - eexists. split; [vm_compute; reflexivity|].
    repeat split; reflexivity.
Qed.

Lemma fifo_replay_witness :
  exists hd',
    process_transaction ∅ (buy "ACME" 10 100 (mkDate 5 1 2024)) = Ok hd'
    /\ lots (get_holding hd' "ACME") = [mkLot 10 100 (mkDate 5 1 2024)].
Proof.
  destruct (proj1 (fifo_replay ∅ (buy "ACME" 10 100 (mkDate 5 1 2024)))
              eq_refl (ex_intro _ "ACME" eq_refl)) as (hd' & Hstep & Hlots).
  exists hd'. split; [exact Hstep|exact Hlots].
Defined.

(** ** Dates and the stable sort *)

Lemma date_leb_spec (a b : date) :
  date_leb a b = true <->
  (year a < year b
   \/ (year a = year b
       /\ (month a < month b \/ (month a = month b /\ day a <= day b))))%nat.
Proof.
  unfold date_leb.
  destruct (Nat.ltb_spec (year a) (year b)); [intuition lia|].
  destruct (Nat.ltb_spec (year b) (year a)); [intuition (discriminate || lia)|].
  destruct (Nat.ltb_spec (month a) (month b)); [intuition lia|].
  destruct (Nat.ltb_spec (month b) (month a)); [intuition (discriminate || lia)|].
  rewrite Nat.leb_le. intuition lia.
Qed.

Lemma date_le_total (a b : date) : date_le a b \/ date_le b a.
Proof. unfold date_le. rewrite !date_leb_spec. lia. Qed.

Lemma date_le_trans (a b c : date) : date_le a b -> date_le b c -> date_le a c.
Proof. unfold date_le. rewrite !date_leb_spec. lia. Qed.

Lemma date_leb_false (a b : date) : date_leb a b = false -> date_le b a.
Proof.
  intros H. destruct (date_le_total a b) as [H1|H1]; [|assumption].
  unfold date_le in H1. congruence.
Qed.

Section StableSortFacts.
Context {A : Type} (key : A -> date).

Let R (a b : A) : Prop := date_le (key a) (key b).

Lemma Forall_insert_sorted (P : A -> Prop) (x : A) (l : list A) :
  Forall P (insert_sorted key x l) <-> P x /\ Forall P l.
Proof.
  induction l as [|y l IH]; simpl.
  - rewrite !Forall_cons. tauto.
  - destruct (date_leb (key x) (key y)).
    + rewrite !Forall_cons. tauto.
    + rewrite !Forall_cons, IH. tauto.
Qed.

Lemma insert_sorted_sorted (x : A) (l : list A) :
  StronglySorted R l -> StronglySorted R (insert_sorted key x l).
Proof.
  induction 1 as [|y l Hl IH Hy]; simpl.
  - constructor; constructor.
  - destruct (date_leb (key x) (key y)) eqn:E.
    + constructor; [constructor; assumption|].
      constructor; [exact E|].
      eapply Forall_impl; [exact Hy|].
      intros z Hz. eapply date_le_trans; [exact E|exact Hz].
    + constructor; [exact IH|].
      apply Forall_insert_sorted. split; [|exact Hy].
      apply date_leb_false. exact E.
Qed.

Lemma sort_by_date_sorted (l : list A) :
  StronglySorted R (sort_by_date key l).
Proof.
  induction l as [|x l IH]; simpl; [constructor|].
  apply insert_sorted_sorted. exact IH.
Qed.

Lemma insert_sorted_filter_length (P : A -> Prop) `{!forall x, Decision (P x)}
  (x : A) (l : list A) :
  length (filter P (insert_sorted key x l)) = length (filter P (x :: l)).
Proof.
  induction l as [|y l IH]; simpl; [reflexivity|].
  destruct (date_leb (key x) (key y)); [reflexivity|].
  rewrite !filter_cons in *.
  destruct (decide (P y)), (decide (P x)); simpl in *; lia.
Qed.

Lemma sort_by_date_filter_length (P : A -> Prop) `{!forall x, Decision (P x)}
  (l : list A) :
  length (filter P (sort_by_date key l)) = length (filter P l).
Proof.
  induction l as [|x l IH]; simpl; [reflexivity|].
  rewrite insert_sorted_filter_length, !filter_cons.
  destruct (decide (P x)); simpl; lia.
Qed.

Lemma StronglySorted_filter_keep (P : A -> Prop) `{!forall x, Decision (P x)}
  (l : list A) :
  StronglySorted R l -> StronglySorted R (filter P l).
Proof.
  induction 1 as [|y l Hl IH Hy]; [constructor|].
  rewrite filter_cons. destruct (decide (P y)); [|exact IH].
  constructor; [exact IH|].
  apply Forall_forall. intros z Hz.
  apply list_elem_of_filter in Hz as [_ Hz].
  rewrite Forall_forall in Hy. auto.
Qed.
End StableSortFacts.

(** ** Grouping by symbol *)

Lemma order_add_NoDup (s : string) (ks : list string) :
  NoDup ks -> NoDup (order_add s ks).
Proof.
  intros H. unfold order_add. case_bool_decide; [assumption|].
  apply NoDup_app. split; [assumption|]. split.
  - intros k Hk Hs. apply list_elem_of_singleton in Hs. subst. contradiction.
  - apply NoDup_singleton.
Qed.

Lemma order_add_elem (s k : string) (ks : list string) :
  k ∈ order_add s ks <-> k = s \/ k ∈ ks.
Proof.
  unfold order_add. case_bool_decide.
  - split; [auto|]. intros [->|H']; assumption.
  - rewrite elem_of_app, list_elem_of_singleton. tauto.
Qed.

Lemma symbol_order_snoc (l : list string) (s : string) :
  symbol_order (l ++ [s]) = order_add s (symbol_order l).
Proof. unfold symbol_order. rewrite fold_left_app. reflexivity. Qed.

Lemma symbol_order_NoDup (l : list string) : NoDup (symbol_order l).
Proof.
  induction l as [|s l IH] using rev_ind.
  - constructor.
  - rewrite symbol_order_snoc. apply order_add_NoDup. exact IH.
Qed.

Lemma symbol_order_elem (l : list string) (k : string) :
  k ∈ symbol_order l <-> k ∈ l.
Proof.
  induction l as [|s l IH] using rev_ind.
  - reflexivity.
  - rewrite symbol_order_snoc, order_add_elem, elem_of_app, IH,
      list_elem_of_singleton. tauto.
Qed.

Section DictAppend.
Context {V : Type}.

Lemma dict_append_present (ks : list string) (G : string -> list V)
  (s : string) (v : V) :
  NoDup ks -> s ∈ ks ->
  dict_append s v (map (fun k => (k, G k)) ks)
  = map (fun k => (k, if decide (k = s) then G k ++ [v] else G k)) ks.
Proof.
  induction 1 as [|k ks Hk Hnd IH]; intros Hs; simpl.
  - inversion Hs.
  - destruct (String.eqb k s) eqn:E.
    + apply String.eqb_eq in E. subst k.
      rewrite decide_True by reflexivity. f_equal.
      apply map_ext_in. intros k Hin.
      rewrite decide_False; [reflexivity|].
      intros ->. apply Hk. apply list_elem_of_In. exact Hin.
    + apply String.eqb_neq in E.
      rewrite decide_False by assumption. f_equal.
      apply IH. apply elem_of_cons in Hs as [Hs|Hs]; [congruence|exact Hs].
Qed.

Lemma dict_append_fresh (ks : list string) (G : string -> list V)
  (s : string) (v : V) :
  s ∉ ks ->
  dict_append s v (map (fun k => (k, G k)) ks)
  = map (fun k => (k, G k)) ks ++ [(s, [v])].
Proof.
  induction ks as [|k ks IH]; intros Hs; simpl; [reflexivity|].
  apply not_elem_of_cons in Hs as [Hne Hs].
  destruct (String.eqb k s) eqn:E.
  - apply String.eqb_eq in E. congruence.
  - f_equal. apply IH. exact Hs.
Qed.
End DictAppend.

Lemma filter_none {A : Type} (P : A -> Prop) `{!forall x, Decision (P x)}
  (l : list A) :
  (forall x, x ∈ l -> ~ P x) -> filter P l = [].
Proof.
  induction l as [|x l IH]; intros Hno; [reflexivity|].
  rewrite filter_cons, decide_False by (apply Hno; left).
  apply IH. intros y Hy. apply Hno. right. exact Hy.
Qed.

Lemma group_by_symbol_snoc (l : list transaction_with_account)
  (t : transaction_with_account) :
  group_by_symbol (l ++ [t]) = dict_append (tx_symbol t) t (group_by_symbol l).
Proof. unfold group_by_symbol. rewrite fold_left_app. reflexivity. Qed.

(** The dict built by the grouping loop: the symbols in order of first
    occurrence, each with its transactions in stream order. *)
Lemma group_by_symbol_spec (l : list transaction_with_account) :
  group_by_symbol l = groups_of l.
Proof.
  induction l as [|t l IH] using rev_ind; [reflexivity|].
  rewrite group_by_symbol_snoc, IH. unfold groups_of.
  rewrite map_app. simpl. rewrite symbol_order_snoc.
  set (ks := symbol_order (map tx_symbol l)).
  assert (Hnd : NoDup ks) by apply symbol_order_NoDup.
  unfold order_add. case_bool_decide as Hin.
  - rewrite (dict_append_present ks
               (fun k => filter (fun t0 => tx_symbol t0 = k) l)) by assumption.
    apply map_ext. intros k. rewrite filter_app.
    rewrite filter_cons, filter_nil.
    destruct (decide (k = tx_symbol t)) as [->|Hne].
    + rewrite decide_True by reflexivity. reflexivity.
    + rewrite decide_False by congruence. rewrite app_nil_r. reflexivity.
  - rewrite (dict_append_fresh ks
               (fun k => filter (fun t0 => tx_symbol t0 = k) l)) by assumption.
    rewrite map_app. simpl. f_equal.
    + apply map_ext_in. intros k Hk. apply list_elem_of_In in Hk.
      rewrite filter_app, filter_cons, filter_nil.
      rewrite decide_False; [rewrite app_nil_r; reflexivity|].
      intros E. apply Hin. rewrite E. exact Hk.
    + rewrite filter_app, filter_cons, filter_nil.
      rewrite decide_True by reflexivity.
      replace (filter (fun t0 => tx_symbol t0 = tx_symbol t) l) with
        (@nil transaction_with_account); [reflexivity|].
      symmetry. apply filter_none. intros t0 Ht0 E. apply Hin.
      apply symbol_order_elem. rewrite <- E.
      apply list_elem_of_fmap. exists t0. split; [reflexivity|exact Ht0].
Qed.

(** ** The analyzer *)

Lemma is_sell_not_buy (t : transaction) : is_sell t = true -> is_buy t = false.
Proof.
  unfold is_sell, is_buy. intros Hs.
  destruct (String.eqb (lower (type t)) "buy") eqn:Hb; [|reflexivity].
  apply String.eqb_eq in Hb. apply String.eqb_eq in Hs.
  rewrite Hb in Hs. discriminate.
Qed.

Lemma is_buy_not_sell (t : transaction) : is_buy t = true -> is_sell t = false.
Proof.
  intros Hb. destruct (is_sell t) eqn:Hs; [|reflexivity].
  apply is_sell_not_buy in Hs. congruence.
Qed.

Lemma analyze_transaction_buy (s : string) (q : list buy_lot)
  (rs : list sell_result) (t : transaction_with_account) :
  is_buy (tx t) = true ->
  analyze_transaction s (q, rs) t
  = Ok (q ++ [mkBuyLot (shares (tx t)) (price (tx t)) (tdate (tx t))
                       (tx_account t)], rs).
Proof.
  unfold analyze_transaction, is_buy. intros ->. reflexivity.
Qed.

Lemma analyze_transaction_other (s : string) (q : list buy_lot)
  (rs : list sell_result) (t : transaction_with_account) :
  is_buy (tx t) = false -> is_sell (tx t) = false ->
  analyze_transaction s (q, rs) t = Ok (q, rs).
Proof.
  unfold analyze_transaction, is_buy, is_sell. intros -> ->. reflexivity.
Qed.

Lemma analyze_transaction_sell (s : string) (q : list buy_lot)
  (rs : list sell_result) (t : transaction_with_account) :
  is_sell (tx t) = true -> is_Some (currency (tx t)) ->
  exists q' r,
    analyze_transaction s (q, rs) t = Ok (q', rs ++ [r])
    /\ record_stamp r = (s, tx_date t).
Proof.
  intros Hs [cur Hcur]. pose proof (is_sell_not_buy _ Hs) as Hb.
  unfold analyze_transaction. unfold is_buy in Hb. unfold is_sell in Hs.
  rewrite Hb, Hs, Hcur.
  destruct (match_lots q (shares (tx t)) q 0 0) as [[q1 basis] processed].
  simpl. eexists. eexists. split; reflexivity.
Qed.

(** One symbol: a result for each sell of the group, in the group's order. *)
Lemma analyze_group_ok (s : string) (ts : list transaction_with_account) :
  Forall (fun t => is_sell (tx t) = true -> is_Some (currency (tx t))) ts ->
  forall q rs,
  exists q' new,
    foldM (analyze_transaction s) ts (q, rs) = Ok (q', rs ++ new)
    /\ map record_stamp new
       = map (fun t => (s, tx_date t)) (filter tx_is_sell ts).
Proof.
  induction 1 as [|t ts Ht _ IH]; intros q rs.
  - exists q, []. simpl. rewrite app_nil_r. split; reflexivity.
  - rewrite foldM_cons, filter_cons.
    destruct (decide (tx_is_sell t)) as [Hs|Hs]; unfold tx_is_sell in Hs.
    + destruct (analyze_transaction_sell s q rs t Hs (Ht Hs))
        as (q1 & r & Hstep & Hr).
      rewrite Hstep, bind_Ok.
      destruct (IH q1 (rs ++ [r])) as (q' & new & Hrun & Hnew).
      exists q', (r :: new). split.
      * rewrite Hrun, <- app_assoc. reflexivity.
      * simpl. rewrite Hnew, Hr. reflexivity.
    + apply not_true_is_false in Hs.
      destruct (is_buy (tx t)) eqn:Hb.
      * rewrite analyze_transaction_buy, bind_Ok by assumption. apply IH.
      * rewrite analyze_transaction_other, bind_Ok by assumption. apply IH.
Qed.

(** All symbols: the results of the groups, one group after the other. *)
Lemma analyze_groups_ok
  (gs : list (string * list transaction_with_account)) :
  Forall (fun g => Forall (fun t => is_sell (tx t) = true ->
                                    is_Some (currency (tx t))) g.2) gs ->
  forall rs,
  exists new,
    foldM analyze_symbol gs rs = Ok (rs ++ new)
    /\ map record_stamp new
       = flat_map (fun g => map (fun t => (g.1, tx_date t))
                                (filter tx_is_sell g.2)) gs.
Proof.
  induction 1 as [|g gs Hg _ IH]; intros rs.
  - exists []. simpl. rewrite app_nil_r. split; reflexivity.
  - rewrite foldM_cons.
    destruct (analyze_group_ok g.1 g.2 Hg [] rs) as (q' & new1 & Hrun & Hnew1).
    assert (Hg1 : analyze_symbol rs g = Ok (rs ++ new1))
      by (unfold analyze_symbol; rewrite Hrun; reflexivity).
    rewrite Hg1, bind_Ok.
    destruct (IH (rs ++ new1)) as (new2 & Hrun2 & Hnew2).
    exists (new1 ++ new2). split.
    + rewrite Hrun2, <- app_assoc. reflexivity.
    + rewrite map_app, Hnew1, Hnew2. reflexivity.
Qed.

Lemma dict_append_sells (s : string) (t : transaction_with_account)
  (d : list (string * list transaction_with_account)) :
  length (flat_map (fun g => filter tx_is_sell g.2) (dict_append s t d))
  = (length (flat_map (fun g => filter tx_is_sell g.2) d)
     + length (filter tx_is_sell [t]))%nat.
Proof.
  induction d as [|[k vs] d IH]; simpl.
  - rewrite app_nil_r. reflexivity.
  - destruct (String.eqb k s); simpl.
    + rewrite filter_app, !length_app. lia.
    + rewrite !length_app, IH. lia.
Qed.

Lemma group_by_symbol_sells (l : list transaction_with_account) :
  length (flat_map (fun g => filter tx_is_sell g.2) (group_by_symbol l))
  = length (filter tx_is_sell l).
Proof.
  induction l as [|t l IH] using rev_ind; [reflexivity|].
  rewrite group_by_symbol_snoc, dict_append_sells, IH, filter_app, length_app.
  reflexivity.
Qed.

Lemma flat_map_map_length {A B C : Type} (F : A -> list B) (h : A -> B -> C)
  (l : list A) :
  length (flat_map (fun a => map (h a) (F a)) l) = length (flat_map F l).
Proof.
  induction l as [|a l IH]; simpl; [reflexivity|].
  rewrite !length_app, length_map, IH. reflexivity.
Qed.

Lemma flat_map_groups {B : Type}
  (f : string * list transaction_with_account -> list B)
  (G : string -> list transaction_with_account) (ks : list string) :
  flat_map f (map (fun k => (k, G k)) ks) = flat_map (fun k => f (k, G k)) ks.
Proof.
  induction ks as [|k ks IH]; simpl; [reflexivity|]. rewrite IH. reflexivity.
Qed.

(** The results of one symbol inside the grouped output. *)
Lemma stamps_of_symbol (F : string -> list transaction_with_account)
  (ks : list string) (s : string) :
  NoDup ks ->
  map snd (filter (fun p : string * date => p.1 = s)
             (flat_map (fun k => map (fun t => (k, tx_date t)) (F k)) ks))
  = if decide (s ∈ ks) then map tx_date (F s) else [].
Proof.
  assert (Hone : forall k L,
    filter (fun p : string * date => p.1 = s)
           (map (fun t : transaction_with_account => (k, tx_date t)) L)
    = if decide (k = s) then map (fun t => (k, tx_date t)) L else []).
  { intros k L. induction L as [|t L IHL]; simpl.
    - destruct (decide (k = s)); reflexivity.
    - rewrite filter_cons. simpl. rewrite IHL.
      destruct (decide (k = s)); reflexivity. }
  induction 1 as [|k ks Hk Hnd IH]; cbn [flat_map].
  - rewrite decide_False by apply not_elem_of_nil. reflexivity.
  - rewrite filter_app, map_app, IH, Hone.
    destruct (decide (k = s)) as [->|Hne].
    + destruct (decide (s ∈ ks)) as [?|_]; [contradiction|].
      destruct (decide (s ∈ s :: ks)) as [_|Hn]; [|exfalso; apply Hn; left].
      rewrite app_nil_r, map_map. reflexivity.
    + cbn [map app].
      destruct (decide (s ∈ ks)) as [Hin|Hout];
        destruct (decide (s ∈ k :: ks)) as [Hin'|Hout']; try reflexivity.
      * exfalso. apply Hout'. right. assumption.
      * exfalso. apply elem_of_cons in Hin' as [E|Hin']; [congruence|tauto].
Qed.

Lemma filter_stamp (s : string) (rs : list sell_result) :
  map sell_date (filter (fun r => r_symbol r = s) rs)
  = map snd (filter (fun p : string * date => p.1 = s) (map record_stamp rs)).
Proof.
  induction rs as [|r rs IH]; simpl; [reflexivity|].
  rewrite !filter_cons. simpl.
  destruct (decide (r_symbol r = s)); simpl; rewrite IH; reflexivity.
Qed.

Lemma sells_of_chronological (s : string) (accounts : list account) :
  chronological (map tx_date (sells_of s (sorted_transactions accounts))).
Proof.
  unfold chronological, sells_of, sorted_transactions.
  apply (StronglySorted_fmap tx_date
           (fun a b => date_le (tx_date a) (tx_date b)) date_le).
  { intros a b H. exact H. }
  apply StronglySorted_filter_keep, StronglySorted_filter_keep.
  apply sort_by_date_sorted.
Qed.

Lemma sort_by_date_Forall {A : Type} (key : A -> date) (P : A -> Prop)
  (l : list A) :
  Forall P l -> Forall P (sort_by_date key l).
Proof.
  induction 1 as [|x l Hx _ IH]; simpl; [constructor|].
  apply Forall_insert_sorted. split; assumption.
Qed.

(** ** C5: one result per sell, and their order *)

(** C5, as the specification states it, fails: with two symbols whose sells
    interleave, the results come out symbol by symbol; the sell of
    2024-01-04 comes before the sell of 2024-01-03. *)
Lemma analyzer_not_chronological :
  exists r1 r2,
    analyze_sell_transactions interleaved_portfolio = Ok [r1; r2]
    /\ record_stamp r1 = ("AAA", mkDate 4 1 2024)
    /\ record_stamp r2 = ("BBB", mkDate 3 1 2024)
    /\ ~ chronological (map sell_date [r1; r2]).
Proof.
  eexists. eexists. split; [vm_compute; reflexivity|].
  split; [reflexivity|]. split; [reflexivity|].
  intros H. apply StronglySorted_inv in H as [_ H].
  apply Forall_inv in H. discriminate H.
Qed.

(** C5 (amended): when every sell carries a currency the analyzer returns
    exactly one result per sell transaction.  The results are grouped by
    symbol: the symbols come in the order of their first transaction in the
    date-sorted stream, and the results of one symbol are in chronological
    order of its sells.  The sequence as a whole is not ordered by date. *)
Theorem analyzer_output_order (accounts : list account) :
  sells_have_currency accounts = true ->
  exists rs,
    analyze_sell_transactions accounts = Ok rs
    /\ length rs = length (filter tx_is_sell (collect_transactions accounts))
    /\ map record_stamp rs
       = flat_map (fun s => map (fun t => (s, tx_date t))
                                (sells_of s (sorted_transactions accounts)))
                  (symbol_order (map tx_symbol (sorted_transactions accounts)))
    /\ forall s,
         chronological (map sell_date (filter (fun r => r_symbol r = s) rs)).
Proof.
  intros Hcur.
  set (sorted := sorted_transactions accounts).
  assert (Hall : Forall (fun t => is_sell (tx t) = true ->
                                  is_Some (currency (tx t))) sorted).
  { apply sort_by_date_Forall. apply List.Forall_forall. intros t Hin Hs.
    unfold sells_have_currency in Hcur. rewrite forallb_forall in Hcur.
    specialize (Hcur t Hin). rewrite Hs in Hcur.
    apply bool_decide_eq_true in Hcur. exact Hcur. }
  assert (Hgroups : Forall (fun g => Forall (fun t => is_sell (tx t) = true ->
                                       is_Some (currency (tx t))) g.2)
                           (groups_of sorted)).
  { unfold groups_of. apply Forall_fmap, Forall_forall. intros k _. simpl.
    apply Forall_forall. intros t Ht.
    apply list_elem_of_filter in Ht as [_ Ht].
    rewrite Forall_forall in Hall. auto. }
  destruct (analyze_groups_ok _ Hgroups []) as (rs & Hrun & Hstamps).
  exists rs.
  assert (Hrun' : analyze_sell_transactions accounts = Ok rs).
  { unfold analyze_sell_transactions.
    change (sort_by_date (fun t => tdate (tx t)) (collect_transactions accounts))
      with sorted.
    rewrite group_by_symbol_spec. exact Hrun. }
  assert (Hst : map record_stamp rs
                = flat_map (fun s => map (fun t => (s, tx_date t))
                                         (sells_of s sorted))
                           (symbol_order (map tx_symbol sorted))).
  { rewrite Hstamps. unfold groups_of. rewrite flat_map_groups. reflexivity. }
  split; [exact Hrun'|]. split; [|split; [exact Hst|]].
  - rewrite <- (length_map record_stamp rs), Hstamps.
    rewrite (flat_map_map_length (fun g => filter tx_is_sell g.2)
               (fun g t => (g.1, tx_date t))).
    rewrite <- group_by_symbol_spec, group_by_symbol_sells.
    apply sort_by_date_filter_length.
  - intros s. rewrite filter_stamp, Hst.
    rewrite (stamps_of_symbol (fun k => sells_of k sorted)) by
      apply symbol_order_NoDup.
    destruct (decide (s ∈ symbol_order (map tx_symbol sorted))).
    + apply sells_of_chronological.
    + constructor.
Qed.

Lemma analyzer_output_order_witness :
  exists rs,
    analyze_sell_transactions interleaved_portfolio = Ok rs
    /\ length rs = 2%nat
    /\ forall s,
         chronological (map sell_date (filter (fun r => r_symbol r = s) rs)).
Proof.
  destruct (analyzer_output_order interleaved_portfolio eq_refl)
    as (rs & Hrun & Hlen & _ & Hchron).
  exists rs. split; [exact Hrun|]. split; [exact Hlen|exact Hchron].
Defined.

(** ** C9: results without a current price *)

(** C9: a result whose symbol has no current price (the symbol is missing
    from the prices, or its price is [None]) gets [None] in the six fields
    [current_price], [current_market_value], [current_net_proceeds],
    [unrealized_pnl], [unrealized_pnl_pct] and [opportunity_difference], not
    zero; a result whose symbol has a price gets numbers, with
    [opportunity_difference = unrealized_pnl - realized_pnl]. *)
Theorem unrealized_pnl_unset_without_price (sell_results : list sell_result)
  (current_prices : gmap string (option Q)) (i : nat) (r : sell_result) :
  sell_results !! i = Some r ->
  exists a,
    calculate_unrealized_pnl sell_results current_prices !! i = Some a
    /\ base a = r
    /\ (mjoin (current_prices !! r_symbol r) = None ->
        current_price a = None
        /\ current_market_value a = None
        /\ current_net_proceeds a = None
        /\ unrealized_pnl a = None
        /\ unrealized_pnl_pct a = None
        /\ opportunity_difference a = None)
    /\ (forall p, mjoin (current_prices !! r_symbol r) = Some p ->
        exists u,
          current_price a = Some p
          /\ current_market_value a = Some (shares_sold r * p)
          /\ current_net_proceeds a = Some (shares_sold r * p - fees r)
          /\ unrealized_pnl a = Some u
          /\ u = shares_sold r * p - fees r - total_cost_basis r
          /\ opportunity_difference a = Some (u - realized_pnl r)).
Proof.
  intros Hi. exists (unrealized_pnl_of current_prices r).
  split.
  { unfold calculate_unrealized_pnl.
    change (map (unrealized_pnl_of current_prices) sell_results)
      with (unrealized_pnl_of current_prices <$> sell_results).
    rewrite list_lookup_fmap, Hi. reflexivity. }
  unfold unrealized_pnl_of.
  destruct (mjoin (current_prices !! r_symbol r)) as [p|]; simpl.
  - split; [reflexivity|]. split; [discriminate|].
    intros p' [= <-]. eexists. repeat split; reflexivity.
  - split; [reflexivity|]. split; [intros _; repeat split; reflexivity|].
    discriminate.
Qed.

Lemma unrealized_pnl_unset_without_price_witness :
  exists a,
    calculate_unrealized_pnl [scenario_result] ∅ !! 0%nat = Some a
    /\ current_price a = None
    /\ opportunity_difference a = None.
Proof.
  destruct (unrealized_pnl_unset_without_price [scenario_result] ∅ 0
              scenario_result eq_refl) as (a & Ha & _ & Hnone & _).
  exists a. split; [exact Ha|].
  destruct (Hnone eq_refl) as (H1 & _ & _ & _ & _ & H6).
  split; assumption.
Defined.

(** ** C6: currency conversion *)

Lemma convert_zero_test (x : Q) :
  (negb (truthy x) || Qeq_bool x 0)%bool = Qeq_bool x 0.
Proof. unfold truthy. rewrite negb_involutive. apply orb_diag. Qed.

(** C6: converting to USD from ["$"] and to EUR from ["€"] returns the
    amount; converting 0 returns 0 whatever the currency; and for a currency
    code that the rate table does not have, both conversions use rate 1.0
    and return the amount.  (The table of [convert_to_eur] is the nested
    ['EUR_RATES'] dict, or the empty dict when that key is missing.) *)
Theorem conversion_identities (x : Q) (c : string)
  (exchange_rates : gmap string rate_entry) :
  (exists y, convert_to_usd x "$" exchange_rates = Ok y /\ y == x)
  /\ (exists y, convert_to_eur x "€" exchange_rates = Ok y /\ y == x)
  /\ (x == 0 -> convert_to_usd x c exchange_rates = Ok 0
                /\ convert_to_eur x c exchange_rates = Ok 0)
  /\ (exchange_rates !! currency_map c = None ->
      exists y, convert_to_usd x c exchange_rates = Ok y /\ y == x)
  /\ (forall eur_rates,
        exchange_rates !! "EUR_RATES" = Some (RateTable eur_rates) ->
        eur_rates !! currency_map c = None ->
        exists y, convert_to_eur x c exchange_rates = Ok y /\ y == x)
  /\ (exchange_rates !! "EUR_RATES" = None ->
      exists y, convert_to_eur x c exchange_rates = Ok y /\ y == x).
Proof.
  unfold convert_to_usd, convert_to_eur. rewrite !convert_zero_test.
  destruct (Qeq_bool x 0) eqn:E0.
  - apply Qeq_bool_iff in E0.
    assert (Hz : exists y : Q, Ok 0 = Ok y /\ y == x)
      by (exists 0; split; [reflexivity|symmetry; exact E0]).
    repeat split; auto.
  - assert (Hx : exists y : Q, Ok x = Ok y /\ y == x)
      by (exists x; split; reflexivity).
    assert (H1 : exists y : Q, Ok (x * 1.0) = Ok y /\ y == x)
      by (exists (x * 1.0); split; [reflexivity|ring]).
    split; [exact Hx|]. split; [exact Hx|].
    split; [intros H0; apply Qeq_bool_neq in E0; contradiction|].
    split; [|split].
    + intros Hnone. destruct (String.eqb (currency_map c) "USD"); [exact Hx|].
      rewrite Hnone. exact H1.
    + intros eur_rates Htable Hnone.
      destruct (String.eqb (currency_map c) "EUR"); [exact Hx|].
      rewrite Htable, Hnone. exact H1.
    + intros Hnone. destruct (String.eqb (currency_map c) "EUR"); [exact Hx|].
      rewrite Hnone. exact H1.
Qed.

Lemma conversion_identities_witness :
  (exists y, convert_to_usd 100 "CHF" static_exchange_rates = Ok y /\ y == 100)
  /\ (exists y, convert_to_eur 100 "CHF" static_exchange_rates = Ok y
                /\ y == 100).
Proof.
  destruct (conversion_identities 100 "CHF" static_exchange_rates)
    as (_ & _ & _ & Husd & Heur & _).
  split.
  - apply Husd. vm_compute. reflexivity.
  - eapply Heur; vm_compute; reflexivity.
Defined.

(** ** The valuation loop of [compute_portfolio_performance] *)

Lemma py_sum_spec (l : list Q) : py_sum l == Qsum l.
Proof.
  unfold py_sum.
  assert (H : forall a, fold_left Qplus l a == a + Qsum l).
  { induction l as [|x l IH]; intros a; simpl; [ring|]. rewrite IH. ring. }
  rewrite H. ring.
Qed.

Lemma filter_all {A : Type} (P : A -> Prop) `{!forall x, Decision (P x)}
  (l : list A) :
  (forall x, x ∈ l -> P x) -> filter P l = l.
Proof.
  induction l as [|x l IH]; intros Hall; [reflexivity|].
  rewrite filter_cons, decide_True by (apply Hall; left).
  f_equal. apply IH. intros y Hy. apply Hall. right. exact Hy.
Qed.

Section Valuation.
Variable now : date.
Variable real_time_data : gmap string (option Q).
Variable get_historical_price : string -> date -> option Q.
Variable use_current_prices : bool.
Variable target_date : date.
Variable exchange_rates : gmap string rate_entry.

(** On a symbol that the price cache does not have, the lookup gives the
    price of [held_price] and touches no other entry of the cache. *)
Lemma lookup_price_fresh (price_cache : gmap string Q) (sym : string)
  (h : holding) :
  price_cache !! sym = None ->
  exists cache',
    lookup_price real_time_data get_historical_price use_current_prices
                 target_date price_cache sym h
    = (held_price real_time_data get_historical_price use_current_prices
                  target_date (sym, h), cache')
    /\ forall k, k <> sym -> cache' !! k = price_cache !! k.
Proof.
  intros Hfresh. unfold lookup_price, held_price. simpl.
  destruct (if use_current_prices then mjoin (real_time_data !! sym) else None)
    as [p|].
  - eexists. split; [reflexivity|]. intros k Hk.
    destruct (truthy p); [apply lookup_insert_ne; congruence|reflexivity].
  - rewrite Hfresh. eexists. split; [reflexivity|].
    intros k Hk. apply lookup_insert_ne. congruence.
Qed.

Lemma value_holding_eq (price_cache : gmap string Q)
  (portfolio_value : Q) (gains : list Q) (sym : string) (h : holding) :
  value_holding real_time_data get_historical_price use_current_prices
                target_date exchange_rates
                (price_cache, portfolio_value, gains) (sym, h)
  = (let '(current_price, cache1) :=
       lookup_price real_time_data get_historical_price use_current_prices
                    target_date price_cache sym h in
     price_usd ← convert_to_usd current_price (h_currency h) exchange_rates;
     Ok (cache1, portfolio_value + total_shares h * price_usd,
         if Qlt_bool 0 (weighted_avg_cost h)
         then gains ++ [(current_price - weighted_avg_cost h)
                        / weighted_avg_cost h]
         else gains)).
Proof. reflexivity. Qed.

(** The list of gain ratios after the loop: one ratio for each held
    symbol with a positive average cost. *)
Lemma value_holdings_ratios (items : list (string * holding)) :
  NoDup (items.*1) ->
  forall price_cache portfolio_value gains cache' value' gains',
    (forall k, k ∈ items.*1 -> price_cache !! k = None) ->
    foldM (value_holding real_time_data get_historical_price
                         use_current_prices target_date exchange_rates)
          items (price_cache, portfolio_value, gains)
    = Ok (cache', value', gains') ->
    gains' = gains ++ map (gain_ratio real_time_data get_historical_price
                                      use_current_prices target_date)
                          (filter positive_cost items).
Proof.
  induction items as [|[sym h] items IH]; intros Hnd cache pv gains
    cache' pv' gains' Hfresh Hrun.
  - injection Hrun as _ _ <-. rewrite app_nil_r. reflexivity.
  - rewrite foldM_cons in Hrun.
    apply NoDup_cons in Hnd as [Hsym Hnd].
    destruct (lookup_price_fresh cache sym h) as (cache1 & Hlook & Hother).
    { apply Hfresh. left. }
    rewrite value_holding_eq, Hlook in Hrun.
    destruct (convert_to_usd
                (held_price real_time_data get_historical_price
                            use_current_prices target_date (sym, h))
                (h_currency h) exchange_rates) as [price_usd|e];
      [|discriminate].
    rewrite !bind_Ok in Hrun.
    apply IH in Hrun; [|assumption|].
    + rewrite Hrun, filter_cons.
      destruct (decide (positive_cost (sym, h))) as [Hp|Hp];
        unfold positive_cost in Hp; simpl in Hp.
      * rewrite Hp, <- app_assoc. reflexivity.
      * apply not_true_is_false in Hp. rewrite Hp. reflexivity.
    + intros k Hk. rewrite Hother.
      * apply Hfresh. right. exact Hk.
      * intros ->. contradiction.
Qed.
End Valuation.

(** ** Positive prices give positive average costs *)

Lemma sell_fifo_priced (r : Q) (q : list lot) :
  lots_priced q -> lots_priced (sell_fifo r q).
Proof.
  intros Hq. revert r. induction Hq as [|l q Hl Hq IH]; intros r; simpl.
  - constructor.
  - destruct (Qlt_bool 0 r); [|constructor; assumption].
    destruct (Qle_bool (lot_shares l) r); [apply IH|].
    constructor; [exact Hl|exact Hq].
Qed.

Lemma sum_cost_nonneg (q : list lot) :
  lots_nonneg q -> lots_priced q -> 0 <= sum_cost q.
Proof.
  induction 1 as [|l q Hl _ IH]; intros Hp; simpl; [lra|].
  apply Forall_cons in Hp as [Hpl Hpq]. specialize (IH Hpq).
  assert (0 <= lot_shares l * lot_price l) by (apply Qmult_le_0_compat; lra).
  lra.
Qed.

Lemma sum_cost_pos (q : list lot) :
  lots_nonneg q -> lots_priced q -> 0 < sum_shares q -> 0 < sum_cost q.
Proof.
  induction 1 as [|l q Hl Hq IH]; intros Hp Hsum; simpl in *; [lra|].
  apply Forall_cons in Hp as [Hpl Hpq].
  pose proof (sum_cost_nonneg q Hq Hpq) as Hc.
  destruct (Qlt_le_dec 0 (lot_shares l)) as [Hpos|Hzero].
  - assert (0 < lot_shares l * lot_price l)
      by (apply Qmult_lt_0_compat; assumption).
    lra.
  - assert (0 <= lot_shares l * lot_price l)
      by (apply Qmult_le_0_compat; lra).
    assert (0 < sum_cost q) by (apply IH; [assumption|lra]).
    lra.
Qed.

Lemma well_priced_Forall (txs : list transaction) :
  Forall (fun t => well_priced t = true) txs ->
  buys_nonneg txs = true
  /\ Forall (fun t => is_buy t = true -> 0 < price t) txs.
Proof.
  induction 1 as [|t txs Ht _ [IH1 IH2]]; [split; [reflexivity|constructor]|].
  unfold well_priced in Ht. split.
  - simpl. rewrite IH1, andb_true_r.
    destruct (is_buy t); [|reflexivity].
    apply andb_true_iff in Ht. tauto.
  - constructor; [|exact IH2]. intros Hb. rewrite Hb in Ht.
    apply andb_true_iff in Ht as [_ Ht]. apply Qlt_bool_true. exact Ht.
Qed.

Lemma replay_lots_priced (txs : list transaction) (hd : gmap string holding) :
  replay ∅ txs = Ok hd ->
  Forall (fun t => is_buy t = true -> 0 < price t) txs ->
  forall s, lots_priced (lots (get_holding hd s)).
Proof.
  revert txs hd.
  apply (replay_ind (fun txs hd =>
    Forall (fun t => is_buy t = true -> 0 < price t) txs ->
    forall s, lots_priced (lots (get_holding hd s)))).
  - intros _ s. constructor.
  - intros txs t hd hd' _ IH Ht Hp s.
    apply Forall_app in Hp as [Hp Hlast]. apply Forall_inv in Hlast.
    specialize (IH Hp).
    apply process_transaction_inv in Ht as (h' & -> & Hlots).
    destruct (decide (symbol t = s)) as [<-|Hne].
    + rewrite get_holding_insert. simpl. rewrite Hlots.
      unfold next_lots. destruct (is_buy t).
      * apply Forall_app. split; [apply IH|].
        constructor; [simpl; auto|constructor].
      * destruct (is_sell t); [apply sell_fifo_priced|]; apply IH.
    + rewrite get_holding_insert_ne by assumption. apply IH.
Qed.

(** A ledger whose buys have positive prices leaves every held symbol with
    a positive average cost. *)
Lemma held_cost_positive (txs : list transaction)
  (out : gmap string holding) :
  process_transactions ∅ txs = Ok out ->
  Forall (fun t => well_priced t = true) txs ->
  forall s h, out !! s = Some h -> 0 < weighted_avg_cost h.
Proof.
  intros Hrun Hwp s h Hs.
  apply well_priced_Forall in Hwp as [Hnn Hp].
  apply process_transactions_Ok in Hrun as (hd & Hrun & ->).
  apply prune_lookup_Some in Hs as [Hs Hpos].
  pose proof (replay_lots_nonneg _ _ Hrun Hnn s) as Hq.
  pose proof (replay_lots_priced _ _ Hrun Hp s) as Hpr.
  unfold get_holding in Hq, Hpr. rewrite Hs in Hq, Hpr. simpl in Hq, Hpr.
  pose proof (replay_recomputed _ _ Hrun s h Hs) as Hrec.
  apply recomputed_totals in Hrec as (Hts & Htc & Hw).
  rewrite Hw. apply Qlt_bool_true in Hpos as Hb. rewrite Hb.
  apply Qlt_shift_div_l; [exact Hpos|].
  rewrite Htc. ring_simplify. apply sum_cost_pos; [assumption..|].
  rewrite <- Hts. exact Hpos.
Qed.

Lemma ledger_priced_holdings (accounts : list account) (target_date : date)
  (holdings : gmap string holding) :
  ledger_priced accounts = true ->
  holdings_at accounts target_date = Ok holdings ->
  forall s h, holdings !! s = Some h -> 0 < weighted_avg_cost h.
Proof.
  unfold ledger_priced, holdings_at. intros Hall Hrun.
  eapply held_cost_positive; [exact Hrun|].
  apply sort_by_date_Forall.
  rewrite forallb_forall in Hall.
  apply Forall_forall. intros t Ht. apply Hall.
  apply list_elem_of_In in Ht. apply in_flat_map in Ht as (a & Ha & Ht).
  apply in_flat_map. exists a. split; [exact Ha|].
  apply list_elem_of_In in Ht. apply list_elem_of_filter in Ht as [_ Ht].
  apply list_elem_of_In. exact Ht.
Qed.

(** ** The month loop of [create_performance_analysis] *)

Lemma avg_is_mean (gains : list Q) :
  match gains with
  | [] => 0
  | _ => py_sum gains / Qlen gains
  end == mean gains.
Proof.
  unfold mean. destruct gains as [|g gains]; [reflexivity|].
  rewrite py_sum_spec. reflexivity.
Qed.

Lemma compound_snoc (l : list Q) (r : Q) :
  compound (l ++ [r]) == compound l * (1 + r).
Proof.
  induction l as [|x l IH]; simpl; [ring|]. rewrite IH. ring.
Qed.

Lemma last_close_snoc (closes : list (option Q)) (c : option Q) :
  last_close (closes ++ [c])
  = if truthy_opt c then c else last_close closes.
Proof.
  unfold last_close. rewrite filter_app, filter_cons, filter_nil.
  destruct (decide (truthy_opt c = true)) as [Ht|Ht].
  - rewrite Ht, last_snoc. reflexivity.
  - apply not_true_is_false in Ht. rewrite Ht, app_nil_r. reflexivity.
Qed.

Lemma last_close_truthy (closes : list (option Q)) (c : Q) :
  last_close closes = Some c -> truthy c = true.
Proof.
  induction closes as [|x closes IH] using rev_ind; [discriminate|].
  rewrite last_close_snoc. destruct (truthy_opt x) eqn:E; [|exact IH].
  intros ->. exact E.
Qed.

Section Series.
Variable now : date.
Variable real_time_data : gmap string (option Q).
Variable get_historical_price : string -> date -> option Q.
Variable accounts : list account.
Variable exchange_rates : gmap string rate_entry.

Local Abbreviation performance_of ym :=
  (compute_portfolio_performance now real_time_data get_historical_price
     accounts ym.2 ym.1 exchange_rates).
Local Abbreviation month_step :=
  (performance_month now real_time_data get_historical_price accounts
     exchange_rates).
Local Abbreviation close ym := (close_of now get_historical_price ym).
Local Abbreviation inv :=
  (loop_inv now real_time_data get_historical_price accounts exchange_rates).
Local Abbreviation sound := (cache_sound now get_historical_price).
Local Abbreviation next := (next_state now get_historical_price).

(** The average of a month is the mean of the gain ratios of the held
    symbols that have a positive average cost. *)
Lemma compute_performance_avg (ym : nat * nat) (perf : performance) :
  performance_of ym = Ok perf ->
  exists holdings,
    holdings_at accounts (target_date_of now ym.1 ym.2) = Ok holdings
    /\ holdings_count perf = size holdings
    /\ avg_pct_gain_loss perf
       == mean (map (gain_ratio real_time_data get_historical_price
                       (is_current_month now ym.1 ym.2)
                       (target_date_of now ym.1 ym.2))
                    (filter positive_cost (map_to_list holdings))).
Proof.
  unfold compute_portfolio_performance.
  destruct (holdings_at accounts (target_date_of now ym.1 ym.2))
    as [holdings|e]; [|discriminate].
  rewrite bind_Ok.
  destruct (foldM _ (map_to_list holdings) (∅, 0, []))
    as [[[cache value] gains]|e] eqn:Hrun; [|discriminate].
  rewrite bind_Ok. intros [= <-]. exists holdings.
  split; [reflexivity|]. split; [reflexivity|]. simpl.
  apply value_holdings_ratios in Hrun.
  - simpl in Hrun. rewrite <- Hrun. apply avg_is_mean.
  - apply NoDup_fst_map_to_list.
  - intros k _. apply lookup_empty.
Qed.

(** One month of the loop. *)
Lemma performance_month_Ok (st st' : loop_state) (ym : nat * nat) :
  sound st ->
  month_step st ym = Ok st' ->
  exists perf, performance_of ym = Ok perf /\ st' = next st ym perf.
Proof.
  intros Hsound. unfold performance_month. destruct ym as [y m]. simpl.
  destruct (compute_portfolio_performance now real_time_data
              get_historical_price accounts m y exchange_rates)
    as [perf|e]; [|discriminate].
  rewrite bind_Ok. intros Hst. exists perf. split; [reflexivity|].
  unfold next_state, close_of. simpl.
  destruct (sp500_cache st !! (y, m)) as [c|] eqn:Hc.
  - apply Hsound in Hc. unfold close_of in Hc. simpl in Hc. subst c.
    injection Hst as <-. reflexivity.
  - injection Hst as <-. reflexivity.
Qed.

Lemma loop_inv_init : inv [] initial_loop_state.
Proof.
  unfold loop_inv.
  split; [reflexivity|]. split; [reflexivity|]. split; [reflexivity|].
  split; [reflexivity|]. split; [reflexivity|]. split.
  - intros ym c Hc. simpl in Hc. rewrite lookup_empty in Hc. discriminate.
  - split; reflexivity.
Qed.

Lemma loop_inv_step (done : list (nat * nat)) (st : loop_state)
  (ym : nat * nat) (perf : performance) :
  inv done st -> performance_of ym = Ok perf ->
  inv (done ++ [ym]) (next st ym perf).
Proof.
  intros (Hlen & Havg & Hclose & Hcf & Hbf & Hsound & _) Hperf.
  unfold loop_inv, next_state. simpl.
  split; [|split; [|split; [|split; [|split; [|split]]]]].
  - rewrite !length_app, Hlen. reflexivity.
  - rewrite last_snoc. simpl. unfold avg_of. rewrite Hperf. reflexivity.
  - rewrite map_app. simpl. rewrite last_close_snoc, Hclose. reflexivity.
  - rewrite map_app. simpl map. rewrite compound_snoc, Hcf. reflexivity.
  - rewrite map_app. simpl map. rewrite compound_snoc, Hbf. reflexivity.
  - intros k c. unfold cache_sound in Hsound. simpl.
    destruct (sp500_cache st !! ym) eqn:E; [apply Hsound|].
    rewrite lookup_insert_Some. intros [[<- <-]|[_ Hk]]; [reflexivity|].
    apply Hsound. exact Hk.
  - rewrite last_snoc. split; reflexivity.
Qed.

Lemma loop_inv_sound (done : list (nat * nat)) (st : loop_state) :
  inv done st -> sound st.
Proof. intros (_ & _ & _ & _ & _ & H & _). exact H. Qed.

Lemma loop_inv_run (rest : list (nat * nat)) :
  forall done st st',
    inv done st -> foldM month_step rest st = Ok st' ->
    inv (done ++ rest) st'.
Proof.
  induction rest as [|ym rest IH]; intros done st st' Hinv Hrun.
  - injection Hrun as <-. rewrite app_nil_r. exact Hinv.
  - rewrite foldM_cons in Hrun.
    destruct (month_step st ym) as [st1|e] eqn:Hstep; [|discriminate].
    rewrite bind_Ok in Hrun.
    apply performance_month_Ok in Hstep as (perf & Hperf & ->);
      [|eapply loop_inv_sound; exact Hinv].
    change (done ++ ym :: rest) with (done ++ [ym] ++ rest).
    rewrite app_assoc. eapply IH; [|exact Hrun].
    apply loop_inv_step; assumption.
Qed.

Lemma rows_extend (rest : list (nat * nat)) :
  forall done st st',
    inv done st -> foldM month_step rest st = Ok st' ->
    exists more, rows st' = rows st ++ more.
Proof.
  induction rest as [|ym rest IH]; intros done st st' Hinv Hrun.
  - injection Hrun as <-. exists []. rewrite app_nil_r. reflexivity.
  - rewrite foldM_cons in Hrun.
    destruct (month_step st ym) as [st1|e] eqn:Hstep; [|discriminate].
    rewrite bind_Ok in Hrun.
    apply performance_month_Ok in Hstep as (perf & Hperf & ->);
      [|eapply loop_inv_sound; exact Hinv].
    destruct (IH (done ++ [ym]) _ _ (loop_inv_step _ _ _ _ Hinv Hperf) Hrun)
      as [more Hmore].
    exists (next_row now get_historical_price st ym perf :: more).
    rewrite Hmore. simpl. rewrite <- app_assoc. reflexivity.
Qed.

(** The row of month [i]: written from the state the loop has after the
    first [i] months, and left alone afterwards. *)
Lemma row_at (months : list (nat * nat)) (out : list performance_row)
  (i : nat) (ym : nat * nat) (row : performance_row) :
  create_performance_analysis now real_time_data get_historical_price
    accounts exchange_rates months = Ok out ->
  months !! i = Some ym -> out !! i = Some row ->
  exists st perf,
    inv (take i months) st
    /\ performance_of ym = Ok perf
    /\ row = next_row now get_historical_price st ym perf
    /\ take i out = rows st.
Proof.
  unfold create_performance_analysis. intros Hrun Hym Hrow.
  destruct (foldM month_step months initial_loop_state) as [s_end|e] eqn:Hloop;
    [|discriminate].
  injection Hrun as <-.
  rewrite <- (take_drop_middle months i ym Hym), foldM_app in Hloop.
  destruct (foldM month_step (take i months) initial_loop_state)
    as [st|e] eqn:Hpre; [|discriminate].
  rewrite bind_Ok, foldM_cons in Hloop.
  pose proof (loop_inv_run _ [] _ _ loop_inv_init Hpre) as Hinv.
  simpl in Hinv.
  destruct (month_step st ym) as [st1|e] eqn:Hstep; [|discriminate].
  rewrite bind_Ok in Hloop.
  apply performance_month_Ok in Hstep as (perf & Hperf & ->);
    [|eapply loop_inv_sound; exact Hinv].
  destruct (rows_extend _ _ _ _ (loop_inv_step _ _ _ _ Hinv Hperf) Hloop)
    as [more Hmore].
  cbn [next_state rows] in Hmore. rewrite <- app_assoc in Hmore.
  cbn [app] in Hmore.
  assert (Hlen : length (rows st) = i).
  { destruct Hinv as (Hlen & _). rewrite Hlen, length_take.
    apply lookup_lt_Some in Hym. lia. }
  exists st, perf. split; [exact Hinv|]. split; [exact Hperf|]. split.
  - rewrite Hmore in Hrow. rewrite <- Hlen in Hrow.
    rewrite list_lookup_middle in Hrow by reflexivity.
    injection Hrow as <-. reflexivity.
  - rewrite Hmore, <- Hlen. apply take_app_length.
Qed.
End Series.

Lemma series_length (now : date) (real_time_data : gmap string (option Q))
  (get_historical_price : string -> date -> option Q)
  (accounts : list account) (exchange_rates : gmap string rate_entry)
  (months : list (nat * nat)) (out : list performance_row) :
  create_performance_analysis now real_time_data get_historical_price
    accounts exchange_rates months = Ok out ->
  length out = length months.
Proof.
  unfold create_performance_analysis.
  destruct (foldM _ months initial_loop_state) as [s_end|e] eqn:Hloop;
    [|discriminate].
  intros [= <-].
  pose proof (loop_inv_run _ _ _ _ _ _ [] _ _
                (loop_inv_init _ _ _ _ _) Hloop) as (Hlen & _).
  exact Hlen.
Qed.

Lemma last_take_S {A : Type} (l : list A) (j : nat) (x : A) :
  l !! j = Some x -> last (take (S j) l) = Some x.
Proof. intros H. rewrite (take_S_r l j x H). apply last_snoc. Qed.

(** ** C7: the monthly return *)

(** C7, as the specification states it, fails on a portfolio that holds a
    symbol with the average cost 0: with ACME bought at 100 and priced 110
    at the end of January, and FREE bought at 0, two symbols are held and
    counted, and [avg_pct_gain_loss] is 1/10, the ratio of ACME alone: FREE
    is in neither the sum nor the divisor, so the average is not the mean
    over the two symbols held. *)
Lemma zero_cost_holding_left_out :
  exists perf holdings free,
    compute_portfolio_performance demo_now demo_real_time demo_history
      zero_cost_portfolio 1 2024 static_exchange_rates = Ok perf
    /\ holdings_at zero_cost_portfolio (target_date_of demo_now 2024 1)
       = Ok holdings
    /\ size holdings = 2%nat
    /\ holdings_count perf = 2%nat
    /\ holdings !! "FREE" = Some free
    /\ weighted_avg_cost free == 0
    /\ avg_pct_gain_loss perf == 1 # 10
    /\ ~ avg_pct_gain_loss perf
         == mean (month_ratios demo_now demo_real_time demo_history
                               (2024, 1)%nat holdings).
Proof.
  eexists. eexists. eexists.
  split; [vm_compute; reflexivity|].
  split; [vm_compute; reflexivity|].
  split; [vm_compute; reflexivity|].
  split; [reflexivity|].
  split; [vm_compute; reflexivity|].
  split; [reflexivity|].
  split; [reflexivity|].
  vm_compute. discriminate.
Qed.

(** C7 (amended): for each month of the series, [avg_pct_gain_loss] is the
    unweighted mean of
    [(current_price - weighted_avg_cost) / weighted_avg_cost] over the
    symbols held at the month's cutoff that have a positive average cost (0
    when there is none); a held symbol whose average cost is not positive is
    in neither the sum nor the divisor.  These are all the held symbols as
    soon as each has a positive average cost, and it is so when every buy
    of the ledger has a positive price.  [monthly_return] is the month's
    average minus the average of the month before; for the first month it
    is the average itself. *)
Theorem monthly_return_from_average (now : date)
  (real_time_data : gmap string (option Q))
  (get_historical_price : string -> date -> option Q)
  (accounts : list account) (exchange_rates : gmap string rate_entry)
  (months : list (nat * nat)) (out : list performance_row)
  (i : nat) (ym : nat * nat) (row : performance_row) :
  create_performance_analysis now real_time_data get_historical_price
    accounts exchange_rates months = Ok out ->
  months !! i = Some ym ->
  out !! i = Some row ->
  exists perf holdings,
    compute_portfolio_performance now real_time_data get_historical_price
      accounts ym.2 ym.1 exchange_rates = Ok perf
    /\ holdings_at accounts (target_date_of now ym.1 ym.2) = Ok holdings
    /\ avg_pct_gain_loss perf
       == mean (map (gain_ratio real_time_data get_historical_price
                       (is_current_month now ym.1 ym.2)
                       (target_date_of now ym.1 ym.2))
                    (filter positive_cost (map_to_list holdings)))
    /\ ((forall s h, holdings !! s = Some h -> 0 < weighted_avg_cost h) ->
        avg_pct_gain_loss perf
        == mean (month_ratios now real_time_data get_historical_price
                              ym holdings))
    /\ (ledger_priced accounts = true ->
        avg_pct_gain_loss perf
        == mean (month_ratios now real_time_data get_historical_price
                              ym holdings))
    /\ (i = 0%nat -> monthly_return row = avg_pct_gain_loss perf)
    /\ (forall j prev_ym prev,
          i = S j -> months !! j = Some prev_ym ->
          compute_portfolio_performance now real_time_data
            get_historical_price accounts prev_ym.2 prev_ym.1 exchange_rates
          = Ok prev ->
          monthly_return row
          = avg_pct_gain_loss perf - avg_pct_gain_loss prev).
Proof.
  intros Hrun Hym Hrow.
  destruct (row_at _ _ _ _ _ _ _ _ _ _ Hrun Hym Hrow)
    as (st & perf & Hinv & Hperf & -> & Hrows).
  destruct (compute_performance_avg _ _ _ _ _ _ _ Hperf)
    as (holdings & Hheld & _ & Havg).
  destruct Hinv as (_ & Hprev & _).
  exists perf, holdings.
  assert (Hall : (forall s h, holdings !! s = Some h ->
                          0 < weighted_avg_cost h) ->
                 avg_pct_gain_loss perf
                 == mean (month_ratios now real_time_data
                                       get_historical_price ym holdings)).
  { intros Hpos. rewrite Havg. unfold month_ratios.
    rewrite filter_all; [reflexivity|].
    intros [s h] Hin. apply elem_of_map_to_list in Hin.
    unfold positive_cost. simpl. apply Qlt_bool_true. eauto. }
  split; [exact Hperf|]. split; [exact Hheld|]. split; [exact Havg|].
  split; [exact Hall|]. split; [|split].
  - intros Hpriced. apply Hall.
    eapply ledger_priced_holdings; eassumption.
  - intros ->. unfold next_row. simpl. rewrite Hprev. reflexivity.
  - intros j prev_ym prev -> Hj Hprevperf.
    unfold next_row. simpl. rewrite Hprev, (last_take_S _ _ _ Hj). simpl.
    unfold avg_of. rewrite Hprevperf. reflexivity.
Qed.

(** ** C8: compounding *)

(** C8: the cumulative return of month [i] is the product of [1 + r] over
    the monthly returns up to that month, minus 1 (for the first month, the
    monthly return itself); the benchmark cumulative return is compounded
    the same way from the benchmark's monthly returns; and alpha is the
    difference of the two. *)
Theorem cumulative_return_compounds (now : date)
  (real_time_data : gmap string (option Q))
  (get_historical_price : string -> date -> option Q)
  (accounts : list account) (exchange_rates : gmap string rate_entry)
  (months : list (nat * nat)) (out : list performance_row)
  (i : nat) (row : performance_row) :
  create_performance_analysis now real_time_data get_historical_price
    accounts exchange_rates months = Ok out ->
  out !! i = Some row ->
  cumulative_return row == compound (map monthly_return (take (S i) out)) - 1
  /\ benchmark_cumulative row
     == compound (map sp500_monthly_return (take (S i) out)) - 1
  /\ alpha row = cumulative_return row - benchmark_cumulative row
  /\ (i = 0%nat -> cumulative_return row == monthly_return row).
Proof.
  intros Hrun Hrow.
  assert (Hym : is_Some (months !! i)).
  { apply lookup_lt_is_Some. rewrite <- (series_length _ _ _ _ _ _ _ Hrun).
    eapply lookup_lt_Some. exact Hrow. }
  destruct Hym as [ym Hym].
  rewrite (take_S_r out i row Hrow).
  destruct (row_at _ _ _ _ _ _ _ _ _ _ Hrun Hym Hrow)
    as (st & perf & Hinv & Hperf & -> & Hrows).
  destruct Hinv as (_ & _ & _ & Hcf & Hbf & _ & Hlast).
  rewrite Hrows, !map_app. simpl map. rewrite !compound_snoc, <- Hcf, <- Hbf.
  split; [reflexivity|]. split; [reflexivity|]. split; [reflexivity|].
  intros ->. simpl in Hrows. rewrite <- Hrows in Hcf. simpl in Hcf.
  unfold next_row. simpl. rewrite Hcf. ring.
Qed.

(** ** C10: the benchmark return when a close is missing *)

(** C10: the benchmark return of a month is the price-ratio return from the
    last close that was fetched in the months before to the month's close;
    it is 0 for the first month and for a month without a close.  A month
    without a close leaves the baseline as it was, and leaves the
    benchmark's cumulative return as it was (its factor is 1). *)
Theorem benchmark_return_carries_forward (now : date)
  (real_time_data : gmap string (option Q))
  (get_historical_price : string -> date -> option Q)
  (accounts : list account) (exchange_rates : gmap string rate_entry)
  (months : list (nat * nat)) (out : list performance_row)
  (i : nat) (ym : nat * nat) (row : performance_row) :
  create_performance_analysis now real_time_data get_historical_price
    accounts exchange_rates months = Ok out ->
  months !! i = Some ym ->
  out !! i = Some row ->
  sp500_monthly_return row
  = benchmark_return
      (last_close (map (close_of now get_historical_price) (take i months)))
      (close_of now get_historical_price ym)
  /\ (i = 0%nat -> sp500_monthly_return row = 0)
  /\ (close_of now get_historical_price ym = None ->
      sp500_monthly_return row = 0
      /\ last_close (map (close_of now get_historical_price)
                         (take (S i) months))
         = last_close (map (close_of now get_historical_price)
                           (take i months))
      /\ (i = 0%nat -> benchmark_cumulative row == 0)
      /\ (forall j prev_row,
            i = S j -> out !! j = Some prev_row ->
            benchmark_cumulative row == benchmark_cumulative prev_row)).
Proof.
  intros Hrun Hym Hrow.
  destruct (row_at _ _ _ _ _ _ _ _ _ _ Hrun Hym Hrow)
    as (st & perf & Hinv & Hperf & -> & Hrows).
  destruct Hinv as (_ & _ & Hbase & _ & _ & _ & Hlast).
  assert (Hret : sp500_monthly_return
                   (next_row now get_historical_price st ym perf)
                 = benchmark_return
                     (last_close (map (close_of now get_historical_price)
                                      (take i months)))
                     (close_of now get_historical_price ym)).
  { unfold next_row. simpl. rewrite Hbase. reflexivity. }
  split; [exact Hret|]. split.
  - intros ->. rewrite Hret. reflexivity.
  - intros Hnone.
    assert (Hzero : sp500_monthly_return
                      (next_row now get_historical_price st ym perf) = 0).
    { rewrite Hret, Hnone. unfold benchmark_return.
      destruct (last_close _); reflexivity. }
    split; [exact Hzero|]. split; [|split].
    + rewrite (take_S_r months i ym Hym), map_app. simpl map.
      rewrite last_close_snoc, Hnone. reflexivity.
    + intros ->. simpl in Hrows. rewrite <- Hrows in Hlast. simpl in Hlast.
      destruct Hlast as [_ Hbf].
      change (benchmark_cumulative (next_row now get_historical_price st ym perf))
        with (benchmark_factor st
              * (1 + sp500_monthly_return
                       (next_row now get_historical_price st ym perf)) - 1).
      rewrite Hzero, Hbf. reflexivity.
    + intros j prev_row -> Hj.
      rewrite <- Hrows, (last_take_S _ _ _ Hj) in Hlast.
      destruct Hlast as [_ Hbc].
      change (benchmark_cumulative (next_row now get_historical_price st ym perf))
        with (benchmark_factor st
              * (1 + sp500_monthly_return
                       (next_row now get_historical_price st ym perf)) - 1).
      rewrite Hzero, Hbc. ring.
Qed.

(** ** The worked series *)

Lemma monthly_return_from_average_witness :
  exists out row perf holdings,
    demo_series = Ok out
    /\ out !! 1%nat = Some row
    /\ holdings_at scenario_portfolio (mkDate 29 2 2024) = Ok holdings
    /\ compute_portfolio_performance demo_now demo_real_time demo_history
         scenario_portfolio 2 2024 static_exchange_rates = Ok perf
    /\ avg_pct_gain_loss perf
       == mean (month_ratios demo_now demo_real_time demo_history
                             (2024, 2)%nat holdings)
    /\ avg_pct_gain_loss perf == 1 # 32
    /\ monthly_return row == - (11 # 160).
Proof.
  assert (Hrun : exists out row,
             demo_series = Ok out /\ out !! 1%nat = Some row).
  { eexists. eexists. split; vm_compute; reflexivity. }
  destruct Hrun as (out & row & Hrun & Hrow).
  destruct (monthly_return_from_average demo_now demo_real_time demo_history
              scenario_portfolio static_exchange_rates demo_months out 1
              (2024, 2)%nat row Hrun eq_refl Hrow)
    as (perf & holdings & Hperf & Hheld & _ & _ & Hmean & _ & Hdiff).
  exists out, row, perf, holdings.
  split; [exact Hrun|]. split; [exact Hrow|].
  split; [exact Hheld|]. split; [exact Hperf|].
  assert (Havg : avg_pct_gain_loss perf == 1 # 32).
  { clear -Hperf. simpl in Hperf. vm_compute in Hperf.
    injection Hperf as <-. reflexivity. }
  split; [|split; [exact Havg|]].
  - apply Hmean. reflexivity.
  - assert (Hjan : exists prev,
               compute_portfolio_performance demo_now demo_real_time
                 demo_history scenario_portfolio 1 2024 static_exchange_rates
               = Ok prev
               /\ avg_pct_gain_loss prev == 1 # 10).
    { eexists. split; [vm_compute; reflexivity|reflexivity]. }
    destruct Hjan as (prev & Hprev & Hprevavg).
    rewrite (Hdiff 0%nat (2024, 1)%nat prev eq_refl eq_refl Hprev).
    rewrite Havg, Hprevavg. reflexivity.
Defined.

Lemma cumulative_return_compounds_witness :
  exists out row,
    demo_series = Ok out
    /\ out !! 2%nat = Some row
    /\ cumulative_return row
       == compound (map monthly_return (take 3 out)) - 1
    /\ alpha row = cumulative_return row - benchmark_cumulative row.
Proof.
  assert (Hrun : exists out row,
             demo_series = Ok out /\ out !! 2%nat = Some row).
  { eexists. eexists. split; vm_compute; reflexivity. }
  destruct Hrun as (out & row & Hrun & Hrow).
  destruct (cumulative_return_compounds demo_now demo_real_time demo_history
              scenario_portfolio static_exchange_rates demo_months out 2
              row Hrun Hrow) as (Hcum & _ & Halpha & _).
  exists out, row. split; [exact Hrun|]. split; [exact Hrow|].
  split; [exact Hcum|exact Halpha].
Defined.

Lemma benchmark_return_carries_forward_witness :
  exists out feb mar,
    demo_series = Ok out
    /\ out !! 1%nat = Some feb
    /\ out !! 2%nat = Some mar
    /\ sp500_monthly_return feb = 0
    /\ benchmark_cumulative feb == 0
    /\ sp500_monthly_return mar = (5000 - 4800) / 4800.
Proof.
  assert (Hrun : exists out feb mar,
             demo_series = Ok out /\ out !! 1%nat = Some feb
             /\ out !! 2%nat = Some mar).
  { eexists. eexists. eexists. split; [|split]; vm_compute; reflexivity. }
  destruct Hrun as (out & feb & mar & Hrun & Hfeb & Hmar).
  destruct (benchmark_return_carries_forward demo_now demo_real_time
              demo_history scenario_portfolio static_exchange_rates
              demo_months out 1 (2024, 2)%nat feb Hrun eq_refl Hfeb)
    as (_ & _ & Hmissing).
  destruct (Hmissing eq_refl) as (Hzero & _ & _ & Hsame).
  destruct (benchmark_return_carries_forward demo_now demo_real_time
              demo_history scenario_portfolio static_exchange_rates
              demo_months out 2 (2024, 3)%nat mar Hrun eq_refl Hmar)
    as (Hret & _ & _).
  exists out, feb, mar.
  split; [exact Hrun|]. split; [exact Hfeb|]. split; [exact Hmar|].
  split; [exact Hzero|]. split.
  - assert (Hjan : exists jan, out !! 0%nat = Some jan
                               /\ benchmark_cumulative jan == 0).
    { clear -Hrun. vm_compute in Hrun. injection Hrun as <-.
      eexists. split; reflexivity. }
    destruct Hjan as (jan & Hjan & Hjan0).
    rewrite (Hsame 0%nat jan eq_refl Hjan). exact Hjan0.
  - rewrite Hret. reflexivity.
Defined.

(** * Further properties *)

(** ** The analyzer: cost basis and the FIFO queue *)

Lemma analyze_transaction_sell_eq (sym : string) (q : list buy_lot)
  (rs : list sell_result) (t : transaction_with_account) (cur : string) :
  is_sell (tx t) = true -> currency (tx t) = Some cur ->
  analyze_transaction sym (q, rs) t
  = Ok ((match_lots q (shares (tx t)) q 0 0).1.1,
        rs ++ [sell_record sym t cur
                 (match_lots q (shares (tx t)) q 0 0).1.2
                 (match_lots q (shares (tx t)) q 0 0).2]).
Proof.
  intros Hs Hcur. pose proof (is_sell_not_buy _ Hs) as Hb.
  unfold analyze_transaction. unfold is_buy in Hb. unfold is_sell in Hs.
  rewrite Hb, Hs, Hcur.
  destruct (match_lots q (shares (tx t)) q 0 0) as [[q1 basis] processed].
  reflexivity.
Qed.

Lemma sum_cost_app (q1 q2 : list lot) :
  sum_cost (q1 ++ q2) == sum_cost q1 + sum_cost q2.
Proof.
  induction q1 as [|l q1 IH]; simpl; [ring|]. rewrite IH. ring.
Qed.

(** One transaction of the analyzer keeps the books of cost: the cost basis
    it reports and the cost left in the queue add up to the cost that was
    in the queue plus the cost of the transaction if it is a buy. *)
Lemma analyze_transaction_cost (sym : string) (q q' : list buy_lot)
  (rs rs' : list sell_result) (t : transaction_with_account) :
  analyze_transaction sym (q, rs) t = Ok (q', rs') ->
  exists new,
    rs' = rs ++ new
    /\ Forall sell_consistent new
    /\ Qsum (map total_cost_basis new) + sum_cost (map to_lot q')
       == sum_cost (map to_lot q) + bought_cost [t].
Proof.
  intros Hstep. destruct (is_buy (tx t)) eqn:Hb.
  - rewrite analyze_transaction_buy in Hstep by assumption.
    injection Hstep as <- <-. exists []. rewrite app_nil_r.
    split; [reflexivity|]. split; [constructor|].
    simpl. rewrite Hb, map_app, sum_cost_app. simpl. ring.
  - destruct (is_sell (tx t)) eqn:Hs.
    + destruct (currency (tx t)) as [cur|] eqn:Hcur.
      * rewrite (analyze_transaction_sell_eq _ _ _ _ cur) in Hstep
          by assumption.
        injection Hstep as <- <-. eexists. split; [reflexivity|].
        split; [constructor; [|constructor]; repeat split|].
        simpl. rewrite Hb, match_lots_queue.
        destruct (match_lots_basis q (shares (tx t)) 0 0) as [H1 _].
        rewrite H1. ring.
      * unfold analyze_transaction in Hstep.
        unfold is_buy in Hb. unfold is_sell in Hs.
        rewrite Hb, Hs, Hcur in Hstep.
        destruct (match_lots q (shares (tx t)) q 0 0) as [[q1 basis] processed].
        discriminate.
    + rewrite analyze_transaction_other in Hstep by assumption.
      injection Hstep as <- <-. exists []. rewrite app_nil_r.
      split; [reflexivity|]. split; [constructor|].
      simpl. rewrite Hb. ring.
Qed.

Lemma bought_cost_app (a b : list transaction_with_account) :
  bought_cost (a ++ b) == bought_cost a + bought_cost b.
Proof.
  induction a as [|t a IH]; simpl; [ring|]. rewrite IH. ring.
Qed.

Lemma Qsum_app (a b : list Q) : Qsum (a ++ b) == Qsum a + Qsum b.
Proof.
  induction a as [|x a IH]; simpl; [ring|]. rewrite IH. ring.
Qed.

(** X1.  The pass of the analyzer over the transactions of one symbol loses
    no cost and invents none: the cost bases of the results it adds, plus
    the cost of the lots left in the queue, equal the cost of the lots it
    started with plus what the buys of the pass paid.  Each result it adds
    has gross = shares * price, net = gross - fees and realized P&L = net -
    cost basis. *)
Theorem analyzer_cost_conservation (sym : string)
  (ts : list transaction_with_account) (q q' : list buy_lot)
  (rs rs' : list sell_result) :
  foldM (analyze_transaction sym) ts (q, rs) = Ok (q', rs') ->
  exists new,
    rs' = rs ++ new
    /\ Forall sell_consistent new
    /\ Qsum (map total_cost_basis new) + sum_cost (map to_lot q')
       == sum_cost (map to_lot q) + bought_cost ts.
Proof.
  revert q rs. induction ts as [|t ts IH]; intros q rs Hrun.
  - injection Hrun as <- <-. exists []. rewrite app_nil_r.
    split; [reflexivity|]. split; [constructor|]. simpl. ring.
  - rewrite foldM_cons in Hrun.
    destruct (analyze_transaction sym (q, rs) t) as [[q1 rs1]|e] eqn:Hstep;
      [|discriminate].
    rewrite bind_Ok in Hrun.
    apply analyze_transaction_cost in Hstep as (new1 & -> & Hc1 & Hcost1).
    apply IH in Hrun as (new2 & -> & Hc2 & Hcost2).
    exists (new1 ++ new2). split; [rewrite app_assoc; reflexivity|].
    split; [apply Forall_app; split; assumption|].
    rewrite map_app, Qsum_app.
    change (t :: ts) with ([t] ++ ts). rewrite bought_cost_app.
    lra.
Qed.

Lemma analyzer_cost_conservation_witness :
  exists q' rs',
    foldM (analyze_transaction "ACME")
          (collect_transactions scenario_portfolio) ([], []) = Ok (q', rs')
    /\ Qsum (map total_cost_basis rs') + sum_cost (map to_lot q')
       == 10 * 100 + 5 * 120.
Proof.
  assert (Hrun : exists q' rs',
             foldM (analyze_transaction "ACME")
                   (collect_transactions scenario_portfolio) ([], [])
             = Ok (q', rs')).
  { eexists. eexists. vm_compute. reflexivity. }
  destruct Hrun as (q' & rs' & Hrun). exists q', rs'.
  split; [exact Hrun|].
  destruct (analyzer_cost_conservation _ _ _ _ _ _ Hrun)
    as (new & Hnew & _ & Hcost).
  simpl in Hnew. subst rs'. rewrite Hcost. reflexivity.
Defined.

(** X2.  A sell within the shares of the queue: the shares leave the queue,
    and the average cost the result reports, times the shares sold, is its
    cost basis. *)
Theorem analyzer_sell_within_queue (sym : string) (q : list buy_lot)
  (rs : list sell_result) (t : transaction_with_account) (cur : string) :
  is_sell (tx t) = true ->
  currency (tx t) = Some cur ->
  lots_nonneg (map to_lot q) ->
  0 < shares (tx t) ->
  shares (tx t) <= sum_shares (map to_lot q) ->
  exists q' r,
    analyze_transaction sym (q, rs) t = Ok (q', rs ++ [r])
    /\ sum_shares (map to_lot q')
       == sum_shares (map to_lot q) - shares (tx t)
    /\ r_weighted_avg_cost r * shares_sold r == total_cost_basis r
    /\ total_cost_basis r
       == sum_cost (map to_lot q) - sum_cost (map to_lot q').
Proof.
  intros Hs Hcur Hnn Hpos Hle.
  pose proof (match_lots_queue q (shares (tx t)) 0 0) as Hq.
  destruct (match_lots_basis q (shares (tx t)) 0 0) as [Hb Hp].
  pose proof (sell_fifo_sum (shares (tx t)) _ Hnn (Qlt_le_weak _ _ Hpos) Hle)
    as Hsum.
  rewrite (analyze_transaction_sell_eq _ _ _ _ cur) by assumption.
  destruct (match_lots q (shares (tx t)) q 0 0) as [[q1 basis] processed].
  simpl in Hq, Hb, Hp. rewrite <- Hq in Hsum, Hb, Hp.
  eexists. eexists. split; [reflexivity|]. simpl.
  split; [exact Hsum|]. split; [|rewrite Hb; ring].
  assert (Hproc : processed == shares (tx t)) by (rewrite Hp, Hsum; ring).
  destruct (Qlt_bool 0 processed) eqn:E.
  - apply Qlt_bool_true in E.
    transitivity (basis / processed * processed);
      [rewrite Hproc; reflexivity|field; lra].
  - apply Qlt_bool_false in E. lra.
Qed.

Lemma analyzer_sell_within_queue_witness :
  exists q' r,
    analyze_transaction "ACME"
      ([mkBuyLot 10 100 (mkDate 5 1 2024) "Broker";
        mkBuyLot 5 120 (mkDate 10 2 2024) "Broker"], [])
      (mkTWA (sell "ACME" 12 150 (mkDate 1 3 2024) 5) "Broker" "$")
    = Ok (q', [r])
    /\ r_weighted_avg_cost r * shares_sold r == total_cost_basis r.
Proof.
  destruct (analyzer_sell_within_queue "ACME"
              [mkBuyLot 10 100 (mkDate 5 1 2024) "Broker";
               mkBuyLot 5 120 (mkDate 10 2 2024) "Broker"] []
              (mkTWA (sell "ACME" 12 150 (mkDate 1 3 2024) 5) "Broker" "$")
              "$" eq_refl eq_refl)
    as (q' & r & Hstep & _ & Havg & _).
  - repeat constructor; simpl; lra.
  - reflexivity.
  - simpl. lra.
  - exists q', r. split; [exact Hstep|exact Havg].
Defined.

(** X3.  A sell that has a currency, for more shares than a queue of lots
    with non-negative share counts holds: the queue is emptied and the cost
    basis is the cost of the shares that were there, while the gross
    proceeds count every share asked for, and the realized profit is these
    proceeds minus the fee minus that cost basis. *)
Theorem analyzer_oversell (sym : string) (q : list buy_lot)
  (rs : list sell_result) (t : transaction_with_account) (cur : string) :
  is_sell (tx t) = true ->
  currency (tx t) = Some cur ->
  lots_nonneg (map to_lot q) ->
  sum_shares (map to_lot q) < shares (tx t) ->
  exists r,
    analyze_transaction sym (q, rs) t = Ok ([], rs ++ [r])
    /\ total_cost_basis r == sum_cost (map to_lot q)
    /\ gross_proceeds r = shares (tx t) * price (tx t)
    /\ realized_pnl r
       == shares (tx t) * price (tx t) - default 0 (fee (tx t))
          - sum_cost (map to_lot q).
Proof.
  intros Hs Hcur Hnn Hover.
  pose proof (sell_fifo_oversell _ _ Hnn Hover) as Hempty.
  pose proof (match_lots_queue q (shares (tx t)) 0 0) as Hq.
  rewrite Hempty in Hq. apply map_eq_nil in Hq.
  destruct (match_lots_basis q (shares (tx t)) 0 0) as [Hb _].
  rewrite Hempty in Hb. simpl in Hb.
  eexists. split.
  - rewrite (analyze_transaction_sell_eq _ _ _ _ cur) by assumption.
    rewrite Hq. reflexivity.
  - simpl. split; [rewrite Hb; ring|]. split; [reflexivity|].
    rewrite Hb. ring.
Qed.

Lemma analyzer_oversell_witness :
  exists r,
    analyze_transaction "ACME"
      ([mkBuyLot 13 100 (mkDate 5 1 2024) "Broker"], [])
      (mkTWA (sell "ACME" 20 150 (mkDate 1 3 2024) 5) "Broker" "$")
    = Ok ([], [r])
    /\ total_cost_basis r == 1300
    /\ gross_proceeds r = 20 * 150.
Proof.
  destruct (analyzer_oversell "ACME"
              [mkBuyLot 13 100 (mkDate 5 1 2024) "Broker"] []
              (mkTWA (sell "ACME" 20 150 (mkDate 1 3 2024) 5) "Broker" "$")
              "$" eq_refl eq_refl)
    as (r & Hstep & Hbasis & Hgross & _).
  - repeat constructor; simpl; lra.
  - reflexivity.
  - exists r. split; [exact Hstep|]. split; [|exact Hgross].
    rewrite Hbasis. reflexivity.
Defined.

(** ** The analyzer and the ledger *)

Lemma analyze_groups_consistent
  (gs : list (string * list transaction_with_account)) :
  forall rs rs',
    foldM analyze_symbol gs rs = Ok rs' ->
    exists new, rs' = rs ++ new /\ Forall sell_consistent new.
Proof.
  induction gs as [|g gs IH]; intros rs rs' Hrun.
  - injection Hrun as <-. exists []. rewrite app_nil_r.
    split; [reflexivity|constructor].
  - rewrite foldM_cons in Hrun.
    destruct (analyze_symbol rs g) as [rs1|e] eqn:Hg; [|discriminate].
    rewrite bind_Ok in Hrun. unfold analyze_symbol in Hg.
    destruct (foldM (analyze_transaction g.1) g.2 ([], rs))
      as [[q1 rs1']|e] eqn:Hpass; [|discriminate].
    injection Hg as <-. simpl.
    apply analyzer_cost_conservation in Hpass as (new1 & -> & Hc1 & _).
    apply IH in Hrun as (new2 & -> & Hc2).
    exists (new1 ++ new2). split; [rewrite app_assoc; reflexivity|].
    apply Forall_app. split; assumption.
Qed.

(** X4.  The opportunity difference of a sell of the analysis is the shares
    sold times the move of the price since the sell: fees and cost basis
    cancel out. *)
Theorem opportunity_difference_is_price_move (accounts : list account)
  (current_prices : gmap string (option Q)) (rs : list sell_result)
  (i : nat) (a : sell_analysis) (p : Q) :
  analyze_sell_transactions accounts = Ok rs ->
  calculate_unrealized_pnl rs current_prices !! i = Some a ->
  current_price a = Some p ->
  exists d,
    opportunity_difference a = Some d
    /\ d == shares_sold (base a) * (p - sell_price (base a)).
Proof.
  intros Hrun Ha Hp.
  unfold analyze_sell_transactions in Hrun.
  apply analyze_groups_consistent in Hrun as (new & -> & Hcons).
  simpl in Ha. unfold calculate_unrealized_pnl in Ha.
  change (map (unrealized_pnl_of current_prices) new)
    with (unrealized_pnl_of current_prices <$> new) in Ha.
  rewrite list_lookup_fmap in Ha.
  destruct (new !! i) as [r|] eqn:Hr; [|discriminate].
  injection Ha as <-.
  rewrite Forall_forall in Hcons.
  destruct (Hcons r) as (Hg & Hn & Hreal).
  { eapply list_elem_of_lookup_2. exact Hr. }
  unfold unrealized_pnl_of in *.
  destruct (mjoin (current_prices !! r_symbol r)) as [p0|]; [|discriminate].
  simpl in *. injection Hp as ->.
  eexists. split; [reflexivity|].
  rewrite Hreal, Hn, Hg. ring.
Qed.

Lemma opportunity_difference_is_price_move_witness :
  exists rs a d,
    analyze_sell_transactions scenario_portfolio = Ok rs
    /\ calculate_unrealized_pnl rs (<["ACME" := Some 160]> ∅) !! 0%nat = Some a
    /\ opportunity_difference a = Some d
    /\ d == 12 * (160 - 150).
Proof.
  assert (Hrun : exists rs a,
             analyze_sell_transactions scenario_portfolio = Ok rs
             /\ calculate_unrealized_pnl rs (<["ACME" := Some 160]> ∅) !! 0%nat
                = Some a
             /\ current_price a = Some 160
             /\ shares_sold (base a) = 12 /\ sell_price (base a) = 150).
  { eexists. eexists. split; [vm_compute; reflexivity|].
    split; [vm_compute; reflexivity|]. repeat split. }
  destruct Hrun as (rs & a & Hrun & Ha & Hp & Hs & Hsp).
  destruct (opportunity_difference_is_price_move _ _ _ _ _ _ Hrun Ha Hp)
    as (d & Hd & Hval).
  exists rs, a, d. split; [exact Hrun|]. split; [exact Ha|].
  split; [exact Hd|]. rewrite Hval, Hs, Hsp. reflexivity.
Defined.

Lemma process_transaction_eq (hd : gmap string holding) (t : transaction) :
  process_transaction hd t
  = (h' ← next_holding (get_holding hd (symbol t)) t;
     Ok (<[symbol t := h']> hd)).
Proof.
  unfold process_transaction, next_holding, is_buy, is_sell.
  destruct (String.eqb (lower (type t)) "buy").
  - destruct (name t); reflexivity.
  - destruct (String.eqb (lower (type t)) "sell"); reflexivity.
Qed.

Lemma next_holding_lots (h h' : holding) (t : transaction) :
  next_holding h t = Ok h' -> lots h' = next_lots t (lots h).
Proof.
  unfold next_holding, next_lots.
  destruct (is_buy t).
  - destruct (name t); simpl; [|discriminate]. intros [= <-]. reflexivity.
  - destruct (is_sell t); intros [= <-]; reflexivity.
Qed.

(** One transaction keeps the analyzer's queue and the ledger's lots in
    step. *)
Lemma in_step_transaction (s : string) (q q' : list buy_lot)
  (rs rs' : list sell_result) (t : transaction_with_account)
  (hd hd' : gmap string holding) :
  tx_symbol t = s ->
  in_step q (get_holding hd s) ->
  analyze_transaction s (q, rs) t = Ok (q', rs') ->
  process_transaction hd (tx t) = Ok hd' ->
  in_step q' (get_holding hd' s).
Proof.
  unfold in_step, tx_symbol. intros <- Hin Ha Hp.
  apply process_transaction_inv in Hp as (h' & -> & Hlots).
  rewrite get_holding_insert. simpl. rewrite Hlots, Hin.
  unfold next_lots. destruct (is_buy (tx t)) eqn:Hb.
  - rewrite analyze_transaction_buy in Ha by assumption.
    injection Ha as <- _. rewrite map_app. reflexivity.
  - destruct (is_sell (tx t)) eqn:Hs.
    + destruct (currency (tx t)) as [cur|] eqn:Hcur.
      * rewrite (analyze_transaction_sell_eq _ _ _ _ cur) in Ha by assumption.
        injection Ha as <- _. symmetry. apply match_lots_queue.
      * unfold analyze_transaction in Ha.
        unfold is_buy in Hb. unfold is_sell in Hs.
        rewrite Hb, Hs, Hcur in Ha.
        destruct (match_lots q (shares (tx t)) q 0 0) as [[q1 b] p].
        discriminate.
    + rewrite analyze_transaction_other in Ha by assumption.
      injection Ha as <- _. reflexivity.
Qed.

(** X5.  Over the transactions of one symbol the analyzer's FIFO queue and
    the ledger's lots stay the same, lot for lot: after the pass of the
    analyzer and the replay of the ledger, the lots of the holding are the
    lots of the queue. *)
Theorem analyzer_queue_is_ledger_queue (s : string)
  (ts : list transaction_with_account) (q q' : list buy_lot)
  (rs rs' : list sell_result) (hd hd' : gmap string holding) :
  Forall (fun t => tx_symbol t = s) ts ->
  in_step q (get_holding hd s) ->
  foldM (analyze_transaction s) ts (q, rs) = Ok (q', rs') ->
  replay hd (map tx ts) = Ok hd' ->
  in_step q' (get_holding hd' s).
Proof.
  intros Hsym. revert q rs hd.
  induction Hsym as [|t ts Ht _ IH]; intros q rs hd Hin Ha Hp.
  - injection Ha as <- _. injection Hp as <-. exact Hin.
  - rewrite foldM_cons in Ha. unfold replay in Hp. simpl map in Hp.
    rewrite foldM_cons in Hp.
    destruct (analyze_transaction s (q, rs) t) as [[q1 rs1]|e] eqn:Ha1;
      [|discriminate].
    destruct (process_transaction hd (tx t)) as [hd1|e] eqn:Hp1;
      [|discriminate].
    rewrite bind_Ok in Ha.
    change (replay hd1 (map tx ts) = Ok hd') in Hp.
    eapply IH; [|exact Ha|exact Hp].
    eapply in_step_transaction; eassumption.
Qed.

Lemma analyzer_queue_is_ledger_queue_witness :
  exists q' rs' hd',
    foldM (analyze_transaction "ACME")
          (collect_transactions scenario_portfolio) ([], []) = Ok (q', rs')
    /\ replay ∅ scenario = Ok hd'
    /\ lots (get_holding hd' "ACME") = map to_lot q'.
Proof.
  assert (Hrun : exists q' rs' hd',
             foldM (analyze_transaction "ACME")
                   (collect_transactions scenario_portfolio) ([], [])
             = Ok (q', rs')
             /\ replay ∅ scenario = Ok hd').
  { eexists. eexists. eexists. split; vm_compute; reflexivity. }
  destruct Hrun as (q' & rs' & hd' & Ha & Hp).
  exists q', rs', hd'. split; [exact Ha|]. split; [exact Hp|].
  eapply (analyzer_queue_is_ledger_queue "ACME"
            (collect_transactions scenario_portfolio) [] q' [] rs' ∅ hd').
  - repeat constructor.
  - reflexivity.
  - exact Ha.
  - exact Hp.
Defined.

(** ** The ledger, symbol by symbol *)

Lemma replay_cons (hd : gmap string holding) (t : transaction)
  (txs : list transaction) :
  replay hd (t :: txs) = process_transaction hd t ≫= fun hd1 => replay hd1 txs.
Proof. reflexivity. Qed.

Lemma next_holding_Ok_insert (hd : gmap string holding) (t : transaction)
  (hd' : gmap string holding) :
  process_transaction hd t = Ok hd' ->
  exists h', next_holding (get_holding hd (symbol t)) t = Ok h'
             /\ hd' = <[symbol t := h']> hd.
Proof.
  rewrite process_transaction_eq.
  destruct (next_holding (get_holding hd (symbol t)) t) as [h'|e];
    [|discriminate].
  intros [= <-]. exists h'. split; reflexivity.
Qed.

Lemma replay_of_symbol (s : string) (txs : list transaction) :
  forall hd1 hd2 hd1',
    get_holding hd1 s = get_holding hd2 s ->
    replay hd1 txs = Ok hd1' ->
    exists hd2', replay hd2 (of_symbol s txs) = Ok hd2'
                 /\ get_holding hd1' s = get_holding hd2' s.
Proof.
  induction txs as [|t txs IH]; intros hd1 hd2 hd1' Heq Hrun.
  - injection Hrun as <-. exists hd2. split; [reflexivity|exact Heq].
  - rewrite replay_cons in Hrun.
    destruct (process_transaction hd1 t) as [hd1a|e] eqn:Hstep; [|discriminate].
    rewrite bind_Ok in Hrun.
    apply next_holding_Ok_insert in Hstep as (h' & Hnext & ->).
    unfold of_symbol. rewrite filter_cons.
    destruct (decide (symbol t = s)) as [Hs|Hs].
    + fold (of_symbol s txs). rewrite replay_cons, process_transaction_eq.
      rewrite Hs in *. rewrite <- Heq, Hnext. simpl.
      eapply IH; [|exact Hrun].
      rewrite !get_holding_insert. reflexivity.
    + fold (of_symbol s txs).
      eapply IH; [|exact Hrun].
      rewrite get_holding_insert_ne by assumption. exact Heq.
Qed.

Lemma prune_lookup_get (hd : gmap string holding) (s : string) :
  prune hd !! s
  = if Qlt_bool 0 (total_shares (get_holding hd s))
    then Some (get_holding hd s) else None.
Proof.
  unfold get_holding.
  destruct (hd !! s) as [h|] eqn:Hs; simpl.
  - destruct (Qlt_bool 0 (total_shares h)) eqn:Hpos.
    + apply prune_lookup_Some. split; [exact Hs|].
      apply Qlt_bool_true. exact Hpos.
    + apply prune_lookup_None. right. exists h. split; [exact Hs|].
      apply Qlt_bool_false. exact Hpos.
  - replace (Qlt_bool 0 0) with false by reflexivity.
    apply prune_lookup_None. left. exact Hs.
Qed.

(** X6.  The holding of a symbol depends on the transactions of that symbol
    only: the ledger run on the whole list and the ledger run on the
    transactions of the symbol alone report the same holding for it (or both
    none), and the second run does not fail when the first does not. *)
Theorem ledger_symbol_independence (s : string) (txs : list transaction)
  (out : gmap string holding) :
  process_transactions ∅ txs = Ok out ->
  exists out',
    process_transactions ∅ (of_symbol s txs) = Ok out'
    /\ out' !! s = out !! s.
Proof.
  unfold process_transactions. intros Hrun.
  destruct (replay ∅ txs) as [hd|e] eqn:Hrep; [|discriminate].
  injection Hrun as <-.
  destruct (replay_of_symbol s txs ∅ ∅ hd eq_refl Hrep) as (hd2 & Hrep2 & Heq).
  exists (prune hd2). rewrite Hrep2. split; [reflexivity|].
  rewrite !prune_lookup_get, Heq. reflexivity.
Qed.

Lemma ledger_symbol_independence_witness :
  exists out out',
    process_transactions ∅ scenario = Ok out
    /\ process_transactions ∅ (of_symbol "ACME" scenario) = Ok out'
    /\ out' !! "ACME" = out !! "ACME".
Proof.
  assert (Hrun : exists out, process_transactions ∅ scenario = Ok out).
  { eexists. vm_compute. reflexivity. }
  destruct Hrun as (out & Hrun).
  destruct (ledger_symbol_independence "ACME" scenario out Hrun)
    as (out' & Hrun' & Heq).
  exists out, out'. split; [exact Hrun|]. split; [exact Hrun'|exact Heq].
Defined.

Lemma lot_from_app (s : string) (txs : list transaction) (t : transaction)
  (l : lot) :
  lot_from s txs l -> lot_from s (txs ++ [t]) l.
Proof.
  intros (t0 & Hin & H). exists t0. split; [|exact H].
  apply in_or_app. left. exact Hin.
Qed.

Lemma sell_fifo_from (P : lot -> Prop) :
  (forall l r, P l -> 0 < r -> P (mkLot (lot_shares l - r) (lot_price l)
                                        (lot_date l))) ->
  forall q r, Forall P q -> Forall P (sell_fifo r q).
Proof.
  intros Hsplit q. induction q as [|l rest IH]; intros r Hq; [constructor|].
  simpl. destruct (Qlt_bool 0 r) eqn:Hr; [|exact Hq].
  apply Forall_cons in Hq as [Hl Hrest].
  destruct (Qle_bool (lot_shares l) r).
  - apply IH. exact Hrest.
  - constructor; [|exact Hrest].
    apply Hsplit; [exact Hl|]. apply Qlt_bool_true. exact Hr.
Qed.

Lemma replay_lots_from (txs : list transaction) (hd : gmap string holding) :
  replay ∅ txs = Ok hd ->
  forall s, Forall (lot_from s txs) (lots (get_holding hd s)).
Proof.
  revert txs hd.
  apply (replay_ind (fun txs hd =>
           forall s, Forall (lot_from s txs) (lots (get_holding hd s)))).
  - intros s. constructor.
  - intros txs t hd hd' _ IH Hstep s.
    apply process_transaction_inv in Hstep as (h' & -> & Hlots).
    destruct (decide (symbol t = s)) as [<-|Hne].
    + rewrite get_holding_insert. simpl. rewrite Hlots.
      specialize (IH (symbol t)).
      assert (IH' : Forall (lot_from (symbol t) (txs ++ [t]))
                           (lots (get_holding hd (symbol t)))).
      { eapply Forall_impl; [exact IH|]. intros l. apply lot_from_app. }
      unfold next_lots. destruct (is_buy t) eqn:Hb.
      * apply Forall_app. split; [exact IH'|].
        constructor; [|constructor].
        exists t. split; [apply in_or_app; right; left; reflexivity|].
        repeat split; try assumption. simpl. apply Qle_refl.
      * destruct (is_sell t); [|exact IH'].
        apply sell_fifo_from; [|exact IH'].
        intros l r (t0 & Hin & Hb0 & Hs0 & Hp0 & Hd0 & Hle) Hr.
        exists t0. repeat split; try assumption. simpl. lra.
    + rewrite get_holding_insert_ne by assumption.
      eapply Forall_impl; [apply IH|]. intros l. apply lot_from_app.
Qed.

(** X7.  Lots are never merged or re-priced: every lot of a reported holding
    carries the price and the date of one buy of that symbol in the list,
    and no more shares than that buy had. *)
Theorem lots_come_from_buys (txs : list transaction)
  (out : gmap string holding) (s : string) (h : holding) (l : lot) :
  process_transactions ∅ txs = Ok out ->
  out !! s = Some h ->
  In l (lots h) ->
  exists t,
    In t txs /\ is_buy t = true /\ symbol t = s
    /\ lot_price l = price t /\ lot_date l = tdate t
    /\ lot_shares l <= shares t.
Proof.
  unfold process_transactions. intros Hrun Hs Hl.
  destruct (replay ∅ txs) as [hd|e] eqn:Hrep; [|discriminate].
  injection Hrun as <-.
  apply prune_lookup_Some in Hs as [Hs _].
  pose proof (replay_lots_from txs hd Hrep s) as Hfrom.
  unfold get_holding in Hfrom. rewrite Hs in Hfrom. simpl in Hfrom.
  rewrite List.Forall_forall in Hfrom. exact (Hfrom l Hl).
Qed.

Lemma lots_come_from_buys_witness :
  exists out h l t,
    process_transactions ∅ scenario = Ok out
    /\ out !! "ACME" = Some h /\ In l (lots h)
    /\ In t scenario /\ is_buy t = true
    /\ lot_price l = price t /\ lot_date l = tdate t.
Proof.
  assert (Hrun : exists out h l rest,
             process_transactions ∅ scenario = Ok out
             /\ out !! "ACME" = Some h /\ lots h = l :: rest).
  { eexists. eexists. eexists. eexists.
    split; [vm_compute; reflexivity|]. split; vm_compute; reflexivity. }
  destruct Hrun as (out & h & l & rest & Hrun & Hs & Hl).
  assert (Hin : In l (lots h)) by (rewrite Hl; left; reflexivity).
  destruct (lots_come_from_buys scenario out "ACME" h l Hrun Hs Hin)
    as (t & Ht & Hb & _ & Hp & Hd & _).
  exists out, h, l, t. repeat split; assumption.
Defined.

(** X8.  Only a buy opens a holding: a symbol the list never buys (it is only
    sold, or only paid dividends) is not among the reported holdings. *)
Theorem never_bought_never_held (txs : list transaction)
  (out : gmap string holding) (s : string) :
  process_transactions ∅ txs = Ok out ->
  (forall t, In t txs -> symbol t = s -> is_buy t = false) ->
  out !! s = None.
Proof.
  unfold process_transactions. intros Hrun Hno.
  destruct (replay ∅ txs) as [hd|e] eqn:Hrep; [|discriminate].
  injection Hrun as <-.
  rewrite prune_lookup_get.
  pose proof (replay_lots_from txs hd Hrep s) as Hfrom.
  assert (Hrec : recomputed (get_holding hd s)).
  { apply get_holding_recomputed. eapply replay_recomputed. exact Hrep. }
  destruct (lots (get_holding hd s)) as [|l rest] eqn:Hl.
  - unfold recomputed, calculate_totals in Hrec. rewrite Hl in Hrec.
    rewrite <- Hrec. reflexivity.
  - apply Forall_cons in Hfrom as [(t & Hin & Hb & Hs & _) _].
    rewrite (Hno t Hin Hs) in Hb. discriminate.
Qed.

Lemma never_bought_never_held_witness :
  exists out,
    process_transactions ∅ unbought_scenario = Ok out
    /\ out !! "GONE" = None.
Proof.
  assert (Hrun : exists out, process_transactions ∅ unbought_scenario = Ok out).
  { eexists. vm_compute. reflexivity. }
  destruct Hrun as (out & Hrun).
  exists out. split; [exact Hrun|].
  apply (never_bought_never_held unbought_scenario out "GONE" Hrun).
  intros t Hin Hs.
  repeat (destruct Hin as [<-|Hin];
          [first [reflexivity | simpl in Hs; discriminate]|]).
  destruct Hin.
Defined.

(** ** The performance series: sums and missing prices *)

Lemma Qsum_zero (l : list Q) : Forall (fun x => x == 0) l -> Qsum l == 0.
Proof.
  induction 1 as [|x l Hx _ IH]; simpl; [reflexivity|].
  rewrite Hx, IH. reflexivity.
Qed.

Lemma take_S_lookup {A : Type} (l : list A) (i : nat) (x : A) :
  l !! i = Some x -> take (S i) l = take i l ++ [x].
Proof. intros H. apply take_S_r. exact H. Qed.

(** X9.  The monthly returns of the series telescope: the returns of the rows
    up to a month add up to the average gain of that month alone. *)
Theorem monthly_returns_sum_to_average (now : date)
  (real_time_data : gmap string (option Q))
  (get_historical_price : string -> date -> option Q)
  (accounts : list account) (exchange_rates : gmap string rate_entry)
  (months : list (nat * nat)) (out : list performance_row)
  (i : nat) (ym : nat * nat) :
  create_performance_analysis now real_time_data get_historical_price
    accounts exchange_rates months = Ok out ->
  months !! i = Some ym ->
  exists perf,
    compute_portfolio_performance now real_time_data get_historical_price
      accounts ym.2 ym.1 exchange_rates = Ok perf
    /\ Qsum (map monthly_return (take (S i) out)) == avg_pct_gain_loss perf.
Proof.
  intros Hrun. revert ym.
  pose proof (series_length _ _ _ _ _ _ _ Hrun) as Hlen.
  induction i as [|j IH]; intros ym Hym.
  - destruct (lookup_lt_is_Some_2 out 0) as [row Hrow].
    { rewrite Hlen. eapply lookup_lt_Some. exact Hym. }
    destruct (row_at _ _ _ _ _ _ _ _ _ _ Hrun Hym Hrow)
      as (st & perf & Hinv & Hperf & -> & _).
    exists perf. split; [exact Hperf|].
    rewrite (take_S_lookup _ _ _ Hrow). simpl.
    destruct Hinv as (_ & Hprev & _). simpl in Hprev. rewrite Hprev.
    ring.
  - destruct (lookup_lt_is_Some_2 out (S j)) as [row Hrow].
    { rewrite Hlen. eapply lookup_lt_Some. exact Hym. }
    destruct (lookup_lt_is_Some_2 months j) as [ym0 Hym0].
    { apply lookup_lt_Some in Hym. lia. }
    destruct (IH ym0 Hym0) as (perf0 & Hperf0 & Hsum).
    destruct (row_at _ _ _ _ _ _ _ _ _ _ Hrun Hym Hrow)
      as (st & perf & Hinv & Hperf & -> & _).
    exists perf. split; [exact Hperf|].
    rewrite (take_S_lookup _ _ _ Hrow), map_app, Qsum_app, Hsum. simpl.
    destruct Hinv as (_ & Hprev & _).
    rewrite (last_take_S _ _ _ Hym0) in Hprev. simpl in Hprev.
    unfold avg_of in Hprev. rewrite Hperf0 in Hprev. rewrite Hprev.
    ring.
Qed.

Lemma monthly_returns_sum_to_average_witness :
  exists out perf,
    demo_series = Ok out
    /\ compute_portfolio_performance demo_now demo_real_time demo_history
         scenario_portfolio 3 2024 static_exchange_rates = Ok perf
    /\ Qsum (map monthly_return (take 3 out)) == avg_pct_gain_loss perf.
Proof.
  assert (Hrun : exists out, demo_series = Ok out).
  { eexists. vm_compute. reflexivity. }
  destruct Hrun as (out & Hrun).
  destruct (monthly_returns_sum_to_average demo_now demo_real_time
              demo_history scenario_portfolio static_exchange_rates
              demo_months out 2 (2024, 3)%nat Hrun eq_refl)
    as (perf & Hperf & Hsum).
  exists out, perf. split; [exact Hrun|]. split; [exact Hperf|exact Hsum].
Defined.

(** ** Exchange rates *)

Lemma static_rates_shaped : rates_shaped static_exchange_rates.
Proof.
  split; [|split; [reflexivity|split]].
  - intros k. unfold static_exchange_rates, rate_keys.
    rewrite !lookup_insert_is_Some, lookup_empty, is_Some_alt. simpl.
    intuition congruence.
  - intros k Hk Hin. unfold rate_keys in Hin. simpl in Hin.
    destruct Hin as [<-|[<-|[<-|[<-|[<-|[<-|[]]]]]]];
      try (eexists; reflexivity).
    exfalso. apply Hk. reflexivity.
  - eexists. split; reflexivity.
Qed.

Lemma rates_shaped_insert (exchange_rates : gmap string rate_entry)
  (dst : string) (r : Q) :
  In dst rate_keys -> dst <> "USD" -> dst <> "EUR_RATES" ->
  rates_shaped exchange_rates ->
  rates_shaped (<[dst := Rate r]> exchange_rates).
Proof.
  intros Hin Husd Htab (Hkeys & Hone & Hrate & t & Ht & Heur).
  split; [|split; [|split]].
  - intros k. rewrite lookup_insert_is_Some, Hkeys.
    split; [intros [<-|[_ H]]; assumption|].
    intros Hk. destruct (decide (dst = k)); [left|right; split]; assumption.
  - rewrite lookup_insert_ne by congruence. exact Hone.
  - intros k Hk Hink. destruct (decide (dst = k)) as [<-|Hne].
    + exists r. apply lookup_insert_eq.
    + rewrite lookup_insert_ne by assumption. apply Hrate; assumption.
  - exists t. rewrite lookup_insert_ne by assumption. split; assumption.
Qed.

Lemma rates_shaped_table (exchange_rates : gmap string rate_entry)
  (eur_rates : gmap string Q) :
  rates_shaped exchange_rates ->
  rates_shaped (<["EUR_RATES" := RateTable (<["EUR" := 1.0]> eur_rates)]>
                  exchange_rates).
Proof.
  intros (Hkeys & Hone & Hrate & _).
  split; [|split; [|split]].
  - intros k. rewrite lookup_insert_is_Some, Hkeys.
    split; [intros [<-|[_ H]]; [|exact H]|].
    + unfold rate_keys. simpl. tauto.
    + intros Hk. destruct (decide ("EUR_RATES" = k)); [left|right; split];
        assumption.
  - rewrite lookup_insert_ne by discriminate. exact Hone.
  - intros k Hk Hink. rewrite lookup_insert_ne by congruence.
    apply Hrate; assumption.
  - eexists. split; [apply lookup_insert_eq|apply lookup_insert_eq].
Qed.

Lemma try_seq_shaped (a b : try_step) :
  (forall er, rates_shaped er -> rates_shaped (a er).1) ->
  (forall er, rates_shaped er -> rates_shaped (b er).1) ->
  forall er, rates_shaped er -> rates_shaped (try_seq a b er).1.
Proof.
  intros Ha Hb er Her. unfold try_seq.
  specialize (Ha er Her). destruct (a er) as [er1 [|]]; simpl in *.
  - apply Hb. exact Ha.
  - exact Ha.
Qed.

Lemma set_inverse_shaped (src dst : string) (rates : gmap string Q) :
  In dst rate_keys -> dst <> "USD" -> dst <> "EUR_RATES" ->
  forall er, rates_shaped er -> rates_shaped (set_inverse src dst rates er).1.
Proof.
  intros Hin Husd Htab er Her. unfold set_inverse.
  destruct (rates !! src) as [r|]; [|exact Her].
  destruct (Qeq_bool r 0); [exact Her|].
  apply rates_shaped_insert; assumption.
Qed.

Lemma fetch_usd_rates_shaped (response_usd : option api_response) :
  forall er, rates_shaped er -> rates_shaped (fetch_usd_rates response_usd er).1.
Proof.
  unfold fetch_usd_rates.
  destruct response_usd as [[code [data|]]|]; simpl;
    try (intros er Her; exact Her).
  - destruct (Nat.eqb code 200); [|intros er Her; exact Her].
    repeat apply try_seq_shaped;
      apply set_inverse_shaped; unfold rate_keys; simpl;
        first [discriminate | tauto].
  - destruct (Nat.eqb code 200); intros er Her; exact Her.
Qed.

Lemma fetch_eur_rates_shaped (response_eur : option api_response) :
  forall er, rates_shaped er -> rates_shaped (fetch_eur_rates response_eur er).1.
Proof.
  unfold fetch_eur_rates.
  destruct response_eur as [[code [data|]]|]; simpl;
    try (intros er Her; exact Her).
  - destruct (Nat.eqb code 200); [|intros er Her; exact Her].
    intros er Her.
    match goal with
    | |- context [match ?c with Some _ => _ | None => _ end] => destruct c
    end; simpl; [|exact Her].
    apply rates_shaped_table. exact Her.
  - destruct (Nat.eqb code 200); intros er Her; exact Her.
Qed.

Lemma get_exchange_rates_shaped (currency_api_available : bool)
  (response_usd response_eur : option api_response) :
  rates_shaped (get_exchange_rates currency_api_available response_usd
                                   response_eur).
Proof.
  unfold get_exchange_rates.
  destruct currency_api_available; simpl; [|apply static_rates_shaped].
  apply try_seq_shaped.
  - apply fetch_usd_rates_shaped.
  - apply fetch_eur_rates_shaped.
  - apply static_rates_shaped.
Qed.

(** X11.  Whatever the rate service answers (or fails to), the rates that
    come back have the six keys of the static table and no other, the rate
    of the dollar is 1, the entry ['EUR_RATES'] is the only nested table and
    gives the euro the rate 1. *)
Theorem exchange_rates_shape (currency_api_available : bool)
  (response_usd response_eur : option api_response) :
  let exchange_rates :=
    get_exchange_rates currency_api_available response_usd response_eur in
  (forall k, is_Some (exchange_rates !! k) <-> In k rate_keys)
  /\ exchange_rates !! "USD" = Some (Rate 1.0)
  /\ (forall k, k <> "EUR_RATES" -> In k rate_keys ->
        exists r, exchange_rates !! k = Some (Rate r))
  /\ exists eur_rates,
       exchange_rates !! "EUR_RATES" = Some (RateTable eur_rates)
       /\ eur_rates !! "EUR" = Some 1.0.
Proof.
  intros exchange_rates. subst exchange_rates.
  change (rates_shaped (get_exchange_rates currency_api_available
                          response_usd response_eur)).
  unfold get_exchange_rates.
  destruct currency_api_available; simpl.
  - (* the [try] block: both fetches keep the shape *)
    apply try_seq_shaped.
    + apply fetch_usd_rates_shaped.
    + apply fetch_eur_rates_shaped.
    + apply static_rates_shaped.
  - (* no [requests]: the static table *)
    apply static_rates_shaped.
Qed.

Lemma currency_map_table (c : string) :
  currency_map c = "EUR_RATES" <-> c = "EUR_RATES".
Proof.
  unfold currency_map.
  destruct (String.eqb_spec c "$") as [->|_]; [split; discriminate|].
  destruct (String.eqb_spec c "€") as [->|_]; [split; discriminate|].
  destruct (String.eqb_spec c "RON") as [->|_]; [split; discriminate|].
  destruct (String.eqb_spec c "£") as [->|_]; [split; discriminate|].
  destruct (String.eqb_spec c "¥") as [->|_]; [split; discriminate|].
  reflexivity.
Qed.

Lemma convert_to_usd_shaped (exchange_rates : gmap string rate_entry)
  (value : Q) (c : string) :
  rates_shaped exchange_rates ->
  (convert_to_usd value c exchange_rates = Err TypeError
   <-> c = "EUR_RATES" /\ ~ value == 0)
  /\ (c <> "EUR_RATES" -> exists y, convert_to_usd value c exchange_rates = Ok y).
Proof.
  intros (Hkeys & _ & Hrate & t & Ht & _).
  unfold convert_to_usd. rewrite convert_zero_test.
  destruct (Qeq_bool value 0) eqn:Hz.
  { apply Qeq_bool_iff in Hz. split; [|intros _; eexists; reflexivity].
    split; [discriminate|]. intros [_ H]. contradiction. }
  assert (Hnz : ~ value == 0).
  { intros H. apply Qeq_bool_iff in H. congruence. }
  destruct (String.eqb_spec (currency_map c) "USD") as [Husd|Husd].
  { split; [|intros _; eexists; reflexivity].
    split; [discriminate|]. intros [-> _]. discriminate. }
  destruct (decide (c = "EUR_RATES")) as [->|Hc].
  - change (currency_map "EUR_RATES") with "EUR_RATES". rewrite Ht.
    split; [split; [intros _; split; [reflexivity|exact Hnz]|reflexivity]|].
    intros H. exfalso. apply H. reflexivity.
  - assert (Hm : currency_map c <> "EUR_RATES").
    { intros H. apply (proj1 (currency_map_table c)) in H. exact (Hc H). }
    destruct (exchange_rates !! currency_map c) as [[r|t']|] eqn:Hlook.
    + split; [|intros _; eexists; reflexivity].
      split; [discriminate|]. intros [H _]. destruct (Hc H).
    + exfalso.
      assert (Hin : In (currency_map c) rate_keys).
      { apply Hkeys. rewrite Hlook. eexists. reflexivity. }
      destruct (Hrate _ Hm Hin) as [r Hr]. congruence.
    + split; [|intros _; eexists; reflexivity].
      split; [discriminate|]. intros [H _]. destruct (Hc H).
Qed.

(** X12.  With the rates of [get_exchange_rates] a conversion to EUR never
    fails, and a conversion to USD fails (with a [TypeError]) for one input
    only: an amount other than 0 whose currency is the string
    ['EUR_RATES']. *)
Theorem fetched_rates_convert (currency_api_available : bool)
  (response_usd response_eur : option api_response) (value : Q) (c : string) :
  let exchange_rates :=
    get_exchange_rates currency_api_available response_usd response_eur in
  (exists y, convert_to_eur value c exchange_rates = Ok y)
  /\ (convert_to_usd value c exchange_rates = Err TypeError
      <-> c = "EUR_RATES" /\ ~ value == 0)
  /\ ((c = "EUR_RATES" /\ ~ value == 0)
      \/ exists y, convert_to_usd value c exchange_rates = Ok y).
Proof.
  intros exchange_rates.
  pose proof (get_exchange_rates_shaped currency_api_available response_usd
                response_eur) as Hshape.
  fold exchange_rates in Hshape.
  destruct (convert_to_usd_shaped exchange_rates value c Hshape) as [Hiff Hok].
  split; [|split; [exact Hiff|]].
  - destruct Hshape as (_ & _ & _ & t & Ht & _).
    unfold convert_to_eur. rewrite Ht.
    destruct (negb (truthy value) || Qeq_bool value 0)%bool;
      [eexists; reflexivity|].
    destruct (String.eqb (currency_map c) "EUR"); eexists; reflexivity.
  - destruct (decide (c = "EUR_RATES")) as [->|Hc]; [|right; apply Hok, Hc].
    destruct (Qeq_bool value 0) eqn:Hz.
    + right. unfold convert_to_usd. rewrite convert_zero_test, Hz.
      eexists. reflexivity.
    + left. split; [reflexivity|].
      intros H. apply Qeq_bool_iff in H. congruence.
Qed.

(** X13.  The rates of the pound and the yen are stored under ['£'] and
    ['¥'] and looked up under ['GBP'] and ['JPY']: an amount in pounds or yen
    is converted to USD at the rate 1, whatever the rates fetched. *)
Theorem pound_and_yen_to_usd_at_par (currency_api_available : bool)
  (response_usd response_eur : option api_response) (value : Q) (c : string) :
  In c ["£"; "GBP"; "¥"; "JPY"] ->
  exists y,
    convert_to_usd value c
      (get_exchange_rates currency_api_available response_usd response_eur)
    = Ok y
    /\ y == value.
Proof.
  intros Hc.
  pose proof (get_exchange_rates_shaped currency_api_available response_usd
                response_eur) as (Hkeys & _).
  assert (Hmiss : forall k, In k ["GBP"; "JPY"] ->
            get_exchange_rates currency_api_available response_usd
              response_eur !! k = None).
  { intros k Hk. apply eq_None_not_Some. rewrite Hkeys.
    unfold rate_keys. simpl in *.
    intros [H|[H|[H|[H|[H|[H|[]]]]]]]; destruct Hk as [<-|[<-|[]]];
      discriminate. }
  unfold convert_to_usd. rewrite convert_zero_test.
  destruct (Qeq_bool value 0) eqn:Hz.
  { apply Qeq_bool_iff in Hz. exists 0. split; [reflexivity|].
    symmetry. exact Hz. }
  simpl in Hc.
  destruct Hc as [<-|[<-|[<-|[<-|[]]]]];
    match goal with
    | |- context [currency_map ?c] =>
        let m := eval vm_compute in (currency_map c) in
        change (currency_map c) with m
    end; simpl String.eqb; cbv iota;
    rewrite Hmiss by (simpl; tauto);
    (eexists; split; [reflexivity|ring]).
Qed.

Lemma pound_and_yen_to_usd_at_par_witness :
  exists y,
    convert_to_usd 100 "£"
      (get_exchange_rates true demo_usd_response demo_eur_response) = Ok y
    /\ y == 100.
Proof.
  apply (pound_and_yen_to_usd_at_par true demo_usd_response
           demo_eur_response 100 "£").
  simpl. tauto.
Defined.

Lemma try_seq_lookup (a b : try_step) (k : string) (v : option rate_entry) :
  (forall er, er !! k = v -> (a er).1 !! k = v) ->
  (forall er, er !! k = v -> (b er).1 !! k = v) ->
  forall er, er !! k = v -> (try_seq a b er).1 !! k = v.
Proof.
  intros Ha Hb er Her. unfold try_seq.
  specialize (Ha er Her). destruct (a er) as [er1 [|]]; simpl in *.
  - apply Hb. exact Ha.
  - exact Ha.
Qed.

Lemma set_inverse_lookup_ne (src dst k : string) (rates : gmap string Q)
  (v : option rate_entry) :
  dst <> k ->
  forall er, er !! k = v -> (set_inverse src dst rates er).1 !! k = v.
Proof.
  intros Hne er Her. unfold set_inverse.
  destruct (rates !! src) as [r|]; [|exact Her].
  destruct (Qeq_bool r 0); [exact Her|].
  simpl. rewrite lookup_insert_ne by assumption. exact Her.
Qed.

Lemma fetch_eur_rates_lookup_ne (response_eur : option api_response)
  (k : string) (v : option rate_entry) :
  k <> "EUR_RATES" ->
  forall er, er !! k = v -> (fetch_eur_rates response_eur er).1 !! k = v.
Proof.
  intros Hk. unfold fetch_eur_rates.
  destruct response_eur as [[code [data|]]|]; simpl;
    try (intros er Her; exact Her).
  - destruct (Nat.eqb code 200); [|intros er Her; exact Her].
    intros er Her.
    match goal with
    | |- context [match ?c with Some _ => _ | None => _ end] => destruct c
    end; simpl; [|exact Her].
    rewrite lookup_insert_ne by congruence. exact Her.
  - destruct (Nat.eqb code 200); intros er Her; exact Her.
Qed.

(** X14.  A rate set before a later failure stays: when the USD response has
    a euro rate [r] other than 0, an amount in euro is worth the amount
    divided by [r] in USD, whatever the rest of the response and the second
    response are (a rate of 0 further on, a failing request). *)
Theorem euro_rate_survives_later_failure (rates_usd : gmap string Q) (r : Q)
  (response_eur : option api_response) (value : Q) :
  rates_usd !! "EUR" = Some r ->
  ~ r == 0 ->
  exists y,
    convert_to_usd value "€"
      (get_exchange_rates true (live rates_usd) response_eur) = Ok y
    /\ y == value / r.
Proof.
  intros Hr Hnz.
  assert (Hlook : get_exchange_rates true (live rates_usd) response_eur
                  !! "EUR" = Some (Rate (1.0 / r))).
  { unfold get_exchange_rates. simpl negb. cbv iota.
    unfold try_seq at 1.
    assert (Husd : (fetch_usd_rates (live rates_usd) static_exchange_rates).1
                   !! "EUR" = Some (Rate (1.0 / r))).
    { unfold fetch_usd_rates, live. simpl.
      unfold try_seq at 1. unfold set_inverse at 1. rewrite Hr.
      destruct (Qeq_bool r 0) eqn:Hz;
        [apply Qeq_bool_iff in Hz; contradiction|].
      repeat apply try_seq_lookup;
        try (apply set_inverse_lookup_ne; discriminate).
      apply lookup_insert_eq. }
    destruct (fetch_usd_rates (live rates_usd) static_exchange_rates)
      as [er1 [|]]; simpl in *; [|exact Husd].
    apply fetch_eur_rates_lookup_ne; [discriminate|exact Husd]. }
  unfold convert_to_usd. rewrite convert_zero_test.
  destruct (Qeq_bool value 0) eqn:Hz.
  - apply Qeq_bool_iff in Hz. exists 0. split; [reflexivity|].
    rewrite Hz. unfold Qdiv. ring.
  - change (currency_map "€") with "EUR". simpl String.eqb. cbv iota.
    rewrite Hlook. eexists. split; [reflexivity|].
    field. exact Hnz.
Qed.

Lemma euro_rate_survives_later_failure_witness :
  exists y,
    convert_to_usd 100 "€" (get_exchange_rates true demo_usd_response None)
    = Ok y
    /\ y == 125
    /\ get_exchange_rates true demo_usd_response None !! "RON"
       = static_exchange_rates !! "RON".
Proof.
  assert (Hr : (<["EUR" := 0.8]> (<["RON" := 0]> (<["GBP" := 0.5]> ∅))
                : gmap string Q) !! "EUR" = Some 0.8).
  { vm_compute. reflexivity. }
  destruct (euro_rate_survives_later_failure _ 0.8 None 100 Hr)
    as (y & Hy & Hval).
  { intros H. vm_compute in H. discriminate. }
  exists y. split; [exact Hy|]. split.
  - rewrite Hval. reflexivity.
  - vm_compute. reflexivity.
Defined.

Lemma put_inverse_lookup (key : string) (rates eur_rates e' : gmap string Q) :
  put_inverse key rates eur_rates = Some e' ->
  forall k, e' !! k = if decide (k = key)
                      then match rates !! key with
                           | Some r => Some (1.0 / r)
                           | None => eur_rates !! k
                           end
                      else eur_rates !! k.
Proof.
  unfold put_inverse. intros H k.
  destruct (rates !! key) as [r|] eqn:Hr.
  - destruct (Qeq_bool r 0); [discriminate|]. injection H as <-.
    destruct (decide (k = key)) as [->|Hne].
    + apply lookup_insert_eq.
    + rewrite lookup_insert_ne by congruence. reflexivity.
  - injection H as <-. destruct (decide (k = key)); reflexivity.
Qed.

(** X15.  The table of EUR rates is replaced as a whole or not at all: it is
    the static table, or it is built from the EUR response alone, in which
    case a currency the response does not list has no rate in it (and is
    then converted to EUR at the rate 1, not at its static rate). *)
Theorem eur_rates_replaced_as_a_whole (currency_api_available : bool)
  (response_usd response_eur : option api_response) :
  let exchange_rates :=
    get_exchange_rates currency_api_available response_usd response_eur in
  exchange_rates !! "EUR_RATES" = static_exchange_rates !! "EUR_RATES"
  \/ exists data_eur eur_rates,
       response_eur = Some (mkResponse 200 (Some data_eur))
       /\ exchange_rates !! "EUR_RATES" = Some (RateTable eur_rates)
       /\ forall k,
            eur_rates !! k
            = if decide (k = "EUR") then Some 1.0
              else if decide (In k ["USD"; "RON"; "GBP"; "JPY"])
                   then Qdiv 1.0 <$> default ∅ (data_rates data_eur) !! k
                   else None.
Proof.
  intros exchange_rates. subst exchange_rates.
  unfold get_exchange_rates.
  destruct currency_api_available; simpl; [|left; reflexivity].
  unfold try_seq.
  assert (Husd : (fetch_usd_rates response_usd static_exchange_rates).1
                 !! "EUR_RATES" = static_exchange_rates !! "EUR_RATES").
  { unfold fetch_usd_rates.
    destruct response_usd as [[code [data|]]|]; simpl; try reflexivity.
    - destruct (Nat.eqb code 200); [|reflexivity].
      repeat apply try_seq_lookup;
        try (apply set_inverse_lookup_ne; discriminate).
      reflexivity.
    - destruct (Nat.eqb code 200); reflexivity. }
  destruct (fetch_usd_rates response_usd static_exchange_rates)
    as [er1 [|]]; simpl in *; [|left; exact Husd].
  unfold fetch_eur_rates.
  destruct response_eur as [[code [data|]]|]; simpl;
    try (left; exact Husd).
  - destruct (Nat.eqb_spec code 200) as [->|_]; [|left; exact Husd].
    destruct (put_inverse "USD" (default ∅ (data_rates data)) ∅)
      as [e1|] eqn:H1; simpl; [|left; exact Husd].
    destruct (put_inverse "RON" (default ∅ (data_rates data)) e1)
      as [e2|] eqn:H2; simpl; [|left; exact Husd].
    destruct (put_inverse "GBP" (default ∅ (data_rates data)) e2)
      as [e3|] eqn:H3; simpl; [|left; exact Husd].
    destruct (put_inverse "JPY" (default ∅ (data_rates data)) e3)
      as [e4|] eqn:H4; simpl; [|left; exact Husd].
    right. exists data, (<["EUR" := 1.0]> e4).
    split; [reflexivity|]. split; [apply lookup_insert_eq|].
    intros k.
    destruct (decide (k = "EUR")) as [->|Hk]; [apply lookup_insert_eq|].
    rewrite lookup_insert_ne by congruence.
    rewrite (put_inverse_lookup _ _ _ _ H4 k),
            (put_inverse_lookup _ _ _ _ H3 k),
            (put_inverse_lookup _ _ _ _ H2 k),
            (put_inverse_lookup _ _ _ _ H1 k), lookup_empty.
    repeat match goal with
           | |- context [decide (k = ?s)] =>
               destruct (decide (k = s)) as [->|?]
           end;
      try (destruct (default ∅ (data_rates data) !! _); reflexivity).
    rewrite decide_False; [reflexivity|].
    simpl. intros [H|[H|[H|[H|[]]]]]; congruence.
  - destruct (Nat.eqb code 200); left; exact Husd.
Qed.

(** ** The performance series is produced *)

Lemma names_present_of_Forall (txs : list transaction) :
  Forall (fun t => is_buy t = true -> is_Some (name t)) txs ->
  names_present txs = true.
Proof.
  intros H. unfold names_present. apply forallb_forall.
  rewrite List.Forall_forall in H. intros t Ht. specialize (H t Ht).
  destruct (is_buy t); [|reflexivity].
  apply bool_decide_eq_true. apply H. reflexivity.
Qed.

Lemma Forall_flat_map_filter {A B : Type} (P : B -> Prop) (f : A -> list B)
  (keep : B -> Prop) `{!forall x, Decision (keep x)} (l : list A) :
  Forall P (flat_map f l) ->
  Forall P (flat_map (fun a => filter keep (f a)) l).
Proof.
  induction l as [|a l IH]; simpl; [constructor|].
  intros Hall. apply Forall_app in Hall as [Ha Hl].
  apply Forall_app. split; [|apply IH; exact Hl].
  apply List.Forall_forall. intros x Hx.
  rewrite List.Forall_forall in Ha. apply Ha.
  apply list_elem_of_In in Hx. apply list_elem_of_In.
  apply list_elem_of_filter in Hx as [_ Hx]. exact Hx.
Qed.

Lemma next_holding_currency (h h' : holding) (t : transaction) :
  next_holding h t = Ok h' ->
  h_currency h' = h_currency h
  \/ (is_buy t = true /\ h_currency h' = default "$" (currency t)).
Proof.
  unfold next_holding.
  destruct (is_buy t).
  - destruct (name t); simpl; [|discriminate]. intros [= <-].
    right. split; reflexivity.
  - destruct (is_sell t); intros [= <-]; left; reflexivity.
Qed.

(** The currency of a holding is the default or the currency of a buy. *)
Lemma replay_currency (P : string -> Prop) (txs : list transaction)
  (hd : gmap string holding) :
  P "$" ->
  Forall (fun t => forall c, currency t = Some c -> P c) txs ->
  replay ∅ txs = Ok hd ->
  forall s, P (h_currency (get_holding hd s)).
Proof.
  intros Hdollar Htxs Hrun. revert Htxs. revert txs hd Hrun.
  apply (replay_ind (fun txs hd =>
           Forall (fun t => forall c, currency t = Some c -> P c) txs ->
           forall s, P (h_currency (get_holding hd s)))).
  - intros _ s. exact Hdollar.
  - intros txs t hd hd' _ IH Hstep Hall s.
    apply Forall_app in Hall as [Hall Ht].
    apply Forall_cons in Ht as [Ht _].
    specialize (IH Hall).
    apply next_holding_Ok_insert in Hstep as (h' & Hnext & ->).
    destruct (decide (symbol t = s)) as [<-|Hne].
    + rewrite get_holding_insert.
      apply next_holding_currency in Hnext as [->|[_ ->]]; [apply IH|].
      destruct (currency t) as [c|] eqn:Hc; simpl; [|exact Hdollar].
      apply Ht. reflexivity.
    + rewrite get_holding_insert_ne by assumption. apply IH.
Qed.

Lemma holdings_at_total (accounts : list account) (target_date : date) :
  names_present (flat_map transactions accounts) = true ->
  Forall (fun t => currency t <> Some "EUR_RATES")
         (flat_map transactions accounts) ->
  exists holdings,
    holdings_at accounts target_date = Ok holdings
    /\ forall s h, holdings !! s = Some h -> h_currency h <> "EUR_RATES".
Proof.
  intros Hnames Hcur. unfold holdings_at.
  set (txs := sort_by_date tdate _).
  assert (Hn : names_present txs = true).
  { apply names_present_of_Forall. subst txs. apply sort_by_date_Forall.
    apply Forall_flat_map_filter. apply names_present_Forall. exact Hnames. }
  assert (Hc : Forall (fun t => forall c, currency t = Some c ->
                                 c <> "EUR_RATES") txs).
  { subst txs. apply sort_by_date_Forall. apply Forall_flat_map_filter.
    eapply Forall_impl; [exact Hcur|].
    intros t Ht c Hc ->. apply Ht. exact Hc. }
  destruct (process_transactions_total ∅ txs Hn) as [out Hout].
  exists out. split; [exact Hout|].
  apply process_transactions_Ok in Hout as (hd & Hrep & ->).
  intros s h Hs. apply prune_lookup_Some in Hs as [Hs _].
  pose proof (replay_currency (fun c => c <> "EUR_RATES") txs hd
                ltac:(discriminate) Hc Hrep s) as H.
  unfold get_holding in H. rewrite Hs in H. exact H.
Qed.

Lemma value_holding_total (now : date)
  (real_time_data : gmap string (option Q))
  (get_historical_price : string -> date -> option Q)
  (use_current_prices : bool) (target_date : date)
  (exchange_rates : gmap string rate_entry)
  (st : gmap string Q * Q * list Q) (item : string * holding) :
  rates_shaped exchange_rates ->
  h_currency item.2 <> "EUR_RATES" ->
  exists st',
    value_holding real_time_data get_historical_price use_current_prices
                  target_date exchange_rates st item = Ok st'.
Proof.
  intros Hshape Hcur. destruct st as [[cache value] gains].
  destruct item as [s h]. rewrite value_holding_eq.
  destruct (lookup_price real_time_data get_historical_price
              use_current_prices target_date cache s h) as [p cache1].
  destruct (convert_to_usd_shaped exchange_rates p (h_currency h) Hshape)
    as [_ Hok].
  destruct (Hok Hcur) as [y ->]. eexists. reflexivity.
Qed.

Lemma compute_portfolio_performance_total (now : date)
  (real_time_data : gmap string (option Q))
  (get_historical_price : string -> date -> option Q)
  (accounts : list account) (exchange_rates : gmap string rate_entry)
  (m y : nat) :
  rates_shaped exchange_rates ->
  names_present (flat_map transactions accounts) = true ->
  Forall (fun t => currency t <> Some "EUR_RATES")
         (flat_map transactions accounts) ->
  exists perf,
    compute_portfolio_performance now real_time_data get_historical_price
      accounts m y exchange_rates = Ok perf.
Proof.
  intros Hshape Hnames Hcur. unfold compute_portfolio_performance.
  destruct (holdings_at_total accounts (target_date_of now y m) Hnames Hcur)
    as (holdings & -> & Hh).
  rewrite bind_Ok.
  destruct (foldM_total
              (value_holding real_time_data get_historical_price
                 (is_current_month now y m) (target_date_of now y m)
                 exchange_rates)
              (fun item => h_currency item.2 <> "EUR_RATES")
              (map_to_list holdings)) with (s := (∅ : gmap string Q, 0, @nil Q))
    as [[[cache value] gains] ->].
  - intros st item Hitem.
    apply (value_holding_total now); assumption.
  - apply List.Forall_forall. intros [s h] Hin. simpl.
    apply (Hh s). apply elem_of_map_to_list. apply list_elem_of_In. exact Hin.
  - eexists. reflexivity.
Qed.

(** X16.  The series is produced: with rates of the shape
    [get_exchange_rates] gives, a name on every buy and no transaction in
    the currency ['EUR_RATES'], the month loop raises nothing and writes one
    row for each month, whatever the clock and the price sources give. *)
Theorem performance_series_is_produced (now : date)
  (real_time_data : gmap string (option Q))
  (get_historical_price : string -> date -> option Q)
  (accounts : list account) (exchange_rates : gmap string rate_entry)
  (months : list (nat * nat)) :
  rates_shaped exchange_rates ->
  names_present (flat_map transactions accounts) = true ->
  Forall (fun t => currency t <> Some "EUR_RATES")
         (flat_map transactions accounts) ->
  exists out,
    create_performance_analysis now real_time_data get_historical_price
      accounts exchange_rates months = Ok out
    /\ length out = length months
    /\ map row_month out = months.
Proof.
  intros Hshape Hnames Hcur.
  assert (Hrun : exists out,
             create_performance_analysis now real_time_data
               get_historical_price accounts exchange_rates months = Ok out).
  { unfold create_performance_analysis.
    destruct (foldM_total
                (performance_month now real_time_data get_historical_price
                   accounts exchange_rates)
                (fun _ => True) months) with (s := initial_loop_state)
      as [st ->].
    - intros st [y m] _. unfold performance_month.
      destruct (compute_portfolio_performance_total now real_time_data
                  get_historical_price accounts exchange_rates m y
                  Hshape Hnames Hcur) as [perf ->].
      rewrite bind_Ok.
      destruct (sp500_cache st !! (y, m)); eexists; reflexivity.
    - apply List.Forall_forall. intros; exact I.
    - eexists. reflexivity. }
  destruct Hrun as [out Hrun]. exists out. split; [exact Hrun|].
  pose proof (series_length _ _ _ _ _ _ _ Hrun) as Hlen.
  split; [exact Hlen|].
  apply list_eq. intros i. rewrite list_lookup_fmap.
  destruct (months !! i) as [ym|] eqn:Hym.
  - destruct (lookup_lt_is_Some_2 out i) as [row Hrow].
    { rewrite Hlen. eapply lookup_lt_Some. exact Hym. }
    rewrite Hrow. simpl.
    destruct (row_at _ _ _ _ _ _ _ _ _ _ Hrun Hym Hrow)
      as (st & perf & _ & _ & -> & _).
    reflexivity.
  - apply lookup_ge_None in Hym.
    rewrite (proj2 (lookup_ge_None out i)); [reflexivity|lia].
Qed.

Lemma performance_series_is_produced_witness :
  exists out,
    create_performance_analysis demo_now demo_real_time demo_history
      scenario_portfolio
      (get_exchange_rates true demo_usd_response demo_eur_response)
      demo_months = Ok out
    /\ length out = 3%nat.
Proof.
  destruct (performance_series_is_produced demo_now demo_real_time
              demo_history scenario_portfolio
              (get_exchange_rates true demo_usd_response demo_eur_response)
              demo_months) as (out & Hrun & Hlen & _).
  - apply get_exchange_rates_shaped.
  - reflexivity.
  - repeat constructor; discriminate.
  - exists out. split; [exact Hrun|exact Hlen].
Defined.

(** ** The months of the series *)

Lemma nth_month_number (d : date) :
  month_valid d -> nth_month (month_number d) = (year d, month d).
Proof.
  unfold month_valid, nth_month, month_number. intros Hm.
  assert (Hdiv : ((12 * year d + (month d - 1)) / 12 = year d)%nat).
  { symmetry. apply (Nat.div_unique _ 12 (year d) (month d - 1)); lia. }
  assert (Hmod : ((12 * year d + (month d - 1)) mod 12 = month d - 1)%nat).
  { symmetry. apply (Nat.mod_unique _ 12 (year d) (month d - 1)); lia. }
  rewrite Hdiv, Hmod. f_equal. lia.
Qed.

Lemma nth_month_index (y m : nat) :
  (1 <= m <= 12)%nat -> nth_month (12 * y + (m - 1)) = (y, m).
Proof. intros Hm. apply (nth_month_number (mkDate 1 m y)). exact Hm. Qed.

Lemma months_from_step (k n : nat) (y m : nat) :
  (1 <= m <= 12)%nat -> k = (12 * y + (m - 1))%nat ->
  map nth_month (seq k (S n)) = (y, m) :: map nth_month (seq (S k) n).
Proof.
  intros Hm ->. cbn [seq map]. rewrite nth_month_index by exact Hm.
  reflexivity.
Qed.

Lemma month_loop_spec (current_date : date) (fuel : nat) :
  (month current_date <= 12)%nat ->
  forall y m months,
    (1 <= m <= 12)%nat ->
    (12 * (year current_date + 1 - y) + (12 - m) < fuel)%nat ->
    month_loop fuel current_date y m months
    = Some (months
            ++ map nth_month
                 (seq (12 * y + (m - 1))
                      (12 * year current_date + month current_date
                       - (12 * y + (m - 1))))).
Proof.
  intros Hcm. induction fuel as [|fuel IH]; intros y m months Hm Hfuel; [lia|].
  cbn [month_loop].
  destruct (Nat.ltb y (year current_date)
            || (Nat.eqb y (year current_date)
                && Nat.leb m (month current_date)))%bool eqn:Hcond.
  - assert (Hle : (y < year current_date
                   \/ (y = year current_date /\ m <= month current_date))%nat).
    { apply orb_true_iff in Hcond as [H|H].
      - left. apply Nat.ltb_lt. exact H.
      - right. apply andb_true_iff in H as [H1 H2].
        apply Nat.eqb_eq in H1. apply Nat.leb_le in H2. split; assumption. }
    destruct (Nat.ltb 12 (m + 1)) eqn:Hwrap.
    + apply Nat.ltb_lt in Hwrap.
      rewrite IH by lia. rewrite <- app_assoc. do 2 f_equal.
      replace (12 * year current_date + month current_date
               - (12 * y + (m - 1)))%nat
        with (S (12 * year current_date + month current_date
                 - (12 * (y + 1) + (1 - 1))))%nat by lia.
      rewrite (months_from_step _ _ y m Hm eq_refl).
      replace (S (12 * y + (m - 1))) with (12 * (y + 1) + (1 - 1))%nat by lia.
      reflexivity.
    + apply Nat.ltb_ge in Hwrap.
      rewrite IH by lia. rewrite <- app_assoc. do 2 f_equal.
      replace (12 * year current_date + month current_date
               - (12 * y + (m - 1)))%nat
        with (S (12 * year current_date + month current_date
                 - (12 * y + (m + 1 - 1))))%nat by lia.
      rewrite (months_from_step _ _ y m Hm eq_refl).
      replace (S (12 * y + (m - 1))) with (12 * y + (m + 1 - 1))%nat by lia.
      reflexivity.
  - assert (Hgt : (12 * year current_date + month current_date
                   - (12 * y + (m - 1)) = 0)%nat).
    { apply orb_false_iff in Hcond as [H1 H2].
      apply Nat.ltb_ge in H1.
      apply andb_false_iff in H2 as [H2|H2].
      - apply Nat.eqb_neq in H2. lia.
      - apply Nat.leb_gt in H2. lia. }
    rewrite Hgt. cbn [seq map]. rewrite app_nil_r. reflexivity.
Qed.

Lemma oldest_fold (txs : list transaction) :
  forall o,
    match fold_left oldest_step txs o with
    | None => o = None /\ txs = []
    | Some d =>
        (o = Some d \/ exists t, In t txs /\ tdate t = d)
        /\ (forall d0, o = Some d0 -> date_le d d0)
        /\ forall t, In t txs -> date_le d (tdate t)
    end.
Proof.
  induction txs as [|t txs IH]; intros o; simpl.
  - destruct o as [d|]; [|split; reflexivity].
    split; [left; reflexivity|]. split; [|intros t []].
    intros d0 [= <-]. unfold date_le. apply date_leb_spec. lia.
  - specialize (IH (oldest_step o t)).
    destruct (fold_left oldest_step txs (oldest_step o t)) as [d|].
    + destruct IH as (Hfrom & Hle & Hall).
      assert (Hstep : date_le d (tdate t)
                      /\ forall d0, o = Some d0 -> date_le d d0).
      { unfold oldest_step in Hle. destruct o as [d0|].
        - unfold date_ltb in Hle.
          destruct (date_leb d0 (tdate t)) eqn:Hcmp; simpl in Hle.
          + specialize (Hle d0 eq_refl). split.
            * eapply date_le_trans; [exact Hle|exact Hcmp].
            * intros d1 [= <-]. exact Hle.
          + specialize (Hle (tdate t) eq_refl). split; [exact Hle|].
            intros d1 [= <-]. eapply date_le_trans; [exact Hle|].
            apply date_leb_false. exact Hcmp.
        - split; [apply Hle; reflexivity|discriminate]. }
      destruct Hstep as [Ht Ho].
      split; [|split; [exact Ho|]].
      * destruct Hfrom as [Hfrom|(t' & Hin & Hd)].
        -- unfold oldest_step in Hfrom. destruct o as [d0|].
           ++ destruct (date_ltb (tdate t) d0).
              ** injection Hfrom as <-. right. exists t.
                 split; [left; reflexivity|reflexivity].
              ** left. exact Hfrom.
           ++ injection Hfrom as <-. right. exists t.
              split; [left; reflexivity|reflexivity].
        -- right. exists t'. split; [right; exact Hin|exact Hd].
      * intros t' [<-|Hin]; [exact Ht|apply Hall; exact Hin].
    + destruct IH as [Habs _]. unfold oldest_step in Habs.
      destruct o as [d0|]; [destruct (date_ltb (tdate t) d0)|]; discriminate.
Qed.

Lemma find_oldest_date_spec (accounts : list account) :
  match find_oldest_date accounts with
  | None => flat_map transactions accounts = []
  | Some d =>
      (exists t, In t (flat_map transactions accounts) /\ tdate t = d)
      /\ forall t, In t (flat_map transactions accounts) -> date_le d (tdate t)
  end.
Proof.
  unfold find_oldest_date.
  pose proof (oldest_fold (flat_map transactions accounts) None) as H.
  destruct (fold_left oldest_step (flat_map transactions accounts) None)
    as [d|].
  - destruct H as ([H|H] & _ & Hall); [discriminate|]. split; assumption.
  - apply H.
Qed.

Lemma month_range_from_oldest (now : date) (accounts : list account)
  (d : date) :
  (month now <= 12)%nat -> month_valid d ->
  find_oldest_date accounts = Some d ->
  get_month_range_from_transactions now accounts = Some (months_from d now).
Proof.
  intros Hnow Hd Hold. unfold get_month_range_from_transactions.
  rewrite Hold. rewrite month_loop_spec.
  - reflexivity.
  - exact Hnow.
  - exact Hd.
  - unfold month_loop_fuel. lia.
Qed.

(** X17.  The months of the series: the loop ends, and lists the consecutive
    months from the month of the oldest transaction to the current month,
    each once and in order (none when the oldest transaction is after the
    current month, or when there is no transaction). *)
Theorem month_range_is_consecutive (now : date) (accounts : list account) :
  Forall (fun t => month_valid (tdate t)) (flat_map transactions accounts) ->
  (month now <= 12)%nat ->
  exists months,
    get_month_range_from_transactions now accounts = Some months
    /\ (flat_map transactions accounts = [] -> months = [])
    /\ forall t,
         In t (flat_map transactions accounts) ->
         (forall t', In t' (flat_map transactions accounts) ->
                     date_le (tdate t) (tdate t')) ->
         months
         = map nth_month
               (seq (month_number (tdate t))
                    (12 * year now + month now - month_number (tdate t)))
         /\ length months
            = (12 * year now + month now - month_number (tdate t))%nat.
Proof.
  intros Hvalid Hnow.
  pose proof (find_oldest_date_spec accounts) as Hspec.
  destruct (find_oldest_date accounts) as [d|] eqn:Hold.
  - destruct Hspec as ((t0 & Hin0 & Hd0) & Hmin).
    assert (Hd : month_valid d).
    { rewrite List.Forall_forall in Hvalid. rewrite <- Hd0.
      apply Hvalid. exact Hin0. }
    exists (months_from d now).
    split; [apply month_range_from_oldest; assumption|].
    split; [intros Hnil; rewrite Hnil in Hin0; destruct Hin0|].
    intros t Hin Hleast.
    assert (Hsame : month_number (tdate t) = month_number d).
    { pose proof (Hmin t Hin) as H1.
      pose proof (Hleast t0 Hin0) as H2. rewrite Hd0 in H2.
      unfold date_le in H1, H2. rewrite date_leb_spec in H1, H2.
      unfold month_number. lia. }
    rewrite Hsame. split; [reflexivity|].
    unfold months_from. rewrite length_map, length_seq. reflexivity.
  - exists []. unfold get_month_range_from_transactions. rewrite Hold.
    split; [reflexivity|]. split; [reflexivity|].
    intros t Hin. rewrite Hspec in Hin. destruct Hin.
Qed.

Lemma month_range_is_consecutive_witness :
  exists months,
    get_month_range_from_transactions demo_now two_accounts = Some months
    /\ months = [(2023, 11); (2023, 12); (2024, 1); (2024, 2); (2024, 3)]%nat.
Proof.
  destruct (month_range_is_consecutive demo_now two_accounts)
    as (months & Hrun & _ & Hform).
  - repeat constructor.
  - vm_compute. lia.
  - exists months. split; [exact Hrun|].
    destruct (Hform (buy "BETA" 2 40 (mkDate 20 11 2023))) as [-> _].
    + simpl. tauto.
    + intros t' Hin. simpl in Hin.
      destruct Hin as [<-|[<-|[<-|[]]]]; reflexivity.
    + reflexivity.
Defined.

(** X18.  No month with a transaction is left out: the month of every
    transaction dated in the current month or before it is in the list. *)
Theorem month_range_covers_transactions (now : date)
  (accounts : list account) (months : list (nat * nat)) (t : transaction) :
  Forall (fun t => month_valid (tdate t)) (flat_map transactions accounts) ->
  (month now <= 12)%nat ->
  get_month_range_from_transactions now accounts = Some months ->
  In t (flat_map transactions accounts) ->
  (year (tdate t) < year now
   \/ (year (tdate t) = year now /\ month (tdate t) <= month now))%nat ->
  In (year (tdate t), month (tdate t)) months.
Proof.
  intros Hvalid Hnow Hrun Hin Hpast.
  pose proof (find_oldest_date_spec accounts) as Hspec.
  destruct (find_oldest_date accounts) as [d|] eqn:Hold.
  - destruct Hspec as ((t0 & Hin0 & Hd0) & Hmin).
    rewrite List.Forall_forall in Hvalid.
    assert (Hd : month_valid d).
    { rewrite <- Hd0. apply Hvalid. exact Hin0. }
    rewrite (month_range_from_oldest now accounts d Hnow Hd Hold) in Hrun.
    injection Hrun as <-.
    pose proof (Hvalid t Hin) as Ht.
    rewrite <- (nth_month_number (tdate t) Ht).
    unfold months_from. apply in_map. apply in_seq.
    pose proof (Hmin t Hin) as Hle.
    unfold date_le in Hle. rewrite date_leb_spec in Hle.
    unfold month_valid in Hd, Ht. unfold month_number. lia.
  - rewrite Hspec in Hin. destruct Hin.
Qed.

Lemma month_range_covers_transactions_witness :
  exists months,
    get_month_range_from_transactions demo_now two_accounts = Some months
    /\ In (2024, 2)%nat months.
Proof.
  assert (Hrun : exists months,
             get_month_range_from_transactions demo_now two_accounts
             = Some months).
  { eexists. vm_compute. reflexivity. }
  destruct Hrun as (months & Hrun). exists months. split; [exact Hrun|].
  apply (month_range_covers_transactions demo_now two_accounts months
           (sell "BETA" 1 50 (mkDate 3 2 2024) 0)).
  - repeat constructor.
  - vm_compute. lia.
  - exact Hrun.
  - simpl. tauto.
  - simpl. lia.
Defined.

(** ** Loading the portfolio *)

Lemma mapM_Ok {A B : Type} (f : A -> result B) (l : list A) (r : list B) :
  mapM f l = Ok r -> Forall2 (fun x y => f x = Ok y) l r.
Proof.
  revert r. induction l as [|x l IH]; intros r Hrun; simpl in Hrun.
  - injection Hrun as <-. constructor.
  - destruct (f x) as [y|e] eqn:Hx; [|discriminate]. simpl in Hrun.
    destruct (mapM f l) as [ys|e]; [|discriminate]. simpl in Hrun.
    injection Hrun as <-. constructor; [exact Hx|]. apply IH. reflexivity.
Qed.

Lemma dict_set_fresh {V : Type} (k : string) (v : V) (d : list (string * V)) :
  k ∉ d.*1 -> dict_set k v d = d ++ [(k, v)].
Proof.
  intros Hk. unfold dict_set. rewrite bool_decide_eq_false_2 by exact Hk.
  reflexivity.
Qed.

Lemma load_accounts_NoDup (accounts : list json_account) :
  forall d,
    NoDup (d.*1 ++ map ja_account_name accounts) ->
    fold_left (fun d a => dict_set (ja_account_name a) a d) accounts d
    = d ++ map (fun a => (ja_account_name a, a)) accounts.
Proof.
  induction accounts as [|a accounts IH]; intros d Hnd; simpl.
  - rewrite app_nil_r. reflexivity.
  - simpl in Hnd.
    assert (Hfresh : ja_account_name a ∉ d.*1).
    { apply NoDup_app in Hnd as (_ & Hdis & _). intros Hin.
      apply (Hdis _ Hin). left. }
    rewrite dict_set_fresh by exact Hfresh.
    rewrite IH.
    + rewrite <- app_assoc. reflexivity.
    + rewrite fmap_app. simpl. rewrite <- app_assoc. simpl.
      apply NoDup_app in Hnd as (Hd & Hdis & Hrest).
      apply NoDup_cons in Hrest as [Ha Hrest].
      apply NoDup_app. split; [exact Hd|]. split.
      * intros x Hx Hin. apply (Hdis x Hx). exact Hin.
      * constructor; assumption.
Qed.

Lemma net_shares_app (s : string) (l1 l2 : list transaction) :
  net_shares s (l1 ++ l2) == net_shares s l1 + net_shares s l2.
Proof.
  induction l1 as [|t l1 IH]; simpl; [ring|]. rewrite IH. ring.
Qed.

Lemma net_shares_insert_sorted (s : string) (x : transaction)
  (l : list transaction) :
  net_shares s (insert_sorted tdate x l) == net_change s x + net_shares s l.
Proof.
  induction l as [|y l IH]; simpl; [reflexivity|].
  destruct (date_leb (tdate x) (tdate y)); simpl; [reflexivity|].
  rewrite IH. ring.
Qed.

Lemma net_shares_sort (s : string) (l : list transaction) :
  net_shares s (sort_by_date tdate l) == net_shares s l.
Proof.
  induction l as [|x l IH]; simpl; [reflexivity|].
  rewrite net_shares_insert_sorted, IH. reflexivity.
Qed.

Lemma net_shares_flat_map {A : Type} (f : A -> list transaction) (s : string)
  (l : list A) :
  net_shares s (flat_map f l) == Qsum (map (fun a => net_shares s (f a)) l).
Proof.
  induction l as [|a l IH]; simpl; [reflexivity|].
  rewrite net_shares_app, IH. reflexivity.
Qed.

(** Without an oversell the shares reported are the shares bought less the
    shares sold. *)
Lemma process_transactions_net_shares (txs : list transaction)
  (out : gmap string holding) :
  process_transactions ∅ txs = Ok out ->
  shares_nonneg txs = true -> no_oversell txs = true ->
  forall s, shares_of out s == net_shares s txs.
Proof.
  intros Hrun Hnn Hno s.
  apply process_transactions_Ok in Hrun as (hd & Hrun & ->).
  pose proof (replay_net_shares txs hd Hrun Hnn Hno s) as Hnet.
  pose proof (replay_lots_nonneg txs hd Hrun (shares_nonneg_buys _ Hnn) s)
    as Hq.
  apply sum_shares_nonneg in Hq.
  pose proof (get_holding_recomputed hd s (replay_recomputed txs hd Hrun))
    as Hrec.
  apply recomputed_totals in Hrec as (Hts & _ & _).
  unfold shares_of.
  destruct (prune hd !! s) as [h|] eqn:E.
  - apply prune_lookup_Some in E as [E Hpos].
    unfold get_holding in *. rewrite E in *. simpl in *. lra.
  - apply prune_lookup_None in E as [E|(h & E & Hle)];
      unfold get_holding in *; rewrite E in *; simpl in *; lra.
Qed.

Lemma enrich_all_lookup (real_time_data : gmap string stock_info)
  (holdings : gmap string holding) (s : string) :
  enrich_all real_time_data holdings !! s
  = enrich real_time_data s <$> holdings !! s.
Proof.
  unfold enrich_all. rewrite map_lookup_imap.
  destruct (holdings !! s); reflexivity.
Qed.

Lemma enrich_total_shares (real_time_data : gmap string stock_info)
  (s : string) (h : holding) :
  total_shares (ph_holding (enrich real_time_data s h)) = total_shares h.
Proof. unfold enrich. destruct (real_time_data !! s); reflexivity. Qed.

Lemma held_shares_enrich_all (real_time_data : gmap string stock_info)
  (holdings : gmap string holding) (s : string) :
  held_shares (enrich_all real_time_data holdings) s = shares_of holdings s.
Proof.
  unfold held_shares, shares_of. rewrite enrich_all_lookup.
  destruct (holdings !! s); simpl; [apply enrich_total_shares|reflexivity].
Qed.

Lemma shares_nonneg_Forall (txs : list transaction) :
  shares_nonneg txs = true <->
  Forall (fun t => Qle_bool 0 (shares t) = true) txs.
Proof.
  unfold shares_nonneg. rewrite forallb_forall, List.Forall_forall.
  reflexivity.
Qed.

(** X19.  The global holdings add up the accounts: when the account names
    are distinct, share counts are not negative and there is no oversell
    (neither in an account, in the order of its file, nor in the merged list
    in the order of the dates), the shares [load_portfolio_data] reports
    for a symbol in the global holdings are the sum of the shares it
    reports for that symbol in the holdings of the accounts. *)
Theorem global_shares_sum_accounts (sv : services) (data : portfolio_json)
  (portfolio : portfolio_data) (s : string) :
  load_portfolio_data sv data = Ok portfolio ->
  NoDup (map ja_account_name (pj_accounts data)) ->
  shares_nonneg (flat_map ja_transactions (pj_accounts data)) = true ->
  no_oversell (pd_transactions portfolio) = true ->
  Forall (fun a => no_oversell (ja_transactions a) = true)
         (pj_accounts data) ->
  held_shares (pd_holdings portfolio) s
  == Qsum (map (fun kv : string * account_data =>
                  held_shares (ad_holdings kv.2) s)
               (pd_accounts portfolio)).
Proof.
  intros Hload Hnames Hnn Hglobal Heach.
  unfold load_portfolio_data in Hload.
  rewrite (load_accounts_NoDup (pj_accounts data) []) in Hload
    by exact Hnames.
  simpl app in Hload.
  destruct (mapM _ (map _ (pj_accounts data))) as [accs|e] eqn:Haccs;
    [|discriminate].
  rewrite bind_Ok in Hload.
  destruct (process_transactions ∅ _) as [global|e] eqn:Hg; [|discriminate].
  rewrite bind_Ok in Hload. injection Hload as <-.
  simpl in Hglobal |- *.
  set (rt := get_multiple_stocks_info _ _). clearbody rt.
  apply shares_nonneg_Forall in Hnn.
  rewrite held_shares_enrich_all.
  rewrite (process_transactions_net_shares _ _ Hg).
  2:{ apply shares_nonneg_Forall. apply sort_by_date_Forall. exact Hnn. }
  2:{ exact Hglobal. }
  rewrite net_shares_sort, net_shares_flat_map.
  apply mapM_Ok in Haccs. clear Hg Hglobal Hnames.
  revert accs Haccs Hnn Heach.
  induction (pj_accounts data) as [|a l IH]; intros accs Haccs Hnn Heach.
  - inversion Haccs. reflexivity.
  - simpl in Haccs. inversion Haccs as [|x y l' accs' Hx Hrest]; subst.
    simpl in Hx.
    destruct (process_transactions ∅ (ja_transactions a)) as [h|e] eqn:Ha;
      [|discriminate].
    injection Hx as <-. simpl.
    simpl in Hnn. apply Forall_app in Hnn as [Hnna Hnnl].
    apply Forall_cons in Heach as [Hnoa Hnol].
    rewrite held_shares_enrich_all.
    rewrite (process_transactions_net_shares _ _ Ha);
      [|apply shares_nonneg_Forall; exact Hnna|exact Hnoa].
    rewrite (IH accs' Hrest Hnnl Hnol). reflexivity.
Qed.

Lemma global_shares_sum_accounts_witness :
  exists portfolio,
    load_portfolio_data demo_services demo_json = Ok portfolio
    /\ held_shares (pd_holdings portfolio) "ACME" == 8
    /\ Qsum (map (fun kv : string * account_data =>
                    held_shares (ad_holdings kv.2) "ACME")
                 (pd_accounts portfolio)) == 8.
Proof.
  assert (Hrun : exists portfolio,
             load_portfolio_data demo_services demo_json = Ok portfolio
             /\ held_shares (pd_holdings portfolio) "ACME" == 8
             /\ no_oversell (pd_transactions portfolio) = true).
  { eexists. split; [vm_compute; reflexivity|].
    split; vm_compute; reflexivity. }
  destruct Hrun as (portfolio & Hload & Hheld & Hno).
  exists portfolio. split; [exact Hload|]. split; [exact Hheld|].
  rewrite <- (global_shares_sum_accounts demo_services demo_json portfolio
                "ACME" Hload).
  - exact Hheld.
  - apply (bool_decide_unpack _). vm_compute. reflexivity.
  - vm_compute. reflexivity.
  - exact Hno.
  - repeat constructor.
Defined.

(** ** The overview sheet *)

Lemma Qsum_Permutation (l l' : list Q) : l ≡ₚ l' -> Qsum l == Qsum l'.
Proof.
  induction 1 as [|x l l' _ IH|x y l|l l' l'' _ IH1 _ IH2]; simpl.
  - reflexivity.
  - rewrite IH. reflexivity.
  - ring.
  - rewrite IH1. exact IH2.
Qed.

Lemma values_sum_insert_fresh (m : gmap string Q) (c : string) (x : Q) :
  m !! c = None -> values_sum (<[c := x]> m) == values_sum m + x.
Proof.
  intros Hc. unfold values_sum.
  rewrite (Qsum_Permutation _ (map snd ((c, x) :: map_to_list m))).
  - simpl. ring.
  - apply Permutation_map. apply map_to_list_insert. exact Hc.
Qed.

Lemma values_sum_add (m : gmap string Q) (c : string) (x : Q) :
  values_sum (<[c := default 0 (m !! c) + x]> m) == values_sum m + x.
Proof.
  destruct (m !! c) as [old|] eqn:Hc; simpl.
  - assert (Hnew : values_sum (<[c := old + x]> m)
                   == values_sum (delete c m) + (old + x)).
    { rewrite <- (insert_delete_eq m c (old + x)).
      apply values_sum_insert_fresh. apply lookup_delete_eq. }
    assert (Hold : values_sum m == values_sum (delete c m) + old).
    { rewrite <- (insert_delete_id m c old Hc) at 1.
      apply values_sum_insert_fresh. apply lookup_delete_eq. }
    rewrite Hnew, Hold. ring.
  - rewrite values_sum_insert_fresh by exact Hc. ring.
Qed.

Lemma add_market_value_fold (l : list (string * portfolio_holding)) :
  forall v0 t0 v t,
    fold_left add_market_value l (v0, t0) = (v, t) ->
    (dom v : gset string)
    = dom v0
      ∪ list_to_set (map (fun item : string * portfolio_holding =>
                                  asset_class_or "US Stocks" item.2) l)
    /\ values_sum v - values_sum v0 == t - t0.
Proof.
  induction l as [|item l IH]; intros v0 t0 v t Hrun; simpl in Hrun.
  - injection Hrun as <- <-. split; [|ring].
    simpl. rewrite (right_id_L (∅ : gset string) (∪)). reflexivity.
  - apply IH in Hrun as [Hdom Hsum]. split.
    + rewrite Hdom, dom_insert_L. simpl.
      apply set_eq. intros k. rewrite !elem_of_union. tauto.
    + rewrite values_sum_add in Hsum. lra.
Qed.

Lemma insert_by_string_Permutation {A : Type} (key : A -> string) (x : A)
  (l : list A) :
  insert_by_string key x l ≡ₚ x :: l.
Proof.
  induction l as [|y l IH]; simpl; [reflexivity|].
  destruct (String.leb (key x) (key y)); [reflexivity|].
  rewrite IH. apply perm_swap.
Qed.

Lemma sort_by_string_Permutation {A : Type} (key : A -> string) (l : list A) :
  sort_by_string key l ≡ₚ l.
Proof.
  induction l as [|x l IH]; simpl; [reflexivity|].
  rewrite insert_by_string_Permutation, IH. reflexivity.
Qed.

Lemma values_sum_dom (m : gmap string Q) (l : list string) :
  l ≡ₚ elements (dom m) ->
  Qsum (map (fun c => default 0 (m !! c)) l) == values_sum m.
Proof.
  intros Hl.
  assert (Hkeys : l ≡ₚ (map_to_list m).*1).
  { rewrite Hl. apply NoDup_Permutation.
    - apply NoDup_elements.
    - apply NoDup_fst_map_to_list.
    - intros c. rewrite elem_of_elements, elem_of_dom.
      rewrite list_elem_of_fmap. split.
      + intros [x Hx]. exists (c, x). split; [reflexivity|].
        apply elem_of_map_to_list. exact Hx.
      + intros ([c' x] & -> & Hx). exists x.
        apply elem_of_map_to_list. exact Hx. }
  rewrite (Qsum_Permutation _ (map (fun c => default 0 (m !! c))
                                   (map_to_list m).*1)).
  2:{ apply Permutation_map. exact Hkeys. }
  unfold values_sum.
  assert (Hall : Forall (fun kv : string * Q => m !! kv.1 = Some kv.2)
                        (map_to_list m)).
  { apply List.Forall_forall. intros [c x] Hin. simpl.
    apply elem_of_map_to_list. apply list_elem_of_In. exact Hin. }
  clear Hkeys Hl.
  induction Hall as [|[c x] rest Hx _ IH]; simpl; [reflexivity|].
  simpl in Hx. rewrite Hx. simpl. rewrite IH. reflexivity.
Qed.

Lemma convert_step_Ok
  (convert : Q -> string -> gmap string rate_entry -> result Q)
  (target : string) (exchange_rates : gmap string rate_entry)
  (acc acc' : gmap string portfolio_holding) (s : string)
  (d : portfolio_holding) :
  convert_step convert target exchange_rates acc (s, d) = Ok acc' ->
  exists u, convert_holding convert target exchange_rates d = Ok u
            /\ acc' = <[s := u]> acc.
Proof.
  unfold convert_step. cbn [fst snd].
  destruct (convert_holding convert target exchange_rates d) as [u|e];
    [|discriminate].
  intros [= <-]. exists u. split; reflexivity.
Qed.

Lemma convert_step_keeps
  (convert : Q -> string -> gmap string rate_entry -> result Q)
  (target : string) (exchange_rates : gmap string rate_entry) (s : string)
  (l : list (string * portfolio_holding)) :
  forall acc out : gmap string portfolio_holding,
    s ∉ l.*1 ->
    foldM (convert_step convert target exchange_rates) l acc = Ok out ->
    out !! s = acc !! s.
Proof.
  induction l as [|[s1 d1] l IH]; intros acc out Hs Hrun.
  - injection Hrun as <-. reflexivity.
  - rewrite foldM_cons in Hrun.
    destruct (convert_step convert target exchange_rates acc (s1, d1))
      as [acc1|e] eqn:Hstep; [|discriminate].
    rewrite bind_Ok in Hrun.
    apply convert_step_Ok in Hstep as (u1 & _ & ->).
    simpl in Hs. apply not_elem_of_cons in Hs as [Hne Hs].
    rewrite (IH _ _ Hs Hrun). apply lookup_insert_ne. congruence.
Qed.

Lemma convert_holdings_fold
  (convert : Q -> string -> gmap string rate_entry -> result Q)
  (target : string) (exchange_rates : gmap string rate_entry)
  (l : list (string * portfolio_holding)) :
  forall acc out : gmap string portfolio_holding,
    NoDup (l.*1) ->
    foldM (convert_step convert target exchange_rates) l acc = Ok out ->
    (forall s, s ∈ dom out <-> s ∈ dom acc \/ s ∈ l.*1)
    /\ forall s d, (s, d) ∈ l ->
         exists u, convert_holding convert target exchange_rates d = Ok u
                   /\ out !! s = Some u.
Proof.
  induction l as [|[s0 d0] l IH]; intros acc out Hnd Hrun.
  - injection Hrun as <-. split.
    + intros s. simpl. rewrite elem_of_nil. tauto.
    + intros s d Hin. inversion Hin.
  - rewrite foldM_cons in Hrun.
    destruct (convert_step convert target exchange_rates acc (s0, d0))
      as [acc1|e] eqn:Hstep; [|discriminate].
    rewrite bind_Ok in Hrun.
    apply convert_step_Ok in Hstep as (u0 & Hd0 & ->).
    simpl in Hnd. apply NoDup_cons in Hnd as [Hs0 Hnd].
    destruct (IH _ _ Hnd Hrun) as [Hdom Hall]. split.
    + intros s. rewrite Hdom, dom_insert_L, elem_of_union,
        elem_of_singleton. simpl. rewrite elem_of_cons. tauto.
    + intros s d Hin. apply elem_of_cons in Hin as [[= -> ->]|Hin].
      * exists u0. split; [exact Hd0|].
        rewrite (convert_step_keeps _ _ _ _ _ _ _ Hs0 Hrun).
        apply lookup_insert_eq.
      * apply Hall. exact Hin.
Qed.

Lemma convert_holding_class
  (convert : Q -> string -> gmap string rate_entry -> result Q)
  (target : string) (exchange_rates : gmap string rate_entry)
  (d u : portfolio_holding) (c : string) :
  convert_holding convert target exchange_rates d = Ok u ->
  asset_class_or c u = asset_class_or c d
  /\ total_shares (ph_holding u) = total_shares (ph_holding d).
Proof.
  unfold convert_holding, asset_class_or. intros Hrun.
  destruct (convert (weighted_avg_cost (ph_holding d)) _ _) as [wac|e];
    [|discriminate].
  simpl in Hrun.
  destruct (ph_market d) as [m|].
  - destruct (convert (mf_current_price m) _ _) as [p|e]; [|discriminate].
    simpl in Hrun. injection Hrun as <-. split; reflexivity.
  - simpl in Hrun. injection Hrun as <-. split; reflexivity.
Qed.

(** The converted holdings have the asset classes of the holdings. *)
Lemma convert_holdings_classes
  (convert : Q -> string -> gmap string rate_entry -> result Q)
  (target : string) (holdings out : gmap string portfolio_holding)
  (exchange_rates : gmap string rate_entry) (c : string) :
  convert_holdings convert target holdings exchange_rates = Ok out ->
  (list_to_set (map (fun item : string * portfolio_holding =>
                       asset_class_or c item.2) (map_to_list out))
   : gset string)
  = list_to_set (map (fun item : string * portfolio_holding =>
                        asset_class_or c item.2) (map_to_list holdings)).
Proof.
  intros Hrun. unfold convert_holdings in Hrun.
  apply convert_holdings_fold in Hrun as [Hdom Hall];
    [|apply NoDup_fst_map_to_list].
  apply set_eq. intros k. rewrite !elem_of_list_to_set, !list_elem_of_fmap.
  split.
  - intros ([s u] & -> & Hin). simpl.
    apply elem_of_map_to_list in Hin.
    assert (Hs : s ∈ dom out) by (apply elem_of_dom; eexists; exact Hin).
    apply Hdom in Hs as [Hs|Hs]; [rewrite dom_empty_L in Hs; inversion Hs|].
    apply list_elem_of_fmap in Hs as ([s' d] & -> & Hd).
    destruct (Hall _ _ Hd) as (u' & Hconv & Hlook). simpl in Hin.
    rewrite Hlook in Hin. injection Hin as <-.
    exists (s', d). split; [|exact Hd]. simpl.
    eapply convert_holding_class. exact Hconv.
  - intros ([s d] & -> & Hin). simpl.
    destruct (Hall _ _ Hin) as (u & Hconv & Hlook).
    exists (s, u). split.
    + simpl. symmetry. eapply convert_holding_class. exact Hconv.
    + apply elem_of_map_to_list. exact Hlook.
Qed.

Lemma get_asset_class_in (quote_type country : option string) :
  In (get_asset_class quote_type country) asset_classes.
Proof.
  unfold get_asset_class, asset_classes.
  destruct quote_type as [qt|]; [|simpl; tauto].
  destruct (String.eqb qt "" || String.eqb qt "N/A")%bool; [simpl; tauto|].
  destruct (String.eqb qt "EQUITY").
  - destruct (bool_decide (country = Some "United States")); [simpl; tauto|].
    destruct (bool_decide (country = Some "Romania")); simpl; tauto.
  - destruct (String.eqb qt "ETF"); [simpl; tauto|].
    destruct (String.eqb qt "CRYPTOCURRENCY"); simpl; tauto.
Qed.

Lemma get_multiple_stocks_info_lookup (sv : services) (symbols : gset string)
  (s : string) :
  s ∈ symbols ->
  get_multiple_stocks_info sv symbols !! s
  = if sv_yfinance_available sv then sv_stock_info sv s else None.
Proof.
  intros Hs. unfold get_multiple_stocks_info.
  destruct (sv_yfinance_available sv); [|apply lookup_empty].
  rewrite map_lookup_imap.
  rewrite (proj2 (lookup_gset_to_gmap_Some tt symbols s tt)) by (split; auto).
  reflexivity.
Qed.

(** What [load_portfolio_data] returns as global holdings: the holdings of
    the ledger on the merged transactions, enriched with the market data of
    their symbols. *)
Lemma load_holdings_enriched (sv : services) (data : portfolio_json)
  (portfolio : portfolio_data) :
  load_portfolio_data sv data = Ok portfolio ->
  exists global,
    process_transactions ∅
      (sort_by_date tdate (flat_map ja_transactions (pj_accounts data)))
    = Ok global
    /\ pd_holdings portfolio
       = enrich_all (pd_real_time_data portfolio) global
    /\ (forall s, is_Some (global !! s) ->
          pd_real_time_data portfolio !! s
          = if sv_yfinance_available sv then sv_stock_info sv s else None)
    /\ pd_exchange_rates portfolio
       = get_exchange_rates (sv_currency_api_available sv)
                            (sv_response_usd sv) (sv_response_eur sv).
Proof.
  unfold load_portfolio_data. intros Hload.
  destruct (mapM _ _) as [accs|e]; [|discriminate].
  rewrite bind_Ok in Hload.
  destruct (process_transactions ∅ _) as [global|e] eqn:Hg; [|discriminate].
  rewrite bind_Ok in Hload. injection Hload as <-. simpl.
  exists global. split; [reflexivity|]. split; [reflexivity|].
  split; [|reflexivity].
  intros s Hs. apply get_multiple_stocks_info_lookup.
  apply elem_of_union_l, elem_of_union_l, elem_of_dom. exact Hs.
Qed.

Lemma loaded_class_not_cash (sv : services) (data : portfolio_json)
  (portfolio : portfolio_data) (s : string) (d : portfolio_holding) :
  load_portfolio_data sv data = Ok portfolio ->
  pd_holdings portfolio !! s = Some d ->
  asset_class_or "US Stocks" d <> "Cash".
Proof.
  intros Hload Hs.
  apply load_holdings_enriched in Hload as (global & _ & Hh & _).
  rewrite Hh, enrich_all_lookup in Hs.
  destruct (global !! s) as [h|]; [|discriminate].
  injection Hs as <-. unfold enrich, asset_class_or.
  destruct (pd_real_time_data portfolio !! s) as [info|]; simpl;
    [|discriminate].
  pose proof (get_asset_class_in (si_quote_type info) (si_country info)) as Hin.
  intros Heq. rewrite Heq in Hin. simpl in Hin.
  destruct Hin as [H|[H|[H|[H|[H|[H|[]]]]]]]; discriminate.
Qed.

Lemma Qsum_map_scale {A : Type} (f : A -> Q) (k : Q) (l : list A) :
  Qsum (map (fun x => f x * k) l) == Qsum (map f l) * k.
Proof.
  induction l as [|x l IH]; simpl; [ring|]. rewrite IH. ring.
Qed.

Lemma Qsum_map_minus {A : Type} (f g : A -> Q) (l : list A) :
  Qsum (map (fun x => f x - g x) l) == Qsum (map f l) - Qsum (map g l).
Proof.
  induction l as [|x l IH]; simpl; [ring|]. rewrite IH. ring.
Qed.

(** X20.  The overview adds up: for a portfolio that
    [load_portfolio_data] returned, the Current Value column of the
    overview sums to the total portfolio value the sheet works with, so
    that the Current % column sums to 1 when that total is positive and the
    Difference column sums to the total times (1 - the sum of the Target %
    column); each row has Target Value = Target % x total and Difference =
    Current Value - Target Value. *)
Theorem overview_adds_up (sv : services) (data : portfolio_json)
  (portfolio : portfolio_data) (sheet : list overview_row) :
  load_portfolio_data sv data = Ok portfolio ->
  create_portfolio_overview portfolio = Ok sheet ->
  exists total_portfolio_value,
    Qsum (map ov_current_value sheet) == total_portfolio_value
    /\ Forall (fun r =>
                 ov_target_value r = ov_target_pct r * total_portfolio_value
                 /\ ov_difference r = ov_current_value r - ov_target_value r
                 /\ ov_current_pct r
                    = if Qlt_bool 0 total_portfolio_value
                      then ov_current_value r / total_portfolio_value
                      else 0)
              sheet
    /\ (0 < total_portfolio_value ->
        Qsum (map ov_current_pct sheet) == 1)
    /\ Qsum (map ov_difference sheet)
       == total_portfolio_value * (1 - Qsum (map ov_target_pct sheet)).
Proof.
  intros Hload Hrun. unfold create_portfolio_overview in Hrun.
  destruct (create_global_holdings_with_usd_conversion _ _) as [usd|e]
    eqn:Husd; [|discriminate].
  rewrite bind_Ok in Hrun.
  destruct (fold_left add_market_value (map_to_list usd) (∅, 0))
    as [values total] eqn:Hfold.
  destruct (foldM (add_cash (pd_exchange_rates portfolio))
                  (pd_accounts portfolio) 0) as [cash|e]; [|discriminate].
  rewrite bind_Ok in Hrun.
  apply add_market_value_fold in Hfold as [Hdom Hsum].
  rewrite dom_empty_L, (left_id_L (∅ : gset string) (∪)) in Hdom.
  rewrite (convert_holdings_classes _ _ _ _ _ _ Husd) in Hdom.
  set (classes := list_to_set _ : gset string) in *.
  assert (Hvals : values_sum values == total).
  { unfold values_sum in Hsum at 2. rewrite map_to_list_empty in Hsum.
    simpl in Hsum. lra. }
  assert (Hnocash : values !! "Cash" = None).
  { apply not_elem_of_dom. rewrite Hdom. subst classes.
    rewrite elem_of_list_to_set, list_elem_of_fmap.
    intros ([s d] & Heq & Hin). apply elem_of_map_to_list in Hin.
    apply (loaded_class_not_cash _ _ _ _ _ Hload Hin). symmetry. exact Heq. }
  assert (Hgen : forall values' total' classes',
             dom values' = classes' ->
             values_sum values' == total' ->
             sheet = map (overview_row_of values' total'
                            (pd_target_asset_class_distribution portfolio))
                         (sort_by_string id (elements classes')) ->
             exists total_portfolio_value,
               Qsum (map ov_current_value sheet) == total_portfolio_value
               /\ Forall (fun r =>
                     ov_target_value r
                     = ov_target_pct r * total_portfolio_value
                     /\ ov_difference r
                        = ov_current_value r - ov_target_value r
                     /\ ov_current_pct r
                        = if Qlt_bool 0 total_portfolio_value
                          then ov_current_value r / total_portfolio_value
                          else 0) sheet
               /\ (0 < total_portfolio_value ->
                   Qsum (map ov_current_pct sheet) == 1)
               /\ Qsum (map ov_difference sheet)
                  == total_portfolio_value
                     * (1 - Qsum (map ov_target_pct sheet))).
  { clear. intros values total classes Hdom Hvals ->.
    set (l := sort_by_string id (elements classes)).
    exists total.
    assert (Hcur : Qsum (map ov_current_value
                            (map (overview_row_of values total
                               (pd_target_asset_class_distribution portfolio))
                               l)) == total).
    { rewrite map_map. simpl. rewrite <- Hvals. apply values_sum_dom.
      subst l. rewrite Hdom. apply sort_by_string_Permutation. }
    split; [exact Hcur|]. split; [|split].
    - apply List.Forall_forall. intros r Hr.
      apply in_map_iff in Hr as (c & <- & _). simpl.
      split; [reflexivity|]. split; reflexivity.
    - intros Hpos.
      assert (Hb : Qlt_bool 0 total = true) by (apply Qlt_bool_true; exact Hpos).
      rewrite map_map in Hcur |- *. simpl in Hcur |- *. rewrite Hb.
      unfold Qdiv.
      rewrite (Qsum_map_scale (fun c => default 0 (values !! c)) (/ total) l).
      rewrite Hcur. field. lra.
    - rewrite map_map in Hcur. simpl in Hcur.
      rewrite !map_map. simpl.
      rewrite (Qsum_map_minus (fun c => default 0 (values !! c))
                 (fun c => default 0
                     (pd_target_asset_class_distribution portfolio !! c)
                   / 100 * total) l).
      rewrite (Qsum_map_scale
                 (fun c => default 0
                     (pd_target_asset_class_distribution portfolio !! c)
                   / 100) total l).
      rewrite Hcur. ring. }
  destruct (Qlt_bool 0 cash) eqn:Hcash; injection Hrun as Hsheet;
    symmetry in Hsheet.
  - apply (Hgen (<["Cash" := cash]> values) (total + cash)
                  (classes ∪ {["Cash"]})).
    + rewrite dom_insert_L, Hdom. apply set_eq. intros k.
      rewrite !elem_of_union. tauto.
    + rewrite values_sum_insert_fresh by exact Hnocash.
      rewrite Hvals. reflexivity.
    + exact Hsheet.
  - apply (Hgen values total classes Hdom Hvals Hsheet).
Qed.

Lemma overview_adds_up_witness :
  exists portfolio sheet,
    load_portfolio_data demo_services demo_json = Ok portfolio
    /\ create_portfolio_overview portfolio = Ok sheet
    /\ map ov_asset_class sheet = ["Cash"; "Crypto"; "ETF"; "US Stocks"]
    /\ Qsum (map ov_current_pct sheet) == 1.
Proof.
  assert (Hrun : exists portfolio sheet,
             load_portfolio_data demo_services demo_json = Ok portfolio
             /\ create_portfolio_overview portfolio = Ok sheet
             /\ map ov_asset_class sheet
                = ["Cash"; "Crypto"; "ETF"; "US Stocks"]
             /\ 0 < Qsum (map ov_current_value sheet)).
  { eexists. eexists. split; [vm_compute; reflexivity|].
    split; [vm_compute; reflexivity|].
    split; vm_compute; reflexivity. }
  destruct Hrun as (portfolio & sheet & Hload & Hsheet & Hclasses & Hpos).
  exists portfolio, sheet. split; [exact Hload|]. split; [exact Hsheet|].
  split; [exact Hclasses|].
  destruct (overview_adds_up demo_services demo_json portfolio sheet
              Hload Hsheet) as (total & Hsum & _ & Hpct & _).
  apply Hpct. rewrite <- Hsum. exact Hpos.
Defined.

(** ** The dividend sheet *)

Lemma get_asset_class_stock (quote_type country : option string) :
  get_asset_class quote_type country ∈ stock_asset_classes
  <-> quote_type = Some "EQUITY".
Proof.
  unfold get_asset_class, stock_asset_classes.
  destruct quote_type as [qt|].
  { destruct (String.eqb_spec qt "") as [->|_]; simpl.
    { rewrite !elem_of_cons, elem_of_nil. split; [|discriminate].
      intros [H|[H|[H|[]]]]; discriminate. }
    destruct (String.eqb_spec qt "N/A") as [->|_]; simpl.
    { rewrite !elem_of_cons, elem_of_nil. split; [|discriminate].
      intros [H|[H|[H|[]]]]; discriminate. }
    destruct (String.eqb_spec qt "EQUITY") as [->|Hne].
    { split; [reflexivity|]. intros _.
      destruct (bool_decide (country = Some "United States"));
        [rewrite !elem_of_cons; tauto|].
      destruct (bool_decide (country = Some "Romania"));
        rewrite !elem_of_cons; tauto. }
    split; [|intros [= ->]; contradiction].
    destruct (String.eqb qt "ETF");
      [|destruct (String.eqb qt "CRYPTOCURRENCY")];
      rewrite !elem_of_cons, elem_of_nil;
      intros [H|[H|[H|[]]]]; discriminate. }
  rewrite !elem_of_cons, elem_of_nil. split; [|discriminate].
  intros [H|[H|[H|[]]]]; discriminate.
Qed.

Lemma dividend_row_of_Some (real_time_data : gmap string stock_info)
  (s : string) (d : portfolio_holding) (row : dividend_row) :
  dividend_row_of real_time_data (s, d) = Some row ->
  dv_symbol row = s
  /\ dv_shares row = total_shares (ph_holding d)
  /\ asset_class_or "Unknown" d ∈ stock_asset_classes.
Proof.
  unfold dividend_row_of.
  destruct (bool_decide (asset_class_or "Unknown" d ∈ stock_asset_classes))
    eqn:Hc; [|discriminate].
  apply bool_decide_eq_true in Hc.
  destruct (real_time_data !! s); intros [= <-]; repeat split; exact Hc.
Qed.

Lemma dividend_row_of_stock (real_time_data : gmap string stock_info)
  (s : string) (d : portfolio_holding) :
  asset_class_or "Unknown" d ∈ stock_asset_classes ->
  exists row, dividend_row_of real_time_data (s, d) = Some row.
Proof.
  intros Hc. unfold dividend_row_of.
  rewrite bool_decide_eq_true_2 by exact Hc.
  destruct (real_time_data !! s); eexists; reflexivity.
Qed.

(** The symbols of the dividend sheet: the holdings whose asset class is
    one of the three stock classes. *)
Lemma dividend_tracker_symbols (portfolio : portfolio_data) (s : string) :
  s ∈ map dv_symbol (create_dividend_tracker portfolio)
  <-> exists d, pd_holdings portfolio !! s = Some d
                /\ asset_class_or "Unknown" d ∈ stock_asset_classes.
Proof.
  unfold create_dividend_tracker.
  change (map dv_symbol ?l) with (dv_symbol <$> l).
  rewrite sort_by_string_Permutation.
  rewrite list_elem_of_fmap. split.
  - intros (row & -> & Hrow).
    apply list_elem_of_omap in Hrow as ([s' d] & Hin & Hrow).
    apply dividend_row_of_Some in Hrow as (-> & _ & Hc).
    exists d. split; [|exact Hc].
    apply elem_of_map_to_list. exact Hin.
  - intros (d & Hs & Hc).
    destruct (dividend_row_of_stock (pd_real_time_data portfolio) s d Hc)
      as [row Hrow].
    exists row. split.
    + apply dividend_row_of_Some in Hrow as (-> & _). reflexivity.
    + apply list_elem_of_omap. exists (s, d). split; [|exact Hrow].
      apply elem_of_map_to_list. exact Hs.
Qed.

Lemma loaded_holding_market (sv : services) (data : portfolio_json)
  (portfolio : portfolio_data) (s : string) (d : portfolio_holding) :
  load_portfolio_data sv data = Ok portfolio ->
  pd_holdings portfolio !! s = Some d ->
  ph_market d
  = (fun info => mkMarketFields (si_current_price info)
                   (si_company_name info)
                   (get_asset_class (si_quote_type info) (si_country info)))
    <$> (if sv_yfinance_available sv then sv_stock_info sv s else None).
Proof.
  intros Hload Hs.
  apply load_holdings_enriched in Hload as (global & _ & Hh & Hrt & _).
  rewrite Hh, enrich_all_lookup in Hs.
  destruct (global !! s) as [h|] eqn:Hg; [|discriminate].
  injection Hs as <-. rewrite <- (Hrt s) by (eexists; exact Hg).
  unfold enrich. destruct (pd_real_time_data portfolio !! s); reflexivity.
Qed.

(** X21.  The dividend sheet lists the equities and nothing else: for a
    portfolio that [load_portfolio_data] returned, a symbol has a row in
    the dividend sheet exactly when it is held, market data was fetched for
    it, and its quote type is ['EQUITY'] (whatever its country); a row
    carries the shares of the holding. *)
Theorem dividend_sheet_lists_equities (sv : services) (data : portfolio_json)
  (portfolio : portfolio_data) :
  load_portfolio_data sv data = Ok portfolio ->
  (forall s,
     s ∈ map dv_symbol (create_dividend_tracker portfolio)
     <-> exists d info,
           pd_holdings portfolio !! s = Some d
           /\ sv_yfinance_available sv = true
           /\ sv_stock_info sv s = Some info
           /\ si_quote_type info = Some "EQUITY")
  /\ forall row,
       row ∈ create_dividend_tracker portfolio ->
       dv_shares row = held_shares (pd_holdings portfolio) (dv_symbol row).
Proof.
  intros Hload. split.
  - intros s. rewrite dividend_tracker_symbols. split.
    + intros (d & Hs & Hc).
      pose proof (loaded_holding_market _ _ _ _ _ Hload Hs) as Hm.
      unfold asset_class_or in Hc.
      destruct (sv_yfinance_available sv); simpl in Hm.
      * destruct (sv_stock_info sv s) as [info|]; simpl in Hm;
          rewrite Hm in Hc; simpl in Hc.
        -- apply get_asset_class_stock in Hc.
           exists d, info. repeat split; assumption.
        -- unfold stock_asset_classes in Hc.
           rewrite !elem_of_cons, elem_of_nil in Hc.
           destruct Hc as [H|[H|[H|[]]]]; discriminate.
      * rewrite Hm in Hc. unfold stock_asset_classes in Hc.
        rewrite !elem_of_cons, elem_of_nil in Hc.
        destruct Hc as [H|[H|[H|[]]]]; discriminate.
    + intros (d & info & Hs & Hyf & Hinfo & Hqt).
      exists d. split; [exact Hs|].
      pose proof (loaded_holding_market _ _ _ _ _ Hload Hs) as Hm.
      rewrite Hyf, Hinfo in Hm. simpl in Hm.
      unfold asset_class_or. rewrite Hm. simpl.
      apply get_asset_class_stock. exact Hqt.
  - intros row Hrow. unfold create_dividend_tracker in Hrow.
    rewrite sort_by_string_Permutation in Hrow.
    apply list_elem_of_omap in Hrow as ([s d] & Hin & Hrow).
    apply dividend_row_of_Some in Hrow as (-> & -> & _).
    apply elem_of_map_to_list in Hin.
    unfold held_shares. rewrite Hin. reflexivity.
Qed.

Lemma dividend_sheet_lists_equities_witness :
  exists portfolio,
    load_portfolio_data demo_services demo_json = Ok portfolio
    /\ map dv_symbol (create_dividend_tracker portfolio) = ["ACME"]
    /\ forall s,
         s ∈ map dv_symbol (create_dividend_tracker portfolio)
         <-> exists d info,
               pd_holdings portfolio !! s = Some d
               /\ sv_yfinance_available demo_services = true
               /\ sv_stock_info demo_services s = Some info
               /\ si_quote_type info = Some "EQUITY".
Proof.
  assert (Hrun : exists portfolio,
             load_portfolio_data demo_services demo_json = Ok portfolio
             /\ map dv_symbol (create_dividend_tracker portfolio) = ["ACME"]).
  { eexists. split; vm_compute; reflexivity. }
  destruct Hrun as (portfolio & Hload & Hrows).
  exists portfolio. split; [exact Hload|]. split; [exact Hrows|].
  apply (dividend_sheet_lists_equities demo_services demo_json portfolio
           Hload).
Defined.

(** X22.  A holding without market data is a US stock in the overview and
    no stock in the dividend sheet: for a portfolio that
    [load_portfolio_data] returned, a held symbol for which no market data
    was fetched puts the row ['US Stocks'] in the overview, and has no row
    in the dividend sheet. *)
Theorem holding_without_market_data (sv : services) (data : portfolio_json)
  (portfolio : portfolio_data) (sheet : list overview_row) (s : string)
  (d : portfolio_holding) :
  load_portfolio_data sv data = Ok portfolio ->
  create_portfolio_overview portfolio = Ok sheet ->
  pd_holdings portfolio !! s = Some d ->
  (if sv_yfinance_available sv then sv_stock_info sv s else None) = None ->
  "US Stocks" ∈ map ov_asset_class sheet
  /\ s ∉ map dv_symbol (create_dividend_tracker portfolio).
Proof.
  intros Hload Hsheet Hs Hnone.
  pose proof (loaded_holding_market _ _ _ _ _ Hload Hs) as Hm.
  rewrite Hnone in Hm. simpl in Hm. split.
  - unfold create_portfolio_overview in Hsheet.
    destruct (create_global_holdings_with_usd_conversion _ _) as [usd|e];
      [|discriminate].
    rewrite bind_Ok in Hsheet.
    destruct (fold_left add_market_value (map_to_list usd) (∅, 0))
      as [values total].
    destruct (foldM (add_cash (pd_exchange_rates portfolio))
                    (pd_accounts portfolio) 0) as [cash|e]; [|discriminate].
    rewrite bind_Ok in Hsheet.
    assert (Hclass : "US Stocks"
                     ∈ (list_to_set
                          (map (fun item : string * portfolio_holding =>
                                  asset_class_or "US Stocks" item.2)
                               (map_to_list (pd_holdings portfolio)))
                        : gset string)).
    { apply elem_of_list_to_set, list_elem_of_fmap. exists (s, d). split.
      - unfold asset_class_or. simpl. rewrite Hm. reflexivity.
      - apply elem_of_map_to_list. exact Hs. }
    destruct (Qlt_bool 0 cash); injection Hsheet as <-;
      rewrite map_map; simpl; rewrite map_id;
      change (sort_by_string id ?l) with (sort_by_string (@id string) l);
      rewrite sort_by_string_Permutation; apply elem_of_elements.
    + apply elem_of_union_l. exact Hclass.
    + exact Hclass.
  - rewrite dividend_tracker_symbols. intros (d' & Hs' & Hc).
    rewrite Hs in Hs'. injection Hs' as <-.
    unfold asset_class_or in Hc. rewrite Hm in Hc.
    unfold stock_asset_classes in Hc.
    rewrite !elem_of_cons, elem_of_nil in Hc.
    destruct Hc as [H|[H|[H|[]]]]; discriminate.
Qed.

Lemma holding_without_market_data_witness :
  exists portfolio sheet d,
    load_portfolio_data demo_services demo_json = Ok portfolio
    /\ create_portfolio_overview portfolio = Ok sheet
    /\ pd_holdings portfolio !! "LOST" = Some d
    /\ "US Stocks" ∈ map ov_asset_class sheet
    /\ "LOST" ∉ map dv_symbol (create_dividend_tracker portfolio).
Proof.
  assert (Hrun : exists portfolio sheet d,
             load_portfolio_data demo_services demo_json = Ok portfolio
             /\ create_portfolio_overview portfolio = Ok sheet
             /\ pd_holdings portfolio !! "LOST" = Some d).
  { eexists. eexists. eexists. split; [vm_compute; reflexivity|].
    split; vm_compute; reflexivity. }
  destruct Hrun as (portfolio & sheet & d & Hload & Hsheet & Hs).
  exists portfolio, sheet, d.
  split; [exact Hload|]. split; [exact Hsheet|]. split; [exact Hs|].
  apply (holding_without_market_data demo_services demo_json portfolio sheet
           "LOST" d Hload Hsheet Hs).
  reflexivity.
Defined.

(** ** The transactions sheet *)

Section StableSortReverseFacts.
Context {A : Type} (key : A -> date).

Let R (a b : A) : Prop := date_le (key b) (key a).

Lemma Forall_insert_sorted_reverse (P : A -> Prop) (x : A) (l : list A) :
  Forall P (insert_sorted_reverse key x l) <-> P x /\ Forall P l.
Proof.
  induction l as [|y l IH]; simpl.
  - rewrite !Forall_cons. tauto.
  - destruct (date_leb (key y) (key x)).
    + rewrite !Forall_cons. tauto.
    + rewrite !Forall_cons, IH. tauto.
Qed.

Lemma insert_sorted_reverse_sorted (x : A) (l : list A) :
  StronglySorted R l -> StronglySorted R (insert_sorted_reverse key x l).
Proof.
  induction 1 as [|y l Hl IH Hy]; simpl.
  - constructor; constructor.
  - destruct (date_leb (key y) (key x)) eqn:E.
    + constructor; [constructor; assumption|].
      constructor; [exact E|].
      eapply Forall_impl; [exact Hy|].
      intros z Hz. unfold R in *. eapply date_le_trans; [exact Hz|exact E].
    + constructor; [exact IH|].
      apply Forall_insert_sorted_reverse. split; [|exact Hy].
      apply date_leb_false. exact E.
Qed.

Lemma sort_by_date_reverse_sorted (l : list A) :
  StronglySorted R (sort_by_date_reverse key l).
Proof.
  induction l as [|x l IH]; simpl; [constructor|].
  apply insert_sorted_reverse_sorted. exact IH.
Qed.

Lemma insert_sorted_reverse_Permutation (x : A) (l : list A) :
  insert_sorted_reverse key x l ≡ₚ x :: l.
Proof.
  induction l as [|y l IH]; simpl; [reflexivity|].
  destruct (date_leb (key y) (key x)); [reflexivity|].
  rewrite IH. apply perm_swap.
Qed.

Lemma sort_by_date_reverse_Permutation (l : list A) :
  sort_by_date_reverse key l ≡ₚ l.
Proof.
  induction l as [|x l IH]; simpl; [reflexivity|].
  rewrite insert_sorted_reverse_Permutation, IH. reflexivity.
Qed.

Lemma insert_sorted_reverse_same_date (d : date) (x : A) (l : list A) :
  filter (fun a => key a = d) (insert_sorted_reverse key x l)
  = filter (fun a => key a = d) (x :: l).
Proof.
  induction l as [|y l IH]; simpl; [reflexivity|].
  destruct (date_leb (key y) (key x)) eqn:E; [reflexivity|].
  rewrite (filter_cons _ y), IH, !filter_cons.
  destruct (decide (key y = d)) as [Hy|Hy],
           (decide (key x = d)) as [Hx|Hx]; try reflexivity.
  exfalso. rewrite Hx, Hy in E.
  assert (Hrefl : date_leb d d = true) by (apply date_leb_spec; lia).
  congruence.
Qed.

Lemma sort_by_date_reverse_same_date (d : date) (l : list A) :
  filter (fun a => key a = d) (sort_by_date_reverse key l)
  = filter (fun a => key a = d) l.
Proof.
  induction l as [|x l IH]; simpl; [reflexivity|].
  rewrite insert_sorted_reverse_same_date, !filter_cons, IH. reflexivity.
Qed.
End StableSortReverseFacts.

Lemma history_row_of_Ok (t : transaction) :
  is_Some (fee t) /\ is_Some (name t)
  <-> exists row, history_row_of t = Ok row.
Proof.
  unfold history_row_of. split.
  - intros [[f ->] [n ->]]. eexists. reflexivity.
  - intros [row Hrow].
    destruct (fee t); [|discriminate]. destruct (name t); [|discriminate].
    split; eexists; reflexivity.
Qed.

Lemma history_row_of_date (t : transaction) (row : history_row) :
  history_row_of t = Ok row ->
  hr_date row = tdate t /\ hr_symbol row = symbol t
  /\ hr_shares row = shares t /\ hr_price row = price t.
Proof.
  unfold history_row_of.
  destruct (fee t); [|discriminate]. destruct (name t); [|discriminate].
  intros [= <-]. repeat split.
Qed.

Lemma history_row_of_Err (t : transaction) (e : exn) :
  history_row_of t = Err e -> e = KeyError "fee" \/ e = KeyError "name".
Proof.
  unfold history_row_of.
  destruct (fee t); [|intros [= <-]; left; reflexivity].
  destruct (name t); [discriminate|intros [= <-]; right; reflexivity].
Qed.

Lemma mapM_total {A B : Type} (f : A -> result B) (l : list A) :
  Forall (fun x => exists y, f x = Ok y) l <-> exists r, mapM f l = Ok r.
Proof.
  induction l as [|x l IH]; simpl.
  - split; [intros _; eexists; reflexivity|constructor].
  - rewrite Forall_cons, IH. split.
    + intros [[y ->] [r ->]]. eexists. reflexivity.
    + intros [r Hr]. destruct (f x) as [y|e]; [|discriminate].
      simpl in Hr. destruct (mapM f l) as [ys|e]; [|discriminate].
      split; eexists; reflexivity.
Qed.

Lemma mapM_Err {A B : Type} (f : A -> result B) (l : list A) (e : exn) :
  mapM f l = Err e -> exists x, In x l /\ f x = Err e.
Proof.
  induction l as [|x l IH]; simpl; [discriminate|].
  destruct (f x) as [y|e'] eqn:Hx; simpl.
  - destruct (mapM f l) as [ys|e']; simpl; [discriminate|].
    intros [= <-]. destruct (IH eq_refl) as (x' & Hin & Hx').
    exists x'. split; [right; exact Hin|exact Hx'].
  - intros [= <-]. exists x. split; [left; reflexivity|exact Hx].
Qed.

(** X23.  The transactions sheet needs a fee and a name on every
    transaction: it is written exactly when every transaction has both keys,
    and fails with a [KeyError] on ['fee'] or ['name'] otherwise (the
    analyzer takes a missing fee as 0, the ledger reads the name of buys
    only).  When it is written it has one row per transaction, newest
    first, and transactions of the same date stay in the order they had. *)
Theorem transactions_sheet_needs_fee_and_name
  (transactions_list : list transaction) :
  (Forall (fun t => is_Some (fee t) /\ is_Some (name t)) transactions_list
   <-> exists sheet, create_transactions_history transactions_list = Ok sheet)
  /\ (forall e,
        create_transactions_history transactions_list = Err e ->
        e = KeyError "fee" \/ e = KeyError "name")
  /\ forall sheet,
       create_transactions_history transactions_list = Ok sheet ->
       length sheet = length transactions_list
       /\ StronglySorted (fun a b => date_le (hr_date b) (hr_date a)) sheet
       /\ forall d,
            map hr_symbol (filter (fun r => hr_date r = d) sheet)
            = map symbol (filter (fun t => tdate t = d) transactions_list).
Proof.
  unfold create_transactions_history. split; [|split].
  - rewrite <- mapM_total.
    rewrite <- (sort_by_date_reverse_Permutation tdate transactions_list)
      at 1.
    apply Forall_iff. intros t. apply history_row_of_Ok.
  - intros e He. apply mapM_Err in He as (t & _ & He).
    eapply history_row_of_Err. exact He.
  - intros sheet Hrun. apply mapM_Ok in Hrun.
    pose proof (sort_by_date_reverse_sorted tdate transactions_list) as Hs.
    pose proof (fun d => sort_by_date_reverse_same_date tdate d
                           transactions_list) as Hsame.
    pose proof (Permutation_length
                  (sort_by_date_reverse_Permutation tdate transactions_list))
      as Hlen.
    revert Hrun Hs Hsame Hlen.
    generalize (sort_by_date_reverse tdate transactions_list).
    intros sorted Hrun Hs Hsame Hlen. split; [|split].
    + rewrite <- Hlen. symmetry. eapply Forall2_length. exact Hrun.
    + clear Hsame Hlen. induction Hrun as [|t r ts rs Hr Hrest IH].
      * constructor.
      * apply StronglySorted_inv in Hs as [Hs Hall].
        constructor; [apply IH; exact Hs|].
        apply history_row_of_date in Hr as (Hd & _). rewrite Hd.
        clear IH Hs. induction Hrest as [|t' r' ts rs Hr' _ IH'].
        -- constructor.
        -- apply Forall_cons in Hall as [Ht' Hall].
           constructor; [|apply IH'; exact Hall].
           apply history_row_of_date in Hr' as (Hd' & _). rewrite Hd'.
           exact Ht'.
    + intros d. rewrite <- (Hsame d).
      clear Hs Hsame Hlen. induction Hrun as [|t r ts rs Hr _ IH].
      * reflexivity.
      * apply history_row_of_date in Hr as (Hd & Hsym & _).
        rewrite !filter_cons, Hd.
        destruct (decide (tdate t = d)); simpl; rewrite IH;
          [rewrite Hsym|]; reflexivity.
Qed.

Lemma transactions_sheet_needs_fee_and_name_witness :
  create_transactions_history scenario = Err (KeyError "fee")
  /\ exists sheet,
       create_transactions_history
         [ sell "ACME" 1 10 (mkDate 1 3 2024) 0;
           sell "BETA" 1 10 (mkDate 5 4 2024) 0;
           sell "CORP" 1 10 (mkDate 1 3 2024) 0 ] = Ok sheet
       /\ map hr_symbol sheet = ["BETA"; "ACME"; "CORP"].
Proof.
  split; [vm_compute; reflexivity|].
  destruct (proj1 (proj1 (transactions_sheet_needs_fee_and_name
              [ sell "ACME" 1 10 (mkDate 1 3 2024) 0;
                sell "BETA" 1 10 (mkDate 5 4 2024) 0;
                sell "CORP" 1 10 (mkDate 1 3 2024) 0 ])))
    as [sheet Hsheet].
  - repeat constructor; eexists; reflexivity.
  - exists sheet. split; [exact Hsheet|].
    vm_compute in Hsheet. injection Hsheet as <-. reflexivity.
Defined.

(** ** Converted holdings *)

Lemma convert_to_usd_linear (exchange_rates : gmap string rate_entry)
  (value : Q) (c : string) (y : Q) :
  convert_to_usd value c exchange_rates = Ok y ->
  y == value * usd_rate exchange_rates c.
Proof.
  unfold convert_to_usd, usd_rate. rewrite convert_zero_test.
  destruct (Qeq_bool value 0) eqn:Hz.
  { apply Qeq_bool_iff in Hz. intros [= <-]. rewrite Hz. ring. }
  destruct (String.eqb (currency_map c) "USD"); [intros [= <-]; ring|].
  destruct (exchange_rates !! currency_map c) as [[r|t]|];
    [intros [= <-]; reflexivity|discriminate|intros [= <-]; ring].
Qed.

Lemma convert_to_eur_linear (exchange_rates : gmap string rate_entry)
  (value : Q) (c : string) (y : Q) :
  convert_to_eur value c exchange_rates = Ok y ->
  y == value * eur_rate exchange_rates c.
Proof.
  unfold convert_to_eur, eur_rate. rewrite convert_zero_test.
  destruct (Qeq_bool value 0) eqn:Hz.
  { apply Qeq_bool_iff in Hz. intros [= <-]. rewrite Hz. ring. }
  destruct (String.eqb (currency_map c) "EUR"); [intros [= <-]; ring|].
  destruct (exchange_rates !! "EUR_RATES") as [[r|t]|];
    [discriminate| |intros [= <-]; ring].
  intros [= <-]. destruct (t !! currency_map c); simpl; ring.
Qed.

(** The holdings of the ledger have [total_shares * weighted_avg_cost =
    total_cost]. *)
Lemma ledger_cost_is_shares_times_average (txs : list transaction)
  (out : gmap string holding) (s : string) (h : holding) :
  process_transactions ∅ txs = Ok out -> out !! s = Some h ->
  total_shares h * weighted_avg_cost h == total_cost h.
Proof.
  intros Hrun Hs.
  apply process_transactions_Ok in Hrun as (hd & Hrun & ->).
  apply prune_lookup_Some in Hs as [Hs Hpos].
  pose proof (replay_recomputed txs hd Hrun s h Hs) as Hrec.
  apply recomputed_totals in Hrec as (_ & _ & ->).
  rewrite (proj2 (Qlt_bool_true 0 (total_shares h)) Hpos).
  field. lra.
Qed.

Lemma convert_holding_linear
  (convert : Q -> string -> gmap string rate_entry -> result Q)
  (rate : gmap string rate_entry -> string -> Q)
  (target : string) (exchange_rates : gmap string rate_entry)
  (d u : portfolio_holding) :
  (forall value c y, convert value c exchange_rates = Ok y ->
                     y == value * rate exchange_rates c) ->
  total_shares (ph_holding d) * weighted_avg_cost (ph_holding d)
  == total_cost (ph_holding d) ->
  convert_holding convert target exchange_rates d = Ok u ->
  converted_at (rate exchange_rates (h_currency (ph_holding d))) target d u.
Proof.
  intros Hlin Hcost. unfold convert_holding, converted_at.
  destruct (convert (weighted_avg_cost (ph_holding d)) _ _) as [wac|e]
    eqn:Hwac; [|discriminate].
  apply Hlin in Hwac. simpl.
  destruct (ph_market d) as [m|].
  - destruct (convert (mf_current_price m) _ _) as [p|e] eqn:Hp;
      [|discriminate].
    apply Hlin in Hp. simpl. intros [= <-]. simpl.
    repeat split; try reflexivity; try assumption.
    rewrite Hwac, <- Hcost. ring.
  - simpl. intros [= <-]. simpl.
    repeat split; try reflexivity; try assumption.
    rewrite Hwac, <- Hcost. ring.
Qed.

Lemma convert_holdings_linear
  (convert : Q -> string -> gmap string rate_entry -> result Q)
  (rate : gmap string rate_entry -> string -> Q)
  (target : string) (exchange_rates : gmap string rate_entry)
  (holdings out : gmap string portfolio_holding) :
  (forall value c y, convert value c exchange_rates = Ok y ->
                     y == value * rate exchange_rates c) ->
  (forall s d, holdings !! s = Some d ->
     total_shares (ph_holding d) * weighted_avg_cost (ph_holding d)
     == total_cost (ph_holding d)) ->
  convert_holdings convert target holdings exchange_rates = Ok out ->
  forall s,
    match holdings !! s, out !! s with
    | Some d, Some u =>
        converted_at (rate exchange_rates (h_currency (ph_holding d)))
                     target d u
    | None, None => True
    | _, _ => False
    end.
Proof.
  intros Hlin Hcost Hrun s. unfold convert_holdings in Hrun.
  apply convert_holdings_fold in Hrun as [Hdom Hall];
    [|apply NoDup_fst_map_to_list].
  destruct (holdings !! s) as [d|] eqn:Hs.
  - destruct (Hall s d) as (u & Hconv & ->).
    { apply elem_of_map_to_list. exact Hs. }
    eapply convert_holding_linear; [exact Hlin| |exact Hconv].
    eapply Hcost. exact Hs.
  - destruct (out !! s) as [u|] eqn:Hu; [|exact I].
    assert (Hin : s ∈ dom out) by (apply elem_of_dom; eexists; exact Hu).
    apply Hdom in Hin as [Hin|Hin].
    + rewrite dom_empty_L in Hin. inversion Hin.
    + apply list_elem_of_fmap in Hin as ([s' d] & -> & Hin).
      apply elem_of_map_to_list in Hin. simpl in Hs. congruence.
Qed.

Lemma enrich_cost (real_time_data : gmap string stock_info) (s : string)
  (h : holding) :
  total_shares (ph_holding (enrich real_time_data s h)) = total_shares h
  /\ weighted_avg_cost (ph_holding (enrich real_time_data s h))
     = weighted_avg_cost h
  /\ total_cost (ph_holding (enrich real_time_data s h)) = total_cost h.
Proof. unfold enrich. destruct (real_time_data !! s); repeat split. Qed.

(** X24.  The converted global holdings are the global holdings at the rate
    of their currency: for a portfolio that [load_portfolio_data]
    returned, the USD and the EUR conversion keep the symbols, the shares
    and the lots of every holding, set its currency to ['$'] or ['€'], and
    multiply its average cost, its total cost and its current price by the
    rate the converter applies to its original currency. *)
Theorem converted_holdings_are_scaled (sv : services) (data : portfolio_json)
  (portfolio : portfolio_data) :
  load_portfolio_data sv data = Ok portfolio ->
  (forall usd_holdings s,
     create_global_holdings_with_usd_conversion
       (pd_holdings portfolio) (pd_exchange_rates portfolio)
     = Ok usd_holdings ->
     match pd_holdings portfolio !! s, usd_holdings !! s with
     | Some d, Some u =>
         converted_at (usd_rate (pd_exchange_rates portfolio)
                                (h_currency (ph_holding d))) "$" d u
     | None, None => True
     | _, _ => False
     end)
  /\ (forall eur_holdings s,
        create_global_holdings_with_eur_conversion
          (pd_holdings portfolio) (pd_exchange_rates portfolio)
        = Ok eur_holdings ->
        match pd_holdings portfolio !! s, eur_holdings !! s with
        | Some d, Some u =>
            converted_at (eur_rate (pd_exchange_rates portfolio)
                                   (h_currency (ph_holding d))) "€" d u
        | None, None => True
        | _, _ => False
        end).
Proof.
  intros Hload.
  assert (Hcost : forall s d, pd_holdings portfolio !! s = Some d ->
            total_shares (ph_holding d) * weighted_avg_cost (ph_holding d)
            == total_cost (ph_holding d)).
  { apply load_holdings_enriched in Hload as (global & Hg & Hh & _).
    intros s d Hs. rewrite Hh, enrich_all_lookup in Hs.
    destruct (global !! s) as [h|] eqn:Hgs; [|discriminate].
    injection Hs as <-.
    destruct (enrich_cost (pd_real_time_data portfolio) s h)
      as (-> & -> & ->).
    eapply ledger_cost_is_shares_times_average; eassumption. }
  split.
  - intros usd_holdings s Hrun.
    apply (convert_holdings_linear convert_to_usd usd_rate "$"
             (pd_exchange_rates portfolio) (pd_holdings portfolio)
             usd_holdings); [|exact Hcost|exact Hrun].
    intros value c y. apply convert_to_usd_linear.
  - intros eur_holdings s Hrun.
    apply (convert_holdings_linear convert_to_eur eur_rate "€"
             (pd_exchange_rates portfolio) (pd_holdings portfolio)
             eur_holdings); [|exact Hcost|exact Hrun].
    intros value c y. apply convert_to_eur_linear.
Qed.

Lemma converted_holdings_are_scaled_witness :
  exists portfolio eur_holdings d u,
    load_portfolio_data demo_services demo_json = Ok portfolio
    /\ create_global_holdings_with_eur_conversion
         (pd_holdings portfolio) (pd_exchange_rates portfolio)
       = Ok eur_holdings
    /\ pd_holdings portfolio !! "FUND" = Some d
    /\ eur_holdings !! "FUND" = Some u
    /\ eur_rate (pd_exchange_rates portfolio) (h_currency (ph_holding d))
       == 0.91
    /\ total_cost (ph_holding u) == 136.5.
Proof.
  assert (Hrun : exists portfolio eur_holdings d u,
             load_portfolio_data demo_services demo_json = Ok portfolio
             /\ create_global_holdings_with_eur_conversion
                  (pd_holdings portfolio) (pd_exchange_rates portfolio)
                = Ok eur_holdings
             /\ pd_holdings portfolio !! "FUND" = Some d
             /\ eur_holdings !! "FUND" = Some u
             /\ eur_rate (pd_exchange_rates portfolio)
                         (h_currency (ph_holding d)) == 0.91
             /\ total_cost (ph_holding d) == 150).
  { eexists. eexists. eexists. eexists.
    split; [vm_compute; reflexivity|].
    split; [vm_compute; reflexivity|].
    split; [vm_compute; reflexivity|].
    split; [vm_compute; reflexivity|].
    split; vm_compute; reflexivity. }
  destruct Hrun as (portfolio & eur & d & u & Hload & Heur & Hd & Hu & Hrate
                    & Hcost).
  exists portfolio, eur, d, u.
  split; [exact Hload|]. split; [exact Heur|]. split; [exact Hd|].
  split; [exact Hu|]. split; [exact Hrate|].
  pose proof (proj2 (converted_holdings_are_scaled demo_services demo_json
                       portfolio Hload) eur "FUND" Heur) as Hconv.
  rewrite Hd, Hu in Hconv.
  destruct Hconv as (_ & _ & _ & _ & _ & Htc & _).
  rewrite Htc, Hrate, Hcost. reflexivity.
Defined.

(** ** The rows of the overview: when they are produced *)

Lemma dict_set_in {V : Type} (k : string) (v : V) (d : list (string * V))
  (kv : string * V) :
  In kv (dict_set k v d) -> kv = (k, v) \/ In kv d.
Proof.
  unfold dict_set. destruct (bool_decide (k ∈ d.*1)).
  - intros Hin. apply in_map_iff in Hin as (kv' & <- & Hin).
    destruct (bool_decide (kv'.1 = k)); [left; reflexivity|right; exact Hin].
  - intros Hin. apply in_app_or in Hin as [Hin|[<-|[]]];
      [right; exact Hin|left; reflexivity].
Qed.

Lemma load_accounts_in (accounts : list json_account) :
  forall d kv,
    In kv (fold_left (fun d a => dict_set (ja_account_name a) a d) accounts d)
    -> In kv d \/ (In kv.2 accounts /\ kv.1 = ja_account_name kv.2).
Proof.
  induction accounts as [|a accounts IH]; intros d kv Hin; simpl in Hin.
  - left. exact Hin.
  - apply IH in Hin as [Hin|[Hin Hk]].
    + apply dict_set_in in Hin as [->|Hin]; [|left; exact Hin].
      right. split; [left; reflexivity|reflexivity].
    + right. split; [right; exact Hin|exact Hk].
Qed.

Lemma loaded_accounts_from (sv : services) (data : portfolio_json)
  (portfolio : portfolio_data) :
  load_portfolio_data sv data = Ok portfolio ->
  Forall (fun kv : string * account_data =>
            exists a, In a (pj_accounts data)
                      /\ kv.1 = ja_account_name a
                      /\ ad_cash kv.2 = ja_cash a
                      /\ ad_currency kv.2 = ja_currency a
                      /\ ad_transactions kv.2 = ja_transactions a)
         (pd_accounts portfolio).
Proof.
  unfold load_portfolio_data. intros Hload.
  destruct (mapM _ _) as [accs|e] eqn:Haccs; [|discriminate].
  rewrite bind_Ok in Hload.
  destruct (process_transactions ∅ _) as [global|e]; [|discriminate].
  rewrite bind_Ok in Hload. injection Hload as <-. simpl.
  apply mapM_Ok in Haccs.
  set (rt := get_multiple_stocks_info _ _). clearbody rt.
  assert (Hfrom : Forall (fun kv : string * json_account =>
                            In kv.2 (pj_accounts data)
                            /\ kv.1 = ja_account_name kv.2)
                    (fold_left (fun d a => dict_set (ja_account_name a) a d)
                               (pj_accounts data) [])).
  { apply List.Forall_forall. intros kv Hin.
    apply load_accounts_in in Hin as [[]|H]. exact H. }
  revert Hfrom. induction Haccs as [|kv y l accs Hkv _ IH]; intros Hfrom.
  - constructor.
  - apply Forall_cons in Hfrom as [[Hin Hk] Hfrom].
    destruct (process_transactions ∅ (ja_transactions kv.2)) as [h|e];
      [|discriminate].
    injection Hkv as <-. simpl. constructor; [|apply IH; exact Hfrom].
    exists kv.2. simpl. repeat split; assumption.
Qed.

Lemma convert_holding_total (exchange_rates : gmap string rate_entry)
  (d : portfolio_holding) :
  rates_shaped exchange_rates ->
  h_currency (ph_holding d) <> "EUR_RATES" ->
  exists u, convert_holding convert_to_usd "$" exchange_rates d = Ok u.
Proof.
  intros Hshape Hc. unfold convert_holding.
  destruct (proj2 (convert_to_usd_shaped exchange_rates
                     (weighted_avg_cost (ph_holding d))
                     (h_currency (ph_holding d)) Hshape) Hc) as [wac ->].
  simpl. destruct (ph_market d) as [m|]; [|eexists; reflexivity].
  destruct (proj2 (convert_to_usd_shaped exchange_rates
                     (mf_current_price m)
                     (h_currency (ph_holding d)) Hshape) Hc) as [p ->].
  eexists. reflexivity.
Qed.

(** X26.  The rows of the overview are produced: for a portfolio that
    [load_portfolio_data] returned, with no transaction and no account in
    the currency ['EUR_RATES'], and in which a symbol is held, the
    conversion of the holdings, the sum of the cash and the loop that
    writes the rows (lines 1796 to 1914) raise nothing, whatever the rate
    service and the market data returned; the asset class of the held
    symbol has a row, so [data_end_row] is at least 2 and the range
    [F2:F{data_end_row}] of the conditional formatting has a row.  The
    charts and the formatting after the rows are calls of the workbook
    library and are not covered. *)
Theorem overview_rows_are_produced (sv : services) (data : portfolio_json)
  (portfolio : portfolio_data) (s : string) (d : portfolio_holding) :
  load_portfolio_data sv data = Ok portfolio ->
  Forall (fun t => currency t <> Some "EUR_RATES")
         (flat_map ja_transactions (pj_accounts data)) ->
  Forall (fun a => ja_currency a <> "EUR_RATES") (pj_accounts data) ->
  pd_holdings portfolio !! s = Some d ->
  exists sheet,
    create_portfolio_overview portfolio = Ok sheet
    /\ asset_class_or "US Stocks" d ∈ map ov_asset_class sheet
    /\ (2 <= data_end_row sheet)%Z.
Proof.
  intros Hload Htxs Haccs Hheld.
  pose proof (loaded_accounts_from _ _ _ Hload) as Hfrom.
  pose proof Hload as Hload'.
  apply load_holdings_enriched in Hload' as (global & Hg & Hh & _ & Hrates).
  assert (Hshape : rates_shaped (pd_exchange_rates portfolio)).
  { rewrite Hrates. apply get_exchange_rates_shaped. }
  assert (Hcur : forall s d, pd_holdings portfolio !! s = Some d ->
                   h_currency (ph_holding d) <> "EUR_RATES").
  { intros s' d' Hs. rewrite Hh, enrich_all_lookup in Hs.
    destruct (global !! s') as [h|] eqn:Hgs; [|discriminate].
    injection Hs as <-.
    assert (Hsame : h_currency (ph_holding
                       (enrich (pd_real_time_data portfolio) s' h))
                    = h_currency h).
    { unfold enrich. destruct (pd_real_time_data portfolio !! s');
        reflexivity. }
    rewrite Hsame.
    apply process_transactions_Ok in Hg as (hd & Hrun & ->).
    apply prune_lookup_Some in Hgs as [Hgs _].
    pose proof (replay_currency (fun c => c <> "EUR_RATES") _ hd
                  ltac:(discriminate)
                  ltac:(apply sort_by_date_Forall;
                        eapply Forall_impl; [exact Htxs|];
                        intros t Ht c Hc ->; apply Ht; exact Hc)
                  Hrun s') as H.
    unfold get_holding in H. rewrite Hgs in H. exact H. }
  assert (Hclass : asset_class_or "US Stocks" d
                   ∈ (list_to_set
                        (map (fun item : string * portfolio_holding =>
                                asset_class_or "US Stocks" item.2)
                             (map_to_list (pd_holdings portfolio)))
                      : gset string)).
  { apply elem_of_list_to_set, list_elem_of_fmap. exists (s, d).
    split; [reflexivity|]. apply elem_of_map_to_list. exact Hheld. }
  assert (Hrows : forall sheet,
             asset_class_or "US Stocks" d ∈ map ov_asset_class sheet ->
             (2 <= data_end_row sheet)%Z).
  { intros sheet Hin. unfold data_end_row.
    destruct sheet as [|r sheet]; [inversion Hin|].
    cbn [length]. lia. }
  unfold create_portfolio_overview.
  unfold create_global_holdings_with_usd_conversion, convert_holdings.
  destruct (foldM_total
              (convert_step convert_to_usd "$" (pd_exchange_rates portfolio))
              (fun item => h_currency (ph_holding item.2) <> "EUR_RATES")
              (map_to_list (pd_holdings portfolio)))
    with (s := (∅ : gmap string portfolio_holding)) as [usd ->].
  { intros acc [s' d'] Hd. unfold convert_step. cbn [fst snd].
    destruct (convert_holding_total _ d' Hshape Hd) as [u ->].
    eexists. reflexivity. }
  { apply List.Forall_forall. intros [s' d'] Hin. simpl.
    apply (Hcur s'). apply elem_of_map_to_list, list_elem_of_In. exact Hin. }
  rewrite bind_Ok.
  destruct (fold_left add_market_value (map_to_list usd) (∅, 0))
    as [values total].
  destruct (foldM_total (add_cash (pd_exchange_rates portfolio))
              (fun kv : string * account_data =>
                 ad_currency kv.2 <> "EUR_RATES")
              (pd_accounts portfolio)) with (s := 0) as [cash ->].
  { intros acc kv Hkv. unfold add_cash.
    destruct (Qlt_bool 0 (ad_cash kv.2)); [|eexists; reflexivity].
    destruct (proj2 (convert_to_usd_shaped (pd_exchange_rates portfolio)
                       (ad_cash kv.2) (ad_currency kv.2) Hshape) Hkv)
      as [y ->].
    eexists. reflexivity. }
  { eapply Forall_impl; [exact Hfrom|].
    intros kv (a & Hin & _ & _ & -> & _).
    rewrite List.Forall_forall in Haccs. apply Haccs. exact Hin. }
  rewrite bind_Ok.
  assert (Hin : forall values' total' (classes : gset string),
             asset_class_or "US Stocks" d ∈ classes ->
             asset_class_or "US Stocks" d
             ∈ map ov_asset_class
                 (map (overview_row_of values' total'
                         (pd_target_asset_class_distribution portfolio))
                      (sort_by_string id (elements classes)))).
  { intros values' total' classes Hc.
    rewrite map_map. simpl. rewrite map_id.
    change (sort_by_string id ?l) with (sort_by_string (@id string) l).
    rewrite sort_by_string_Permutation. apply elem_of_elements. exact Hc. }
  destruct (Qlt_bool 0 cash); eexists;
    (split; [reflexivity|]);
    (split; [|apply Hrows]); apply Hin;
    try (apply elem_of_union_l); exact Hclass.
Qed.

Lemma overview_rows_are_produced_witness :
  exists portfolio sheet d,
    load_portfolio_data demo_services demo_json = Ok portfolio
    /\ pd_holdings portfolio !! "LOST" = Some d
    /\ create_portfolio_overview portfolio = Ok sheet
    /\ asset_class_or "US Stocks" d ∈ map ov_asset_class sheet
    /\ (2 <= data_end_row sheet)%Z.
Proof.
  assert (Hrun : exists portfolio d,
             load_portfolio_data demo_services demo_json = Ok portfolio
             /\ pd_holdings portfolio !! "LOST" = Some d).
  { eexists. eexists. split; vm_compute; reflexivity. }
  destruct Hrun as (portfolio & d & Hload & Hheld).
  destruct (overview_rows_are_produced demo_services demo_json portfolio
              "LOST" d Hload)
    as (sheet & Hsheet & Hrow & Hend).
  - repeat constructor; discriminate.
  - repeat constructor; discriminate.
  - exact Hheld.
  - exists portfolio, sheet, d. split; [exact Hload|].
    split; [exact Hheld|]. split; [exact Hsheet|].
    split; [exact Hrow|exact Hend].
Defined.

(** ** Accounts with the same name *)

Lemma dict_replace_keys {V : Type} (k : string) (v : V)
  (d : list (string * V)) :
  (map (fun kv : string * V => if bool_decide (kv.1 = k) then (k, v) else kv)
       d).*1 = d.*1.
Proof.
  induction d as [|[k' v'] d IH]; [reflexivity|].
  cbn [map fmap list_fmap]. f_equal; [|exact IH].
  cbn [fst]. destruct (bool_decide (k' = k)) eqn:E; [|reflexivity].
  apply bool_decide_eq_true in E. symmetry. exact E.
Qed.

Lemma dict_set_keys {V : Type} (k : string) (v : V) (d : list (string * V)) :
  (dict_set k v d).*1 = order_add k (d.*1).
Proof.
  unfold dict_set, order_add.
  destruct (bool_decide (k ∈ d.*1)).
  - apply dict_replace_keys.
  - rewrite fmap_app. reflexivity.
Qed.

Lemma load_accounts_keys (accounts : list json_account) :
  forall d : list (string * json_account),
    (fold_left (fun d a => dict_set (ja_account_name a) a d) accounts d).*1
    = fold_left (fun acc s => order_add s acc)
                (map ja_account_name accounts) (d.*1).
Proof.
  induction accounts as [|a accounts IH]; intros d; simpl; [reflexivity|].
  rewrite IH, dict_set_keys. reflexivity.
Qed.

Lemma last_named_snoc (done : list json_account) (a : json_account)
  (n : string) :
  last_named (done ++ [a]) n
  = if decide (ja_account_name a = n) then Some a else last_named done n.
Proof.
  unfold last_named. rewrite filter_app, filter_cons, filter_nil.
  destruct (decide (ja_account_name a = n)).
  - apply last_snoc.
  - rewrite app_nil_r. reflexivity.
Qed.

Lemma dict_set_in_other {V : Type} (k : string) (v : V)
  (d : list (string * V)) (kv : string * V) :
  In kv (dict_set k v d) -> kv = (k, v) \/ (In kv d /\ kv.1 <> k).
Proof.
  unfold dict_set. destruct (bool_decide (k ∈ d.*1)) eqn:Hk.
  - intros Hin. apply in_map_iff in Hin as (kv' & <- & Hin).
    destruct (bool_decide (kv'.1 = k)) eqn:E; [left; reflexivity|].
    apply bool_decide_eq_false in E. right. split; assumption.
  - apply bool_decide_eq_false in Hk.
    intros Hin. apply in_app_or in Hin as [Hin|[<-|[]]];
      [|left; reflexivity].
    right. split; [exact Hin|]. intros <-. apply Hk.
    apply list_elem_of_fmap. exists kv. split; [reflexivity|].
    apply list_elem_of_In. exact Hin.
Qed.

Lemma load_accounts_last (rest : list json_account) :
  forall (done : list json_account) (d : list (string * json_account)),
    Forall (fun kv => last_named done kv.1 = Some kv.2) d ->
    Forall (fun kv => last_named (done ++ rest) kv.1 = Some kv.2)
           (fold_left (fun d a => dict_set (ja_account_name a) a d) rest d).
Proof.
  induction rest as [|a rest IH]; intros done d Hd; simpl.
  - rewrite app_nil_r. exact Hd.
  - replace (done ++ a :: rest) with ((done ++ [a]) ++ rest)
      by (rewrite <- app_assoc; reflexivity).
    apply IH. apply List.Forall_forall. intros kv Hin.
    rewrite last_named_snoc.
    apply dict_set_in_other in Hin as [->|[Hin Hne]]; simpl.
    + rewrite decide_True by reflexivity. reflexivity.
    + rewrite decide_False by congruence.
      rewrite List.Forall_forall in Hd. apply Hd. exact Hin.
Qed.

Lemma insert_sorted_Permutation {A : Type} (key : A -> date) (x : A)
  (l : list A) :
  insert_sorted key x l ≡ₚ x :: l.
Proof.
  induction l as [|y l IH]; simpl; [reflexivity|].
  destruct (date_leb (key x) (key y)); [reflexivity|].
  rewrite IH. apply perm_swap.
Qed.

Lemma sort_by_date_Permutation {A : Type} (key : A -> date) (l : list A) :
  sort_by_date key l ≡ₚ l.
Proof.
  induction l as [|x l IH]; simpl; [reflexivity|].
  rewrite insert_sorted_Permutation, IH. reflexivity.
Qed.

(** X27.  Accounts with the same name: [load_portfolio_data] keeps one
    entry per account name, in the order the names first occur, and the
    entry holds the cash, the currency and the transactions of the last
    account of that name; the transactions of every account, kept or not,
    are in the merged list the global holdings are computed from. *)
Theorem accounts_with_same_name (sv : services) (data : portfolio_json)
  (portfolio : portfolio_data) :
  load_portfolio_data sv data = Ok portfolio ->
  map fst (pd_accounts portfolio)
  = symbol_order (map ja_account_name (pj_accounts data))
  /\ Forall (fun kv : string * account_data =>
               exists a,
                 last_named (pj_accounts data) kv.1 = Some a
                 /\ ad_transactions kv.2 = ja_transactions a
                 /\ ad_cash kv.2 = ja_cash a
                 /\ ad_currency kv.2 = ja_currency a)
            (pd_accounts portfolio)
  /\ pd_transactions portfolio
     ≡ₚ flat_map ja_transactions (pj_accounts data).
Proof.
  unfold load_portfolio_data. intros Hload.
  destruct (mapM _ _) as [accs|e] eqn:Haccs; [|discriminate].
  rewrite bind_Ok in Hload.
  destruct (process_transactions ∅ _) as [global|e]; [|discriminate].
  rewrite bind_Ok in Hload. injection Hload as <-. simpl.
  set (rt := get_multiple_stocks_info _ _). clearbody rt.
  apply mapM_Ok in Haccs.
  pose proof (load_accounts_keys (pj_accounts data) []) as Hkeys.
  pose proof (load_accounts_last (pj_accounts data) [] []
                ltac:(constructor)) as Hlast.
  cbn [app] in Hlast.
  change (fold_left (fun acc s => order_add s acc)
                    (map ja_account_name (pj_accounts data)) ([].*1))
    with (symbol_order (map ja_account_name (pj_accounts data))) in Hkeys.
  rewrite <- Hkeys. clear Hkeys.
  revert Haccs Hlast.
  generalize (fold_left (fun d a => dict_set (ja_account_name a) a d)
                        (pj_accounts data) []).
  intros dict Haccs Hlast.
  split; [|split; [|apply sort_by_date_Permutation]].
  - induction Haccs as [|kv y l accs' Hkv _ IH]; [reflexivity|].
    destruct (process_transactions ∅ (ja_transactions kv.2)) as [h|e];
      [|discriminate].
    injection Hkv as <-. cbn [map fmap list_fmap fst]. f_equal.
    apply Forall_cons in Hlast as [_ Hlast]. apply IH. exact Hlast.
  - induction Haccs as [|kv y l accs' Hkv _ IH]; [constructor|].
    apply Forall_cons in Hlast as [Hkvl Hlast].
    destruct (process_transactions ∅ (ja_transactions kv.2)) as [h|e];
      [|discriminate].
    injection Hkv as <-. constructor; [|apply IH; exact Hlast].
    simpl. exists kv.2. repeat split. exact Hkvl.
Qed.

Lemma accounts_with_same_name_witness :
  exists portfolio,
    load_portfolio_data demo_services twin_json = Ok portfolio
    /\ map fst (pd_accounts portfolio) = ["Broker"]
    /\ map (fun kv : string * account_data => ad_currency kv.2)
           (pd_accounts portfolio) = ["€"]
    /\ length (pd_transactions portfolio) = 2%nat.
Proof.
  assert (Hrun : exists portfolio,
             load_portfolio_data demo_services twin_json = Ok portfolio
             /\ map (fun kv : string * account_data => ad_currency kv.2)
                    (pd_accounts portfolio) = ["€"]).
  { eexists. split; vm_compute; reflexivity. }
  destruct Hrun as (portfolio & Hload & Hcur).
  destruct (accounts_with_same_name demo_services twin_json portfolio Hload)
    as (Hkeys & _ & Hperm).
  exists portfolio. split; [exact Hload|]. split; [|split; [exact Hcur|]].
  - rewrite Hkeys. vm_compute. reflexivity.
  - rewrite (Permutation_length Hperm). reflexivity.
Defined.

(** ** The value of a month *)

Lemma value_holdings_value (real_time_data : gmap string (option Q))
  (get_historical_price : string -> date -> option Q)
  (use_current_prices : bool) (target_date : date)
  (exchange_rates : gmap string rate_entry)
  (items : list (string * holding)) :
  NoDup (items.*1) ->
  forall price_cache portfolio_value gains cache' value' gains',
    (forall k, k ∈ items.*1 -> price_cache !! k = None) ->
    foldM (value_holding real_time_data get_historical_price
                         use_current_prices target_date exchange_rates)
          items (price_cache, portfolio_value, gains)
    = Ok (cache', value', gains') ->
    value'
    == portfolio_value
       + Qsum (map (fun item : string * holding =>
                      total_shares item.2
                      * (held_price real_time_data get_historical_price
                                    use_current_prices target_date item
                         * usd_rate exchange_rates (h_currency item.2)))
                   items).
Proof.
  induction items as [|[sym h] items IH]; intros Hnd cache pv gains
    cache' pv' gains' Hfresh Hrun.
  - injection Hrun as _ <- _. simpl. ring.
  - rewrite foldM_cons in Hrun.
    apply NoDup_cons in Hnd as [Hsym Hnd].
    destruct (lookup_price_fresh real_time_data get_historical_price
                use_current_prices target_date cache sym h)
      as (cache1 & Hlook & Hother).
    { apply Hfresh. left. }
    rewrite value_holding_eq, Hlook in Hrun.
    destruct (convert_to_usd
                (held_price real_time_data get_historical_price
                            use_current_prices target_date (sym, h))
                (h_currency h) exchange_rates) as [price_usd|e] eqn:Hconv;
      [|discriminate].
    rewrite !bind_Ok in Hrun.
    apply convert_to_usd_linear in Hconv.
    apply IH in Hrun; [|assumption|].
    + rewrite Hrun. cbn [map Qsum snd]. rewrite Hconv. ring.
    + intros k Hk. rewrite Hother.
      * apply Hfresh. right. exact Hk.
      * intros ->. contradiction.
Qed.

(** X28.  The portfolio value of a month is the shares times the price
    times the rate, summed over the holdings at the cutoff: the price is
    the real-time price (in the current month, when there is one), else the
    historical price at the cutoff, else the average cost; the rate is the
    one [convert_to_usd] applies to the currency of the holding.  The price
    cache of the loop changes nothing. *)
Theorem portfolio_value_is_priced_shares (now : date)
  (real_time_data : gmap string (option Q))
  (get_historical_price : string -> date -> option Q)
  (accounts : list account) (exchange_rates : gmap string rate_entry)
  (ym : nat * nat) (perf : performance) :
  compute_portfolio_performance now real_time_data get_historical_price
    accounts ym.2 ym.1 exchange_rates = Ok perf ->
  exists holdings,
    holdings_at accounts (target_date_of now ym.1 ym.2) = Ok holdings
    /\ holdings_count perf = size holdings
    /\ perf_portfolio_value perf
       == Qsum (map (fun item : string * holding =>
                       total_shares item.2
                       * (held_price real_time_data get_historical_price
                                     (is_current_month now ym.1 ym.2)
                                     (target_date_of now ym.1 ym.2) item
                          * usd_rate exchange_rates (h_currency item.2)))
                    (map_to_list holdings)).
Proof.
  unfold compute_portfolio_performance.
  destruct (holdings_at accounts (target_date_of now ym.1 ym.2))
    as [holdings|e]; [|discriminate].
  rewrite bind_Ok.
  destruct (foldM _ (map_to_list holdings) (∅, 0, []))
    as [[[cache value] gains]|e] eqn:Hrun; [|discriminate].
  rewrite bind_Ok. intros [= <-]. exists holdings.
  split; [reflexivity|]. split; [reflexivity|]. simpl.
  apply value_holdings_value in Hrun.
  - rewrite Hrun. ring.
  - apply NoDup_fst_map_to_list.
  - intros k _. apply lookup_empty.
Qed.

Lemma portfolio_value_is_priced_shares_witness :
  exists perf holdings,
    compute_portfolio_performance demo_now demo_real_time demo_history
      scenario_portfolio 3 2024 static_exchange_rates = Ok perf
    /\ holdings_at scenario_portfolio (target_date_of demo_now 2024 3)
       = Ok holdings
    /\ perf_portfolio_value perf == 3 * (150 * 1).
Proof.
  assert (Hrun : exists perf,
             compute_portfolio_performance demo_now demo_real_time
               demo_history scenario_portfolio 3 2024 static_exchange_rates
             = Ok perf).
  { eexists. vm_compute. reflexivity. }
  destruct Hrun as (perf & Hperf).
  destruct (portfolio_value_is_priced_shares demo_now demo_real_time
              demo_history scenario_portfolio static_exchange_rates
              (2024, 3)%nat perf Hperf) as (holdings & Hh & _ & Hval).
  exists perf, holdings. split; [exact Hperf|]. split; [exact Hh|].
  rewrite Hval. vm_compute in Hh. injection Hh as <-.
  vm_compute. reflexivity.
Defined.

(** ** A month without prices *)

Lemma Qsum_map_ext {A : Type} (f g : A -> Q) (l : list A) :
  (forall x, f x == g x) -> Qsum (map f l) == Qsum (map g l).
Proof.
  intros Hfg. induction l as [|x l IH]; simpl; [reflexivity|].
  rewrite IH, (Hfg x). reflexivity.
Qed.

(** The price of a holding when no price is found for its symbol: the
    fallback of the loop, the average cost. *)
Lemma held_price_unpriced (real_time_data : gmap string (option Q))
  (get_historical_price : string -> date -> option Q)
  (use_current_prices : bool) (target_date : date)
  (item : string * holding) :
  get_historical_price item.1 target_date = None ->
  (use_current_prices = true -> mjoin (real_time_data !! item.1) = None) ->
  held_price real_time_data get_historical_price use_current_prices
             target_date item
  = weighted_avg_cost item.2.
Proof.
  intros Hhist Hrt. unfold held_price. rewrite Hhist.
  destruct use_current_prices; [rewrite (Hrt eq_refl)|]; reflexivity.
Qed.

(** X10.  A month for which no price is found for any symbol (no historical
    price at the cutoff, and no real-time price if it is the current month)
    values every holding at its average cost: the price of every holding
    is its [weighted_avg_cost], the portfolio value is the sum over the
    holdings at the cutoff of the shares times the average cost times the
    rate to USD, and the average gain of the month is 0. *)
Theorem unpriced_month_has_zero_gain (now : date)
  (real_time_data : gmap string (option Q))
  (get_historical_price : string -> date -> option Q)
  (accounts : list account) (exchange_rates : gmap string rate_entry)
  (ym : nat * nat) (perf : performance) :
  compute_portfolio_performance now real_time_data get_historical_price
    accounts ym.2 ym.1 exchange_rates = Ok perf ->
  (forall s, get_historical_price s (target_date_of now ym.1 ym.2) = None) ->
  (is_current_month now ym.1 ym.2 = true ->
   forall s, mjoin (real_time_data !! s) = None) ->
  exists holdings,
    holdings_at accounts (target_date_of now ym.1 ym.2) = Ok holdings
    /\ (forall item,
          held_price real_time_data get_historical_price
                     (is_current_month now ym.1 ym.2)
                     (target_date_of now ym.1 ym.2) item
          = weighted_avg_cost item.2)
    /\ perf_portfolio_value perf
       == Qsum (map (fun item : string * holding =>
                       total_shares item.2
                       * (weighted_avg_cost item.2
                          * usd_rate exchange_rates (h_currency item.2)))
                    (map_to_list holdings))
    /\ avg_pct_gain_loss perf == 0.
Proof.
  intros Hperf Hhist Hrt.
  assert (Hprice : forall item,
             held_price real_time_data get_historical_price
                        (is_current_month now ym.1 ym.2)
                        (target_date_of now ym.1 ym.2) item
             = weighted_avg_cost item.2).
  { intros item. apply held_price_unpriced; [apply Hhist|].
    intros Hcur. apply Hrt. exact Hcur. }
  revert Hperf. unfold compute_portfolio_performance.
  destruct (holdings_at accounts (target_date_of now ym.1 ym.2))
    as [holdings|e]; [|discriminate].
  rewrite bind_Ok.
  destruct (foldM _ (map_to_list holdings) (∅, 0, []))
    as [[[cache value] gains]|e] eqn:Hrun; [|discriminate].
  rewrite bind_Ok. intros [= <-]. exists holdings.
  split; [reflexivity|]. split; [exact Hprice|]. simpl. split.
  - apply value_holdings_value in Hrun.
    + rewrite Hrun, Qplus_0_l. apply Qsum_map_ext.
      intros item. rewrite Hprice. reflexivity.
    + apply NoDup_fst_map_to_list.
    + intros k _. apply lookup_empty.
  - apply value_holdings_ratios in Hrun.
    + simpl in Hrun. rewrite avg_is_mean, Hrun.
      unfold mean. rewrite Qsum_zero; [unfold Qdiv; ring|].
      apply List.Forall_forall. intros x Hx.
      apply in_map_iff in Hx as (item & <- & _).
      unfold gain_ratio. rewrite Hprice. unfold Qdiv. ring.
    + apply NoDup_fst_map_to_list.
    + intros k _. apply lookup_empty.
Qed.

Lemma unpriced_month_has_zero_gain_witness :
  exists perf holdings,
    compute_portfolio_performance demo_now demo_real_time no_history
      scenario_portfolio 2 2024 static_exchange_rates = Ok perf
    /\ holdings_at scenario_portfolio (target_date_of demo_now 2024 2)
       = Ok holdings
    /\ perf_portfolio_value perf == 1600
    /\ avg_pct_gain_loss perf == 0.
Proof.
  assert (Hrun : exists perf,
             compute_portfolio_performance demo_now demo_real_time no_history
               scenario_portfolio 2 2024 static_exchange_rates = Ok perf).
  { eexists. vm_compute. reflexivity. }
  destruct Hrun as (perf & Hperf).
  destruct (unpriced_month_has_zero_gain demo_now demo_real_time no_history
              scenario_portfolio static_exchange_rates (2024, 2)%nat perf
              Hperf)
    as (holdings & Hh & _ & Hval & Havg).
  - intros s. reflexivity.
  - intros Hcur. vm_compute in Hcur. discriminate.
  - exists perf, holdings. split; [exact Hperf|]. split; [exact Hh|].
    split; [|exact Havg].
    rewrite Hval. vm_compute in Hh. injection Hh as <-.
    vm_compute. reflexivity.
Defined.
